(** * KOBRA slither engine: a shallow embedding of the server engine

    This development models the server-authoritative game engine of the
    KOBRA repository ([game/engine.ts]) and, from the game server
    ([server.ts]), the leaderboard ([updateLeaderboard], [getLeaderboard]
    and the [/api/leaderboard/:address] handler) and the socket handlers [join_lobby],
    [ready_to_start], [forfeit] and [disconnect].  JavaScript numbers are modelled as real
    numbers (an idealisation of IEEE doubles); the quantities that the code
    only ever holds as integers (scores, kills, tick counter, orb sizes, the
    seed of the linear congruential generator) are modelled as [Z].

    Effects: the engine mutates a module-level seeded generator [rng], and
    reads two ambient sources, [Math.random()] (orb identifiers) and
    [Date.now()] (death-orb identifiers; on the server, match identifiers,
    times and proof hashes).  Both are modelled by a small
    state monad over a [Store] (the seed, and how many ambient values have
    been consumed) reading an environment [Env] (the ambient values).  The
    engine mutates snake objects in place; the array [allSnakes] built by
    [getAllSnakes] holds the two players and the AI roster, which are
    distinct objects, so an object is identified by its index in that
    array. *)

From Stdlib Require Import Reals Lra Lia ZArith List String Ascii Bool.
From Stdlib Require Import Sorting.Sorted Sorting.Permutation.
Import ListNotations.

Local Open Scope R_scope.
Local Open Scope string_scope.

(** ** Numeric helpers for the JavaScript builtins *)

(** Boolean comparisons on reals, as the JavaScript operators. *)
Definition Rltb (a b : R) : bool := if Rlt_dec a b then true else false.
Definition Rleb (a b : R) : bool := if Rle_dec a b then true else false.
Definition Reqb (a b : R) : bool := if Req_dec_T a b then true else false.

(** [Math.floor], returning the integer. *)
Definition floorZ (r : R) : Z := Int_part r.

(** Truncation toward zero, used by the JavaScript [%] operator. *)
Definition truncZ (r : R) : Z :=
  if Rle_dec 0 r then floorZ r else (- floorZ (- r))%Z.

(** The JavaScript remainder [x % m]: the sign follows the dividend. *)
Definition jsmod (x m : R) : R := x - m * IZR (truncZ (x / m)).

(** [Math.sign]. *)
Definition Rsign (r : R) : R :=
  if Rlt_dec 0 r then 1 else if Rlt_dec r 0 then -1 else 0.

(** [Math.atan2(y, x)] (signed zeros aside). *)
Definition atan2 (y x : R) : R :=
  if Rlt_dec 0 x then atan (y / x)
  else if Rlt_dec x 0 then
    (if Rle_dec 0 y then atan (y / x) + PI else atan (y / x) - PI)
  else if Rlt_dec 0 y then PI / 2
  else if Rlt_dec y 0 then - (PI / 2)
  else 0.

(** Euclidean distance [Math.sqrt(dx * dx + dy * dy)]. *)
Definition dist2 (dx dy : R) : R := sqrt (dx * dx + dy * dy).

(** ** Constants of [engine.ts] *)

Definition ARENA_WIDTH : R := 3000.
Definition ARENA_HEIGHT : R := 3000.
Definition MATCH_DURATION_MS : R := 120000.
Definition BASE_SPEED : R := 150.
Definition AI_SPEED : R := 120.
Definition BOOST_MULTIPLIER : R := 2.
Definition BOOST_DURATION_MS : R := 500.
Definition BOOST_LENGTH_COST : R := 0.05.
Definition TURN_SPEED : R := 3.
Definition INITIAL_LENGTH : R := 50.
Definition SEGMENT_SIZE : R := 8.
Definition RESPAWN_GRACE_MS : R := 2000.
Definition ORB_COUNT : nat := 200.
Definition ORB_SPAWN_RATE : R := 300.
Definition ORB_SCORE_INCREMENT : Z := 5.
Definition MAX_ORB_SIZE : R := 3.
Definition NUM_AI_BOT_MODE : nat := 8.
Definition MAX_CHECK_DISTANCE : R := 500.

(** ** Data model of [types.ts] *)

Inductive SnakeColor := red | blue | green | purple | yellow | orange.

Definition SNAKE_COLORS : list SnakeColor :=
  [red; blue; green; purple; yellow; orange].

Record Position := mkPos { x : R; y : R }.

Record Snake := mkSnake {
  address : string;
  segments : list Position;
  direction : R;
  targetDirection : R;
  length : R;
  speed : R;
  alive : bool;
  respawnTime : R;
  graceTime : R;
  boostTime : R;
  score : Z;
  kills : Z;
  color : SnakeColor
}.

(** Orb identifiers are strings built from one of three templates:
    [Math.random().toString(36).substr(2, 9)] in [spawnOrb], and
    [`death_${address}_head_${Date.now()}`] and
    [`death_${address}_${i}_${Date.now()}`] in [convertSnakeToOrbs].
    The constructors keep the parts each template is built from. *)
Inductive OrbId :=
| RandomId (s : string)
| DeathHeadId (addr : string) (now : Z)
| DeathSegId (addr : string) (i : nat) (now : Z).

Record Orb := mkOrb {
  id : OrbId;
  ox : R;
  oy : R;
  size : Z;
  value : Z;
  ocolor : SnakeColor
}.

Record GameState := mkState {
  player1 : Snake;
  player2 : Snake;
  aiSnakes : list Snake;
  orbs : list Orb;
  gameTime : R;
  matchEnded : bool;
  winner : option string;
  tick : Z;
  lastOrbSpawn : R;
  arenaWidth : R;
  arenaHeight : R
}.

(** ** The engine's effects: seeded generator and ambient sources *)

(** Ambient values of one run: the [n]-th identifier drawn with
    [Math.random().toString(36).substr(2, 9)] and the [n]-th reading of
    [Date.now()]. *)
Record Env := mkEnv { math_random_id : nat -> string; date_now : nat -> Z }.

(** The module-level [rng] seed and how many ambient values were read. *)
Record Store := mkStore { seed : Z; random_calls : nat; now_calls : nat }.

Definition M (A : Type) : Type := Env -> Store -> A * Store.

Definition ret {A} (a : A) : M A := fun _ s => (a, s).
Definition bind {A B} (c : M A) (k : A -> M B) : M B :=
  fun e s => let (a, s') := c e s in k a e s'.

Notation "x <- c ;; k" := (bind c (fun x => k))
  (at level 61, c at next level, right associativity).

(** [SeededRandom.next()]. *)
Definition rng_next : M R :=
  fun _ s =>
    let s' := ((seed s * 9301 + 49297) mod 233280)%Z in
    (IZR s' / 233280, mkStore s' (random_calls s) (now_calls s)).

(** [Math.random().toString(36).substr(2, 9)]. *)
Definition random_id : M string :=
  fun e s => (math_random_id e (random_calls s),
              mkStore (seed s) (S (random_calls s)) (now_calls s)).

(** [Date.now()]. *)
Definition date_now_M : M Z :=
  fun e s => (date_now e (now_calls s),
              mkStore (seed s) (random_calls s) (S (now_calls s))).

(** [randomColor()]. The index is in range since [rng.next()] lies in
    [[0, 1)]; [nth]'s default is never reached. *)
Definition randomColor : M SnakeColor :=
  r <- rng_next ;;
  ret (nth (Z.to_nat (floorZ (r * INR (List.length SNAKE_COLORS)))) SNAKE_COLORS red).

Definition set_seed (z : Z) : M unit :=
  fun _ s => (tt, mkStore z (random_calls s) (now_calls s)).

(** [for (let i = 0; i < n; i++) out.push(c())], in order. *)
Fixpoint repeatM {A} (n : nat) (c : M A) : M (list A) :=
  match n with
  | O => ret []
  | S n' => a <- c ;; rest <- repeatM n' c ;; ret (a :: rest)
  end.

(** ** Record updates used by the engine *)

Definition with_target (s : Snake) (t : R) : Snake :=
  mkSnake (address s) (segments s) (direction s) t (length s) (speed s)
    (alive s) (respawnTime s) (graceTime s) (boostTime s) (score s) (kills s)
    (color s).

Definition with_length_boost (s : Snake) (l b : R) : Snake :=
  mkSnake (address s) (segments s) (direction s) (targetDirection s) l
    (speed s) (alive s) (respawnTime s) (graceTime s) b (score s) (kills s)
    (color s).

Definition with_length_score (s : Snake) (l : R) (sc : Z) : Snake :=
  mkSnake (address s) (segments s) (direction s) (targetDirection s) l
    (speed s) (alive s) (respawnTime s) (graceTime s) (boostTime s) sc
    (kills s) (color s).

Definition with_kills_length (s : Snake) (k : Z) (l : R) : Snake :=
  mkSnake (address s) (segments s) (direction s) (targetDirection s) l
    (speed s) (alive s) (respawnTime s) (graceTime s) (boostTime s)
    (score s) k (color s).

(** ** Identifiers and seeding *)

(** [hash & hash] and [hash << 5] convert to a signed 32-bit integer. *)
Definition toInt32 (z : Z) : Z :=
  let m := (z mod 2 ^ 32)%Z in
  if (2 ^ 31 <=? m)%Z then (m - 2 ^ 32)%Z else m.

(** The loop of [hashMatchId]; [charCodeAt] of an ASCII character is its
    code. *)
Fixpoint hash_loop (hash : Z) (s : string) : Z :=
  match s with
  | EmptyString => hash
  | String c s' =>
      let h1 := (toInt32 (toInt32 hash * 32) - hash
                 + Z.of_nat (nat_of_ascii c))%Z in
      hash_loop (toInt32 h1) s'
  end.

Definition hashMatchId (matchId : string) : Z := Z.abs (hash_loop 0 matchId).

(** Decimal rendering of a small natural number, for [`AI_${i}`]. *)
Fixpoint nat_to_string_fuel (fuel n : nat) (acc : string) : string :=
  match fuel with
  | O => acc
  | S f =>
      let acc' := String (ascii_of_nat (48 + Nat.modulo n 10)) acc in
      if Nat.ltb n 10 then acc' else nat_to_string_fuel f (Nat.div n 10) acc'
  end.

Definition nat_to_string (n : nat) : string := nat_to_string_fuel (S n) n "".

(** ** Orb spawning *)

Definition spawnOrb : M Orb :=
  r <- rng_next ;;
  let sz := (1 + floorZ (r * MAX_ORB_SIZE))%Z in
  i <- random_id ;;
  rx <- rng_next ;;
  ry <- rng_next ;;
  c <- randomColor ;;
  ret (mkOrb (RandomId i) (50 + rx * (ARENA_WIDTH - 100))
             (50 + ry * (ARENA_HEIGHT - 100)) sz (sz * 3) c).

(** ** Snake creation *)

(** The offsets [i] of [for (let i = 0; i < INITIAL_LENGTH; i += SEGMENT_SIZE)];
    the fuel bounds the iterations far above the seven the loop makes. *)
Fixpoint offsets_from (fuel : nat) (i : R) : list R :=
  match fuel with
  | O => []
  | S f => if Rltb i INITIAL_LENGTH then i :: offsets_from f (i + SEGMENT_SIZE)
           else []
  end.

Definition segment_offsets : list R := offsets_from 50 0.

Definition body_from (px py dir : R) : list Position :=
  map (fun i => mkPos (px - cos dir * i) (py - sin dir * i)) segment_offsets.

Definition createSnake (addr : string) (px py dir : R) (isAI : bool) : M Snake :=
  c <- randomColor ;;
  ret (mkSnake addr (body_from px py dir) dir dir INITIAL_LENGTH
         (if isAI then AI_SPEED else BASE_SPEED) true 0 0 0 0 0 c).

(** The AI roster of bot mode, [AI_0] .. [AI_7]. *)
Fixpoint spawn_ai (i fuel : nat) : M (list Snake) :=
  match fuel with
  | O => ret []
  | S f =>
      rx <- rng_next ;;
      ry <- rng_next ;;
      rd <- rng_next ;;
      sn <- createSnake ("AI_" ++ nat_to_string i)
              (200 + rx * (ARENA_WIDTH - 400)) (200 + ry * (ARENA_HEIGHT - 400))
              (rd * 2 * PI) true ;;
      rest <- spawn_ai (S i) f ;;
      ret (sn :: rest)
  end.

Definition createInitialState (p1Address p2Address matchId : string)
    (isBotMode : bool) : M GameState :=
  _ <- set_seed (hashMatchId matchId) ;;
  os <- repeatM ORB_COUNT spawnOrb ;;
  ais <- (if isBotMode then spawn_ai 0 NUM_AI_BOT_MODE else ret []) ;;
  pl1 <- createSnake p1Address (ARENA_WIDTH * 0.25) (ARENA_HEIGHT * 0.5) 0 false ;;
  pl2 <- createSnake p2Address (ARENA_WIDTH * 0.75) (ARENA_HEIGHT * 0.5) PI
           (String.eqb p2Address "BOT") ;;
  ret (mkState pl1 pl2 ais os 0 false None 0 0 ARENA_WIDTH ARENA_HEIGHT).

(** ** Input handlers of the engine *)

Definition setDirection (s : Snake) (mouseX mouseY canvasWidth canvasHeight : R)
    : Snake :=
  match alive s, segments s with
  | true, _ :: _ =>
      let centerX := canvasWidth / 2 in
      let centerY := canvasHeight / 2 in
      with_target s (atan2 (mouseY - centerY) (mouseX - centerX))
  | _, _ => s
  end.

Definition startBoost (s : Snake) : Snake :=
  if Rltb 0 (boostTime s) || Rltb (length s) 20 then s
  else
    let cost := Rmax 5 (length s * BOOST_LENGTH_COST) in
    with_length_boost s (length s - cost) BOOST_DURATION_MS.

(** ** Winner determination *)

Definition determineWinner (st : GameState) : option string :=
  let p1 := player1 st in
  let p2 := player2 st in
  let p1Len := if alive p1 then length p1 else 0 in
  let p2Len := if alive p2 then length p2 else 0 in
  if Rltb p2Len p1Len then Some (address p1)
  else if Rltb p1Len p2Len then Some (address p2)
  else if (score p2 <? score p1)%Z then Some (address p1)
  else if (score p1 <? score p2)%Z then Some (address p2)
  else if (kills p2 <? kills p1)%Z then Some (address p1)
  else if (kills p1 <? kills p2)%Z then Some (address p2)
  else None.

(** ** Movement: [updateSnake] *)

(** [while (dirDiff > Math.PI) dirDiff -= 2 * Math.PI]; the fuel
    [wrap_fuel] bounds the number of iterations the loop makes (see
    [wrap_down_le_PI]). *)
Fixpoint wrap_down (fuel : nat) (d : R) : R :=
  match fuel with
  | O => d
  | S f => if Rlt_dec PI d then wrap_down f (d - 2 * PI) else d
  end.

(** [while (dirDiff < -Math.PI) dirDiff += 2 * Math.PI]. *)
Fixpoint wrap_up (fuel : nat) (d : R) : R :=
  match fuel with
  | O => d
  | S f => if Rlt_dec d (- PI) then wrap_up f (d + 2 * PI) else d
  end.

Definition wrap_fuel (d : R) : nat := Z.to_nat (up (Rabs d / (2 * PI))).

(** The shorter signed angular difference computed by the two loops. *)
Definition dirDiff_of (dir target : R) : R :=
  let d0 := target - dir in
  let d1 := wrap_down (wrap_fuel d0) d0 in
  wrap_up (wrap_fuel d1) d1.

(** Smooth direction change of [updateSnake], with [dt] in seconds. *)
Definition turn (dir target dt : R) : R :=
  let dirDiff := dirDiff_of dir target in
  let maxTurn := TURN_SPEED * dt in
  let dir1 := if Rlt_dec maxTurn (Rabs dirDiff)
              then dir + Rsign dirDiff * maxTurn else target in
  jsmod (jsmod dir1 (2 * PI) + 2 * PI) (2 * PI).

(** Segment chase-follow: segment [i] is pulled toward the already updated
    segment [i - 1]. *)
Fixpoint chase (target : Position) (rest : list Position) : list Position :=
  match rest with
  | [] => []
  | curr :: rest' =>
      let dx := x target - x curr in
      let dy := y target - y curr in
      let dist := dist2 dx dy in
      let curr' :=
        if Rlt_dec (SEGMENT_SIZE * 0.6) dist then
          let ratio := SEGMENT_SIZE / dist in
          mkPos (x target - dx * ratio) (y target - dy * ratio)
        else curr in
      curr' :: chase curr' rest'
  end.

Definition origin : Position := mkPos 0 0.

(** The segment pushed by the growth loop: [last] and
    [segments[length - 2] || last]. *)
Definition extend (segs : list Position) : Position :=
  let '(last, prev) :=
    match rev segs with
    | l :: p :: _ => (l, p)
    | [l] => (l, l)
    | [] => (origin, origin)
    end in
  let dx := x last - x prev in
  let dy := y last - y prev in
  let dist := dist2 dx dy in
  if Req_dec_T dist 0 then mkPos (x last) (y last - SEGMENT_SIZE)
  else
    let r := SEGMENT_SIZE / dist in
    mkPos (x last + dx * r) (y last + dy * r).

(** [while (segments.length < targetSegments) segments.push(...)]; each
    iteration adds one segment, so [targetSegments] iterations bound it. *)
Fixpoint grow (fuel : nat) (targetSegments : Z) (segs : list Position)
    : list Position :=
  match fuel with
  | O => segs
  | S f =>
      if (Z.of_nat (List.length segs) <? targetSegments)%Z
      then grow f targetSegments ((segs ++ [extend segs])%list)
      else segs
  end.

(** Grow / trim segments to match length. *)
Definition reconcile (segs : list Position) (targetSegments : Z)
    : list Position :=
  let grown := grow (Z.to_nat targetSegments) targetSegments segs in
  if (targetSegments + 2 <? Z.of_nat (List.length grown))%Z
  then firstn (Z.to_nat (targetSegments + 1)) grown
  else grown.

Definition is_ai_address (a : string) : bool :=
  String.prefix "AI_" a || String.eqb a "BOT".

(** [updateSnake(snake, deltaMs)]; [None] is the [TypeError] thrown by
    [head.x] when the snake has no segment. *)
Definition updateSnake (s : Snake) (deltaMs : R) : option Snake :=
  match segments s with
  | [] => None
  | head :: rest =>
      let dt := deltaMs / 1000 in
      let grace := if Rlt_dec 0 (graceTime s)
                   then Rmax 0 (graceTime s - deltaMs) else graceTime s in
      let boost := if Rlt_dec 0 (boostTime s)
                   then Rmax 0 (boostTime s - deltaMs) else boostTime s in
      let spd :=
        if Rlt_dec 0 (boostTime s) then BASE_SPEED * BOOST_MULTIPLIER
        else
          let factor := Rmax 0.5 (1 - (length s - INITIAL_LENGTH) / 500) in
          let baseSpd := if is_ai_address (address s) then AI_SPEED
                         else BASE_SPEED in
          baseSpd * factor in
      let dir := turn (direction s) (targetDirection s) dt in
      let nx := x head + cos dir * spd * dt in
      let ny := y head + sin dir * spd * dt in
      let margin := 100 in
      let spd' :=
        if Rltb nx margin || Rltb (ARENA_WIDTH - margin) nx ||
           Rltb ny margin || Rltb (ARENA_HEIGHT - margin) ny
        then spd * 0.5 else spd in
      let newHead := mkPos (Rmax 20 (Rmin (ARENA_WIDTH - 20) nx))
                           (Rmax 20 (Rmin (ARENA_HEIGHT - 20) ny)) in
      let targetSegments := floorZ (length s / SEGMENT_SIZE) in
      let segs := reconcile (newHead :: chase newHead rest) targetSegments in
      Some (mkSnake (address s) segs dir (targetDirection s) (length s) spd'
              (alive s) (respawnTime s) grace boost (score s) (kills s)
              (color s))
  end.

(** ** AI controller: [updateAIDirection] *)

(** Nearest orb: [if (dist < closestDist)] with [closestDist] starting at
    [Infinity] (represented by [None]). *)
Fixpoint closest_orb (head : Position) (os : list Orb)
    (best : option (Orb * R)) : option (Orb * R) :=
  match os with
  | [] => best
  | o :: os' =>
      let d := dist2 (ox o - x head) (oy o - y head) in
      let better := match best with
                    | None => true
                    | Some (_, bd) => Rltb d bd
                    end in
      closest_orb head os' (if better then Some (o, d) else best)
  end.

(** Opponent avoidance over [allSnakes]; [k] is the index of [other], and
    [other === ai] holds exactly when [k = i]. *)
Fixpoint avoid (i k : nat) (head : Position) (others : list Snake) (t : R) : R :=
  match others with
  | [] => t
  | other :: others' =>
      let t' :=
        match Nat.eqb k i, alive other, segments other with
        | false, true, oh :: _ =>
            let dx := x oh - x head in
            let dy := y oh - y head in
            let dist := dist2 dx dy in
            if Rltb dist 120 && Rltb 0 dist
            then (t + atan2 (- dy) (- dx)) / 2 else t
        | _, _, _ => t
        end in
      avoid i (S k) head others' t'
  end.

(** [updateAIDirection(ai, allSnakes, orbs)] for the snake at index [i] of
    [allSnakes].  During the AI phase only the updated snake's own
    [targetDirection], [length] and [boostTime] change, and the other
    snakes are only read through [alive] and [segments], so the snapshot
    [all] taken before the phase gives the same reads as the live
    objects. *)
Definition updateAIDirection (i : nat) (all : list Snake) (os : list Orb)
    (ai : Snake) : M Snake :=
  match alive ai, segments ai with
  | true, head :: _ =>
      let t1 :=
        match closest_orb head os None with
        | Some (co, _) =>
            let dx := ox co - x head in
            let dy := oy co - y head in
            let l := dist2 dx dy in
            if Rlt_dec 0 l then atan2 dy dx else targetDirection ai
        | None => targetDirection ai
        end in
      let t2 := avoid i 0 head all t1 in
      let edgeMargin := 200 in
      let t3 := if Rlt_dec (x head) edgeMargin then 0
                else if Rlt_dec (ARENA_WIDTH - edgeMargin) (x head) then PI
                else t2 in
      let t4 := if Rlt_dec (y head) edgeMargin then PI / 2
                else if Rlt_dec (ARENA_HEIGHT - edgeMargin) (y head) then - (PI / 2)
                else t3 in
      let ai' := with_target ai t4 in
      if Reqb (boostTime ai') 0 then
        r <- rng_next ;;
        ret (if Rltb r 0.01 then startBoost ai' else ai')
      else ret ai'
  | _, _ => ret ai
  end.

(** ** Orb pickups: [checkOrbCollisions] *)

(** The inner loop [for (let i = state.orbs.length - 1; i >= 0; i--)]:
    the orbs after index [i] are handled before orb [i]. *)
Fixpoint eat (head : Position) (os : list Orb) (s : Snake) : Snake * list Orb :=
  match os with
  | [] => (s, [])
  | o :: os' =>
      let '(s1, kept) := eat head os' s in
      if Rlt_dec (dist2 (x head - ox o) (y head - oy o)) (15 + IZR (size o) * 3)
      then (with_length_score s1 (length s1 + IZR (value o))
              (score s1 + ORB_SCORE_INCREMENT)%Z, kept)
      else (s1, o :: kept)
  end.

Fixpoint checkOrbCollisions (ss : list Snake) (os : list Orb)
    : list Snake * list Orb :=
  match ss with
  | [] => ([], os)
  | s :: ss' =>
      let '(s', os1) :=
        match alive s, segments s with
        | true, head :: _ => eat head os s
        | _, _ => (s, os)
        end in
      let '(ss'', os2) := checkOrbCollisions ss' os1 in
      (s' :: ss'', os2)
  end.

(** ** Snake collisions: [checkSnakeCollisions] *)

Definition head_of (s : Snake) : Position := hd origin (segments s).

Definition has_segments (s : Snake) : bool :=
  match segments s with [] => false | _ => true end.

(** Not skipped by the [continue] guards: alive, no grace, has segments. *)
Definition eligible (s : Snake) : bool :=
  alive s && negb (Rltb 0 (graceTime s)) && has_segments s.

(** [if (!toKill.includes(s)) toKill.push(s)]. *)
Definition add_unique (k : nat) (l : list nat) : list nat :=
  if existsb (Nat.eqb k) l then l else (l ++ [k])%list.

(** The [killers] map, keyed by index. *)
Definition Killers := nat -> option nat.

Definition scan_pair (a : nat) (A : Snake) (d : nat) (D : Snake)
    (acc : list nat * Killers) : list nat * Killers :=
  let '(toKill, killers) := acc in
  if Nat.eqb d a || negb (eligible D) then acc
  else
    let hd_a := head_of A in
    let hDx := x (head_of D) - x hd_a in
    let hDy := y (head_of D) - y hd_a in
    if Rlt_dec MAX_CHECK_DISTANCE (dist2 hDx hDy) then acc
    else if Rlt_dec (dist2 hDx hDy) 15 then
      (add_unique d (add_unique a toKill), killers)
    else if existsb (fun seg => Rltb (dist2 (x hd_a - x seg) (y hd_a - y seg)) 12)
                    (skipn 3 (segments D)) then
      if existsb (Nat.eqb a) toKill then acc
      else ((toKill ++ [a])%list, fun k => if Nat.eqb k a then Some d else killers k)
    else acc.

Fixpoint scan_defenders (a : nat) (A : Snake) (d : nat) (ds : list Snake)
    (acc : list nat * Killers) : list nat * Killers :=
  match ds with
  | [] => acc
  | D :: ds' => scan_defenders a A (S d) ds' (scan_pair a A d D acc)
  end.

Fixpoint scan_attackers (all : list Snake) (a : nat) (atk : list Snake)
    (acc : list nat * Killers) : list nat * Killers :=
  match atk with
  | [] => acc
  | A :: atk' =>
      let acc' := if eligible A then scan_defenders a A 0 all acc else acc in
      scan_attackers all (S a) atk' acc'
  end.

Definition collision_scan (all : list Snake) : list nat * Killers :=
  scan_attackers all 0 all ([], fun _ => None).

(** ** Death to orbs: [convertSnakeToOrbs] *)

(** [for (let i = 1; i < snake.segments.length; i += step)]; the fuel
    bounds the iterations by the number of segments ([step >= 1]). *)
Fixpoint segment_orbs (s : Snake) (step i fuel : nat) : M (list Orb) :=
  match fuel with
  | O => ret []
  | S f =>
      if Nat.ltb i (List.length (segments s)) then
        now <- date_now_M ;;
        rx <- rng_next ;;
        ry <- rng_next ;;
        let seg := nth i (segments s) origin in
        let o := mkOrb (DeathSegId (address s) i now)
                   (x seg + (rx - 0.5) * 10) (y seg + (ry - 0.5) * 10)
                   2 6 (color s) in
        rest <- segment_orbs s step (i + step) f ;;
        ret (o :: rest)
      else ret []
  end.

Definition convertSnakeToOrbs (s : Snake) : M (list Orb) :=
  match segments s with
  | [] => ret []
  | head :: _ =>
      now <- date_now_M ;;
      let headOrb := mkOrb (DeathHeadId (address s) now) (x head) (y head)
                       3 9 (color s) in
      let n := List.length (segments s) in
      let step := Nat.max 1 (Nat.div n 20) in
      rest <- segment_orbs s step 1 n ;;
      ret (headOrb :: rest)
  end.

(** [array[k] = f(array[k])], in range; out of range nothing changes
    (the indices used below are always in range). *)
Fixpoint update_nth {A} (k : nat) (f : A -> A) (l : list A) : list A :=
  match l, k with
  | [], _ => []
  | a :: l', O => f a :: l'
  | a :: l', S k' => a :: update_nth k' f l'
  end.

(** The dead state: [alive = false], [respawnTime], [boostTime = 0],
    [segments = []]. *)
Definition kill_snake (s : Snake) (rt : R) : Snake :=
  mkSnake (address s) [] (direction s) (targetDirection s) (length s)
    (speed s) false rt (graceTime s) 0 (score s) (kills s) (color s).

Definition credit_killer (dead : Snake) (k : Snake) : Snake :=
  with_kills_length k (kills k + 1)%Z
    (length k + IZR (floorZ (length dead * 0.15))).

Definition default_snake : Snake :=
  mkSnake "" [] 0 0 0 0 false 0 0 0 0 0 red.

(** [for (const dead of toKill) { ... }]. *)
Fixpoint resolve_deaths (toKill : list nat) (killers : Killers) (gt : R)
    (ss : list Snake) (os : list Orb) : M (list Snake * list Orb) :=
  match toKill with
  | [] => ret (ss, os)
  | k :: rest =>
      let dead := nth k ss default_snake in
      deathOrbs <- convertSnakeToOrbs dead ;;
      let ss1 := match killers k with
                 | Some j => update_nth j (credit_killer dead) ss
                 | None => ss
                 end in
      let ss2 := update_nth k (fun d => kill_snake d (gt + 2000)) ss1 in
      resolve_deaths rest killers gt ss2 (os ++ deathOrbs)%list
  end.

Definition checkSnakeCollisions (gt : R) (all : list Snake) (os : list Orb)
    : M (list Snake * list Orb) :=
  let '(toKill, killers) := collision_scan all in
  resolve_deaths toKill killers gt all os.

(** ** Respawn *)

Definition respawnSnake (s : Snake) : M Snake :=
  rx <- rng_next ;;
  ry <- rng_next ;;
  rd <- rng_next ;;
  let spawnX := 200 + rx * (ARENA_WIDTH - 400) in
  let spawnY := 200 + ry * (ARENA_HEIGHT - 400) in
  let spawnDir := rd * 2 * PI in
  ret (mkSnake (address s) (body_from spawnX spawnY spawnDir) spawnDir spawnDir
         INITIAL_LENGTH (BASE_SPEED * 1.5) true (respawnTime s)
         RESPAWN_GRACE_MS 0 (score s) (kills s) (color s)).

Fixpoint respawn_phase (gt : R) (ss : list Snake) : M (list Snake) :=
  match ss with
  | [] => ret []
  | s :: ss' =>
      s' <- (if negb (alive s) && Rleb (respawnTime s) gt
             then respawnSnake s else ret s) ;;
      rest <- respawn_phase gt ss' ;;
      ret (s' :: rest)
  end.

(** ** The tick processor: [processTick] *)

(** [player2] (index 1) when it is the bot, then the AI roster
    (indices 2, 3, ...). *)
Fixpoint ai_roster_phase (i : nat) (all : list Snake) (os : list Orb)
    (ais : list Snake) : M (list Snake) :=
  match ais with
  | [] => ret []
  | ai :: ais' =>
      ai' <- (if alive ai then updateAIDirection i all os ai else ret ai) ;;
      rest <- ai_roster_phase (S i) all os ais' ;;
      ret (ai' :: rest)
  end.

Definition ai_phase (all : list Snake) (os : list Orb) : M (list Snake) :=
  match all with
  | p1 :: p2 :: ais =>
      p2' <- (if (String.eqb (address p2) "BOT" || String.prefix "AI_" (address p2))
                 && alive p2
              then updateAIDirection 1 all os p2 else ret p2) ;;
      ais' <- ai_roster_phase 2 all os ais ;;
      ret (p1 :: p2' :: ais')
  | _ => ret all
  end.

(** Moving every living snake; [None] when one of them throws. *)
Fixpoint move_phase (dms : R) (ss : list Snake) : option (list Snake) :=
  match ss with
  | [] => Some []
  | s :: ss' =>
      match (if alive s then updateSnake s dms else Some s), move_phase dms ss' with
      | Some s', Some rest => Some (s' :: rest)
      | _, _ => None
      end
  end.

Definition getAllSnakes (st : GameState) : list Snake :=
  player1 st :: player2 st :: aiSnakes st.

Definition processTick (st : GameState) (deltaMs : R) : M (option GameState) :=
  let clampedDelta := Rmin (Rmax deltaMs 0) 100 in
  let gt := gameTime st + clampedDelta in
  let tk := (tick st + 1)%Z in
  let st0 := mkState (player1 st) (player2 st) (aiSnakes st) (orbs st) gt
               (matchEnded st) (winner st) tk (lastOrbSpawn st)
               (arenaWidth st) (arenaHeight st) in
  if Rleb MATCH_DURATION_MS gt && negb (matchEnded st) then
    ret (Some (mkState (player1 st) (player2 st) (aiSnakes st) (orbs st) gt
                 true (determineWinner st0) tk (lastOrbSpawn st)
                 (arenaWidth st) (arenaHeight st)))
  else
    all1 <- respawn_phase gt (getAllSnakes st) ;;
    all2 <- ai_phase all1 (orbs st) ;;
    match move_phase clampedDelta all2 with
    | None => ret None
    | Some all3 =>
        let '(all4, os4) := checkOrbCollisions all3 (orbs st) in
        res <- checkSnakeCollisions gt all4 os4 ;;
        let '(all5, os5) := res in
        spawned <-
          (if Rltb ORB_SPAWN_RATE (gt - lastOrbSpawn st) &&
              Rltb (INR (List.length os5)) (INR ORB_COUNT * 1.5)
           then o <- spawnOrb ;; ret ((os5 ++ [o])%list, gt)
           else ret (os5, lastOrbSpawn st)) ;;
        let '(os6, last6) := spawned in
        ret (Some (mkState (nth 0 all5 (player1 st)) (nth 1 all5 (player2 st))
                     (skipn 2 all5) os6 gt (matchEnded st) (winner st) tk last6
                     (arenaWidth st) (arenaHeight st)))
    end.

(** ** Steering and boost inputs of the game server *)

(** A [mouse_move] or [boost] message, as its handler applies it once the
    match is found: the input goes to the snake whose address matches and
    which is alive; any other address is ignored. *)
Inductive Input :=
| MouseMove (addr : string) (mouseX mouseY canvasWidth canvasHeight : R)
| BoostReq (addr : string).

Definition with_players (st : GameState) (p1 p2 : Snake) : GameState :=
  mkState p1 p2 (aiSnakes st) (orbs st) (gameTime st) (matchEnded st)
    (winner st) (tick st) (lastOrbSpawn st) (arenaWidth st) (arenaHeight st).

Definition apply_to_player (st : GameState) (addr : string) (f : Snake -> Snake)
    : GameState :=
  if String.eqb (address (player1 st)) addr && alive (player1 st)
  then with_players st (f (player1 st)) (player2 st)
  else if String.eqb (address (player2 st)) addr && alive (player2 st)
  then with_players st (player1 st) (f (player2 st))
  else st.

Definition apply_input (st : GameState) (inp : Input) : GameState :=
  match inp with
  | MouseMove a mx my cw ch =>
      apply_to_player st a (fun s => setDirection s mx my cw ch)
  | BoostReq a => apply_to_player st a startBoost
  end.

(** The messages received between two ticks: the [mouse_move] and
    [boost] handlers mutate [game.state] as each one arrives, so any
    number of them, from either player, act in arrival order. *)
Definition apply_inputs (st : GameState) (inps : list Input) : GameState :=
  fold_left apply_input inps st.

(** The game loop: apply the inputs received since the last tick, run
    [processTick] with the elapsed time, broadcast the state; the interval
    is cleared once [matchEnded] is set.  A tick that throws ends the
    recorded sequence. *)
Fixpoint trace (st : GameState) (steps : list (R * list Input))
    : M (list GameState) :=
  match steps with
  | [] => ret []
  | (dms, inps) :: steps' =>
      r <- processTick (apply_inputs st inps) dms ;;
      match r with
      | None => ret []
      | Some st' =>
          if matchEnded st' then ret [st']
          else rest <- trace st' steps' ;; ret (st' :: rest)
      end
  end.

(** A whole match: the initial state, then one state per tick. *)
Definition run_match (p1 p2 matchId : string) (isBotMode : bool)
    (steps : list (R * list Input)) : M (list GameState) :=
  st0 <- createInitialState p1 p2 matchId isBotMode ;;
  rest <- trace st0 steps ;;
  ret (st0 :: rest).

(** ** The server's [forfeit] handler *)

Record Game := mkGame {
  gstate : GameState;
  player1Socket : string;
  player2Socket : string;
  player1Address : string;
  player2Address : string;
  interval : option nat;
  startTime : R;
  stake : string;
  isBotMode : bool
}.

Record FinalGameState := mkFinal {
  f_matchId : string;
  f_player1 : string;
  f_player2 : string;
  f_winner : option string;
  f_loser : option string;
  finalScores : list (string * Z);
  finalLengths : list (string * R);
  finalKills : list (string * Z);
  stakeAmount : string;
  duration : R;
  matchType : string
}.

(** The server's mutable registries: [activeGames] (a [Map], as an
    association list), the events emitted to match rooms, the summaries
    passed to [updateLeaderboard], and the timers cleared. *)
Record Server := mkServer {
  activeGames : list (string * Game);
  emitted : list (string * string * FinalGameState);
  leaderboard_updates : list FinalGameState;
  cleared_timers : list nat
}.

Fixpoint lookup (k : string) (m : list (string * Game)) : option Game :=
  match m with
  | [] => None
  | (k', g) :: m' => if String.eqb k k' then Some g else lookup k m'
  end.

Definition delete_key (k : string) (m : list (string * Game))
    : list (string * Game) :=
  filter (fun kv => negb (String.eqb k (fst kv))) m.

(** [socket.on("forfeit", ({ matchId, address }) => ...)], at wall-clock
    time [now]. *)
Definition on_forfeit (srv : Server) (now : R) (matchId addr : string) : Server :=
  match lookup matchId (activeGames srv) with
  | None => srv
  | Some game =>
      let cleared := match interval game with
                     | Some t => t :: cleared_timers srv
                     | None => cleared_timers srv
                     end in
      let st := gstate game in
      let p1 := player1 st in
      let p2 := player2 st in
      let winner := if String.eqb (address p1) addr then address p2
                    else address p1 in
      let loser := addr in
      let fs := mkFinal matchId (address p1) (address p2) (Some winner)
                  (Some loser)
                  [(address p1, score p1); (address p2, score p2)]
                  [(address p1, length p1); (address p2, length p2)]
                  [(address p1, kills p1); (address p2, kills p2)]
                  (stake game) (now - startTime game) "forfeit" in
      mkServer (delete_key matchId (activeGames srv))
        (emitted srv ++ [(matchId, "game_over", fs)])%list
        (leaderboard_updates srv ++ [fs])%list cleared
  end.

(** ** Specification-side definitions *)

(** Three-way comparison of reals. *)
Definition Rcompare (a b : R) : comparison :=
  if Rlt_dec a b then Lt else if Rlt_dec b a then Gt else Eq.

(** C4, following the spec's words: greater length wins, then greater
    score, then greater kills, otherwise a draw. *)
Definition tie_break_spec (a1 a2 : string) (len1 len2 : R)
    (sc1 sc2 k1 k2 : Z) : option string :=
  match Rcompare len1 len2 with
  | Gt => Some a1
  | Lt => Some a2
  | Eq =>
      match Z.compare sc1 sc2 with
      | Gt => Some a1
      | Lt => Some a2
      | Eq =>
          match Z.compare k1 k2 with
          | Gt => Some a1
          | Lt => Some a2
          | Eq => None
          end
      end
  end.

(** The length [determineWinner] compares: zero for a dead participant. *)
Definition effective_length (s : Snake) : R := if alive s then length s else 0.

(** Sample data. *)
Definition sample_snake (addr : string) (len : R) (sc : Z) (al : bool) : Snake :=
  mkSnake addr (if al then [mkPos 750 1500] else []) 0 0 len 150 al 0 0 0 sc 0 red.

Definition sample_state (p1 p2 : Snake) : GameState :=
  mkState p1 p2 [] [] 60000 false None 1200 0 3000 3000.

Definition sample_game (st : GameState) : Game :=
  mkGame st "sock1" "sock2" (address (player1 st)) (address (player2 st))
    (Some 7%nat) 0 "5000000" false.

Definition sample_server : Server :=
  mkServer [("match_1", sample_game (sample_state (sample_snake "0xA" 120 40 true)
                                        (sample_snake "0xB" 90 10 true)))]
    [] [] [].

(** Every index put in [toKill] is that of an eligible snake, and a
    killer is only recorded for a pair whose heads are not within the
    head-to-head radius. *)
Definition scan_inv (all : list Snake) (acc : list nat * Killers) : Prop :=
  (forall k, In k (fst acc) ->
     exists K, nth_error all k = Some K /\ eligible K = true) /\
  (forall k d, snd acc k = Some d ->
     exists K D, nth_error all k = Some K /\ nth_error all d = Some D /\
       ~ dist2 (x (head_of D) - x (head_of K)) (y (head_of D) - y (head_of K)) < 15).

(** [s'] is [s] after possibly being credited with kills: only [kills]
    (which grows) and [length] differ. *)
Definition credited (s s' : Snake) : Prop :=
  address s' = address s /\ segments s' = segments s /\
  direction s' = direction s /\ targetDirection s' = targetDirection s /\
  alive s' = alive s /\ respawnTime s' = respawnTime s /\
  graceTime s' = graceTime s /\ boostTime s' = boostTime s /\
  score s' = score s /\ (kills s <= kills s')%Z /\ color s' = color s.

(** A snake within its post-respawn grace period. *)
Definition grace_snake : Snake :=
  mkSnake "0xA" [mkPos 750 1500; mkPos 742 1500] 0 0 50 225 true 0 2000 0 0 0 red.

(** An eligible snake whose head is 5 units from the head of
    [grace_snake]. *)
Definition grace_rival : Snake :=
  mkSnake "0xB" [mkPos 755 1500; mkPos 763 1500] 0 0 50 150 true 0 0 0 0 0 blue.

(** Two snakes meeting head to head, 5 units apart. *)
Definition headon_A : Snake :=
  mkSnake "0xA" [mkPos 100 100; mkPos 100 108] 0 0 50 150 true 0 0 0 0 0 red.

Definition headon_B : Snake :=
  mkSnake "0xB" [mkPos 105 100; mkPos 105 92] 0 0 50 150 true 0 0 0 0 0 blue.






(** An ambient environment. *)
Definition env0 : Env := mkEnv (fun _ => "") (fun _ => 0%Z).

(** [delta] is the shortest angular distance from heading [a] to heading
    [b]: the least [|b - a + 2 pi k|] over the integers [k]. *)
Definition is_shortest (delta a b : R) : Prop :=
  (exists k : Z, delta = Rabs (b - a + 2 * PI * IZR k)) /\
  (forall k : Z, delta <= Rabs (b - a + 2 * PI * IZR k)).

(** A snake heading east whose target, as [Math.atan2] returns it, is a
    little north of east. *)
Definition turn_snake : Snake :=
  mkSnake "0xA" [mkPos 100 100; mkPos 92 100] 0 (-0.1) 50 150 true 0 0 0 0 0 red.

(** Player 1 as [createSnake] leaves it (seven segments, length 50) and a
    dead player 2 awaiting respawn; no AI roster, no orb. *)
Definition boost_p1 : Snake :=
  mkSnake "0xA" [mkPos 750 1500; mkPos 742 1500; mkPos 734 1500;
                 mkPos 726 1500; mkPos 718 1500; mkPos 710 1500;
                 mkPos 702 1500] 0 0 50 150 true 0 0 0 0 0 red.

Definition boost_p2 : Snake :=
  mkSnake "0xB" [] 0 0 50 150 false 1000000 0 0 0 0 blue.

Definition boost_state : GameState :=
  mkState boost_p1 boost_p2 [] [] 0 false None 0 0 3000 3000.

(** Halfway through a match: player 1 as [createSnake] leaves it, and a
    dead player 2 whose respawn is due at the next tick. *)
Definition respawn_p2 : Snake :=
  mkSnake "0xB" [] 0 0 50 150 false 0 0 0 7 2 blue.

Definition respawn_state : GameState :=
  mkState boost_p1 respawn_p2 [] [] 60000 false None 1200 60000 3000 3000.

(** The dead state as the resolver leaves it at [gt]. *)
Definition killed_at (gt : R) (s : Snake) : Prop :=
  alive s = false /\ segments s = [] /\ boostTime s = 0 /\ respawnTime s = gt + 2000.

(** Segment counts: [n] is the number of segments, [T] the target
    [floor(length / SEGMENT_SIZE)] of the reconciliation. *)
Definition seg_count (S : Snake) : Z := Z.of_nat (List.length (segments S)).

Definition target_segments (S : Snake) : Z := floorZ (length S / SEGMENT_SIZE).

(** A dead snake has no segment. *)
Definition dead_empty (S : Snake) : Prop := alive S = false -> segments S = [].

(** A living snake has between [1] and [T + 2] segments. *)
Definition reconciled (S : Snake) : Prop :=
  alive S = true -> (1 <= seg_count S <= target_segments S + 2)%Z.

(** What holds of every snake once it has been moved in a tick. *)
Definition seg_ok (S : Snake) : Prop := 0 <= length S /\ dead_empty S /\ reconciled S.

(** [S'] has the alive flag and the body of [S] and a [length] at least
    as large (orb pickups, kill bonuses). *)
Definition lengthens (S S' : Snake) : Prop :=
  alive S' = alive S /\ segments S' = segments S /\ length S <= length S'.

(** Player 1 with seven segments and length 56, its head on two large
    orbs; player 2 dead and not due to respawn. *)
Definition eat_p1 : Snake :=
  mkSnake "0xA" [mkPos 1000 1500; mkPos 992 1500; mkPos 984 1500;
                 mkPos 976 1500; mkPos 968 1500; mkPos 960 1500;
                 mkPos 952 1500] 0 0 56 150 true 0 0 0 0 0 red.

Definition eat_orb : Orb := mkOrb (RandomId "o") 1000 1500 3 9 red.

Definition eat_state : GameState :=
  mkState eat_p1 boost_p2 [] [eat_orb; eat_orb] 60000 false None 1200 60000
    3000 3000.

(** Player 1 with seven segments and length 40, 50 ms before the time
    limit. *)
Definition short_p1 : Snake :=
  mkSnake "0xA" [mkPos 750 1500; mkPos 742 1500; mkPos 734 1500;
                 mkPos 726 1500; mkPos 718 1500; mkPos 710 1500;
                 mkPos 702 1500] 0 0 40 150 true 0 0 0 0 0 red.

Definition final_state : GameState :=
  mkState short_p1 boost_p2 [] [] 119950 false None 1199 0 3000 3000.

(** [S'] is the same snake as [S] (same address) with a score and a kill
    count at least as large. *)
Definition grows (S S' : Snake) : Prop :=
  address S' = address S /\ (score S <= score S')%Z /\ (kills S <= kills S')%Z.

(** [headon_A] grown to length 80. *)
Definition headon_long_A : Snake :=
  mkSnake "0xA" [mkPos 100 100; mkPos 100 108] 0 0 80 150 true 0 0 0 0 0 red.

(** A match 50 ms before its time limit. *)
Definition late_state : GameState :=
  mkState headon_A headon_B [] [] 119950 false None 0 0 3000 3000.

(** The head of a living snake lies within the clamp margins. *)
Definition head_in_arena (S : Snake) : Prop :=
  alive S = true ->
  exists h t, segments S = h :: t /\
    20 <= x h <= ARENA_WIDTH - 20 /\ 20 <= y h <= ARENA_HEIGHT - 20.

(** The invariant carried through a match: every snake has a nonnegative
    [length] and, when alive, its head within the margins; every orb has
    a nonnegative value. *)
Definition snake_ok (S : Snake) : Prop := 0 <= length S /\ head_in_arena S.

Definition orb_ok (o : Orb) : Prop := (0 <= value o)%Z.

Definition arena_inv (st : GameState) : Prop :=
  Forall snake_ok (getAllSnakes st) /\ Forall orb_ok (orbs st).

(** Orbs and states with the orb identifiers forgotten: the part of a
    state that the identifiers drawn from [Math.random] and [Date.now] do
    not reach. *)
Definition erase_orb (o : Orb) : Orb :=
  mkOrb (RandomId "") (ox o) (oy o) (size o) (value o) (ocolor o).

Definition erase_state (st : GameState) : GameState :=
  mkState (player1 st) (player2 st) (aiSnakes st) (map erase_orb (orbs st))
    (gameTime st) (matchEnded st) (winner st) (tick st) (lastOrbSpawn st)
    (arenaWidth st) (arenaHeight st).

(** Two computations agree up to [R] whatever the ambient values and
    counters, as long as they start from the same generator seed, and they
    leave the generator in the same state. *)
Definition sim {A} (Rel : A -> A -> Prop) (c1 c2 : M A) : Prop :=
  forall e1 e2 s1 s2, seed s1 = seed s2 ->
    Rel (fst (c1 e1 s1)) (fst (c2 e2 s2)) /\
    seed (snd (c1 e1 s1)) = seed (snd (c2 e2 s2)).

(** Two runs whose [Math.random] identifiers differ. *)
Definition env_a : Env := mkEnv (fun _ => "k3x9q2m7a") (fun _ => 0%Z).
Definition env_b : Env := mkEnv (fun _ => "p0w8r4t1b") (fun _ => 0%Z).
Definition store0 : Store := mkStore 0 0 0.

Definition swap_players (st : GameState) : GameState :=
  mkState (player2 st) (player1 st) (aiSnakes st) (orbs st) (gameTime st)
    (matchEnded st) (winner st) (tick st) (lastOrbSpawn st) (arenaWidth st)
    (arenaHeight st).

Definition scan_ok (acc : list nat * Killers) : Prop :=
  NoDup (fst acc) /\ forall k d, snd acc k = Some d -> k <> d.

Definition total_score (ss : list Snake) : Z :=
  fold_right (fun s acc => (score s + acc)%Z) 0%Z ss.

Definition total_length (ss : list Snake) : R :=
  fold_right (fun s acc => length s + acc) 0 ss.

Definition orbs_value (os : list Orb) : R :=
  fold_right (fun o acc => IZR (value o) + acc) 0 os.

(** ** The server's leaderboard ([updateLeaderboard], [getLeaderboard]) *)

Record LeaderboardEntry := mkEntry {
  entry_address : string;
  wins : Z;
  losses : Z;
  entry_kills : Z;
  bestLength : R;
  bestScore : Z;
  totalGames : Z;
  lastProofHash : string;
  lastUpdated : Z
}.

(** The [leaderboard] [Map], as an association list in insertion order. *)
Definition Leaderboard := list (string * LeaderboardEntry).

(** [leaderboard.get(k)]. *)
Fixpoint lb_get (k : string) (m : Leaderboard) : option LeaderboardEntry :=
  match m with
  | [] => None
  | (k', v) :: m' => if String.eqb k k' then Some v else lb_get k m'
  end.

(** [leaderboard.set(k, v)]: an existing key keeps its place. *)
Fixpoint lb_set (k : string) (v : LeaderboardEntry) (m : Leaderboard)
    : Leaderboard :=
  match m with
  | [] => [(k, v)]
  | (k', v') :: m' =>
      if String.eqb k k' then (k', v) :: m' else (k', v') :: lb_set k v m'
  end.

(** The properties every object literal inherits from [Object.prototype]:
    reading [obj[k]] for one of these names, when [obj] has no own
    property [k], gives a function (or, for [__proto__], the prototype
    object itself): a truthy value that is neither a number nor an
    array. *)
Definition object_proto_names : list string :=
  ["constructor"; "__defineGetter__"; "__defineSetter__"; "hasOwnProperty";
   "__lookupGetter__"; "__lookupSetter__"; "isPrototypeOf";
   "propertyIsEnumerable"; "toString"; "valueOf"; "__proto__"; "toLocaleString"].

Definition is_proto_name (k : string) : bool :=
  existsb (String.eqb k) object_proto_names.

(** The own property [k] of the object literals [finalScores],
    [finalLengths] and [finalKills], built as [{ [p1]: a, [p2]: b }]: a
    later property with the same key overwrites an earlier one.  [obj[k]]
    reads this value when [k] is an own key, and [undefined] when it is
    not and [is_proto_name k = false]; for an inherited name it reads a
    function, which [prop_or0Z] and [prop_or0R] below do not represent
    (the leaderboard then stores a string or [NaN]), so the statements
    about these numbers assume [is_proto_name k = false]. *)
Fixpoint prop_get {A} (k : string) (o : list (string * A)) : option A :=
  match o with
  | [] => None
  | (k', v) :: o' =>
      match prop_get k o' with
      | Some w => Some w
      | None => if String.eqb k k' then Some v else None
      end
  end.

Definition prop_or0Z (k : string) (o : list (string * Z)) : Z :=
  match prop_get k o with Some v => v | None => 0%Z end.

Definition prop_or0R (k : string) (o : list (string * R)) : R :=
  match prop_get k o with Some v => v | None => 0 end.

(** One lower-case hexadecimal digit. *)
Definition hex_digit (n : nat) : ascii :=
  ascii_of_nat (if Nat.ltb n 10 then 48 + n else 87 + n).

(** [Buffer.from(s).toString('hex')]; a string is modelled by its UTF-8
    bytes, so each character is one byte. *)
Fixpoint hex_of_string (s : string) : string :=
  match s with
  | EmptyString => EmptyString
  | String c s' =>
      let n := nat_of_ascii c in
      String (hex_digit (n / 16)) (String (hex_digit (n mod 16)) (hex_of_string s'))
  end.

(** Decimal digits of [n], prepended to [acc]; [fuel] bounds the number
    of digits. *)
Fixpoint decimal_digits (fuel : nat) (n : N) (acc : string) : string :=
  match fuel with
  | O => acc
  | S f =>
      let acc' := String (ascii_of_N (48 + N.modulo n 10)) acc in
      if N.ltb n 10 then acc' else decimal_digits f (N.div n 10) acc'
  end.

(** [n.toString()] for an integer [n]. *)
Definition number_toString (z : Z) : string :=
  match z with
  | Z0 => "0"
  | Zpos p => decimal_digits (Pos.size_nat p) (Npos p) ""
  | Zneg p => String "-" (decimal_digits (Pos.size_nat p) (Npos p) "")
  end.

(** The proof hash
    [`0x${Buffer.from(matchId + now.toString()).toString('hex').slice(0, 16)}...`]. *)
Definition proof_hash (matchId : string) (now : Z) : string :=
  "0x" ++ substring 0 16 (hex_of_string (matchId ++ number_toString now)) ++ "...".

(** [winner && winner !== 'BOT'] on a [string | null]. *)
Definition counted (p : option string) : option string :=
  match p with
  | Some a => if String.eqb a "" || String.eqb a "BOT" then None else Some a
  | None => None
  end.

(** [leaderboard.get(a) || { address: a, wins: 0, ... }]. *)
Definition entry_or_new (a : string) (lb : Leaderboard) : LeaderboardEntry :=
  match lb_get a lb with
  | Some ex => ex
  | None => mkEntry a 0 0 0 0 0 0 "" 0
  end.

(** The winner's block of [updateLeaderboard]: [existing.wins += 1],
    ..., [existing.lastProofHash = proofHash],
    [existing.lastUpdated = Date.now()]. *)
Definition record_win (ex : LeaderboardEntry) (w : string)
    (fs : FinalGameState) (proofHash : string) (now : Z) : LeaderboardEntry :=
  mkEntry (entry_address ex) (wins ex + 1) (losses ex)
    (entry_kills ex + prop_or0Z w (finalKills fs))
    (Rmax (bestLength ex) (prop_or0R w (finalLengths fs)))
    (Z.max (bestScore ex) (prop_or0Z w (finalScores fs)))
    (totalGames ex + 1) proofHash now.

(** The loser's block: the proof hash is left as it was. *)
Definition record_loss (ex : LeaderboardEntry) (l : string)
    (fs : FinalGameState) (now : Z) : LeaderboardEntry :=
  mkEntry (entry_address ex) (wins ex) (losses ex + 1)
    (entry_kills ex + prop_or0Z l (finalKills fs))
    (Rmax (bestLength ex) (prop_or0R l (finalLengths fs)))
    (Z.max (bestScore ex) (prop_or0Z l (finalScores fs)))
    (totalGames ex + 1) (lastProofHash ex) now.

(** [updateLeaderboard(finalState)]: [Date.now()] is read once for the
    proof hash, then once per updated entry. *)
Definition updateLeaderboard (fs : FinalGameState) (lb : Leaderboard)
    : M Leaderboard :=
  now0 <- date_now_M ;;
  let proofHash := proof_hash (f_matchId fs) now0 in
  lb1 <- match counted (f_winner fs) with
         | Some w =>
             now1 <- date_now_M ;;
             ret (lb_set w (record_win (entry_or_new w lb) w fs proofHash now1) lb)
         | None => ret lb
         end ;;
  match counted (f_loser fs) with
  | Some l =>
      now2 <- date_now_M ;;
      ret (lb_set l (record_loss (entry_or_new l lb1) l fs now2) lb1)
  | None => ret lb1
  end.

(** The comparator of [getLeaderboard]'s [sort], as the sign of the number
    it returns: [Lt] puts [a] first. *)
Definition lb_compare (a b : LeaderboardEntry) : comparison :=
  if negb (Z.eqb (wins b) (wins a)) then Z.compare (wins b - wins a) 0
  else if negb (Z.eqb (bestScore b) (bestScore a))
  then Z.compare (bestScore b - bestScore a) 0
  else Rcompare (bestLength b - bestLength a) 0.

(** [Array.prototype.sort] is stable; with a consistent comparator its
    result is the one of this stable insertion sort. *)
Fixpoint insert_entry (x : LeaderboardEntry) (l : list LeaderboardEntry)
    : list LeaderboardEntry :=
  match l with
  | [] => [x]
  | y :: l' =>
      match lb_compare x y with
      | Gt => y :: insert_entry x l'
      | _ => x :: y :: l'
      end
  end.

Fixpoint sort_entries (l : list LeaderboardEntry) : list LeaderboardEntry :=
  match l with
  | [] => []
  | x :: l' => insert_entry x (sort_entries l')
  end.

(** [arr.slice(0, end)]: a negative [end] counts from the end. *)
Definition slice0 {A} (l : list A) (end_ : Z) : list A :=
  let n := Z.of_nat (List.length l) in
  let e := if (end_ <? 0)%Z then Z.max 0 (n + end_) else Z.min end_ n in
  firstn (Z.to_nat e) l.

(** [getLeaderboard(limit)]. *)
Definition getLeaderboard (lb : Leaderboard) (limit : Z)
    : list LeaderboardEntry :=
  slice0 (sort_entries (map snd lb)) limit.

(** [arr.findIndex(p)]: [-1] when no element satisfies [p]. *)
Fixpoint findIndex {A} (p : A -> bool) (l : list A) : Z :=
  match l with
  | [] => (-1)%Z
  | a :: l' => if p a then 0%Z else
               match findIndex p l' with
               | (-1)%Z => (-1)%Z
               | i => (i + 1)%Z
               end
  end.

(** [GET /api/leaderboard/:address]: the entry and its rank, [None] for
    [data: null]. *)
Definition player_rank (lb : Leaderboard) (a : string)
    : option (LeaderboardEntry * Z) :=
  match lb_get a lb with
  | Some ent =>
      Some (ent, (findIndex (fun e => String.eqb (entry_address e) a)
                            (getLeaderboard lb 1000) + 1)%Z)
  | None => None
  end.

(** A well-formed leaderboard: distinct keys, each entry stored under its
    own address, and [totalGames = wins + losses] with nonnegative
    counts. *)
Definition lb_ok (lb : Leaderboard) : Prop :=
  NoDup (map fst lb) /\
  Forall (fun kv => entry_address (snd kv) = fst kv /\
                    totalGames (snd kv) = (wins (snd kv) + losses (snd kv))%Z /\
                    (0 <= wins (snd kv))%Z /\ (0 <= losses (snd kv))%Z) lb.

(** ** The server's lobby: [join_lobby] and [disconnect] *)

Record QueuedPlayer := mkQueued {
  socketId : string;
  q_address : string;
  q_stake : string
}.

(** What the lobby handlers emit: [match_found] to a socket, and
    [game_over] to a socket or a match room. *)
Inductive ServerEvent :=
| MatchFound (to opponent matchId stake role : string)
| GameOver (to : string) (fs : FinalGameState)
| StateUpdate (room : string) (st : GameState).

(** The registries the lobby handlers touch: [queues] (an object keyed by
    stake tier), [activeGames] (a [Map]), the emitted events, the timers
    cleared and the [leaderboard]. *)
Record Registry := mkRegistry {
  queues : list (string * list QueuedPlayer);
  games : list (string * Game);
  events : list ServerEvent;
  cleared : list nat;
  board : Leaderboard
}.

(** The three stake tiers, in the order [Object.keys] lists them. *)
Definition initial_queues : list (string * list QueuedPlayer) :=
  [("1000000", []); ("5000000", []); ("25000000", [])].

(** The tiers after ["0xB"] joined the first one from ["sock0"]. *)
Definition waiting_queues : list (string * list QueuedPlayer) :=
  [("1000000", [mkQueued "sock0" "0xB" "1000000"]); ("5000000", []); ("25000000", [])].

(** The own property [queues[k]]: the array of the tier [k], if [k] is
    one. *)
Fixpoint queue_get (k : string) (qs : list (string * list QueuedPlayer))
    : option (list QueuedPlayer) :=
  match qs with
  | [] => None
  | (k', q) :: qs' => if String.eqb k k' then Some q else queue_get k qs'
  end.

(** What [queues[stake]] reads: the array of a tier, a value inherited
    from [Object.prototype] (truthy, so it passes the [!queues[stake]]
    guard, but with no [push] method), or [undefined]. *)
Inductive QueueSlot :=
| OwnQueue (q : list QueuedPlayer)
| Inherited
| Missing.

Definition queue_slot (k : string) (qs : list (string * list QueuedPlayer)) : QueueSlot :=
  match queue_get k qs with
  | Some q => OwnQueue q
  | None => if is_proto_name k then Inherited else Missing
  end.

(** Replacing the array of an existing tier. *)
Fixpoint queue_put (k : string) (q : list QueuedPlayer)
    (qs : list (string * list QueuedPlayer)) : list (string * list QueuedPlayer) :=
  match qs with
  | [] => []
  | (k', q') :: qs' =>
      if String.eqb k k' then (k', q) :: qs' else (k', q') :: queue_put k q qs'
  end.

(** [activeGames.set(k, g)]: an existing key keeps its place. *)
Fixpoint games_set (k : string) (g : Game) (m : list (string * Game))
    : list (string * Game) :=
  match m with
  | [] => [(k, g)]
  | (k', g') :: m' =>
      if String.eqb k k' then (k', g) :: m' else (k', g') :: games_set k g m'
  end.

(** The random part [Math.random().toString(36).slice(2, 7)] of a match
    identifier: the first five characters of
    [Math.random().toString(36).substr(2, 9)], which [random_id] reads. *)
Definition random_suffix : M string :=
  rid <- random_id ;;
  ret (substring 0 5 rid).

(** [socket.on("join_lobby", ({ address, stake, mode }) => ...)] from the
    socket [sock]; [mode] is [undefined] when [None].  In multiplayer mode
    on an inherited name, [queues[stake].push(...)] throws a [TypeError]
    before anything is changed; the process's [uncaughtException] handler
    only logs it. *)
Definition join_lobby (sock addr stake : string) (mode : option string)
    (r : Registry) : M Registry :=
  match queue_slot stake (queues r) with
  | Missing => ret r
  | slot =>
      if match mode with Some m => String.eqb m "bot" | None => false end then
        now <- date_now_M ;;
        sfx <- random_suffix ;;
        let matchId := "bot_match_" ++ number_toString now ++ "_" ++ sfx in
        st <- createInitialState addr "BOT" matchId true ;;
        t <- date_now_M ;;
        let game := mkGame st "" "BOT" addr "BOT" None (IZR t) stake true in
        ret (mkRegistry (queues r) (games_set matchId game (games r))
               (events r ++ [MatchFound sock "BOT" matchId stake "p1"])%list
               (cleared r) (board r))
      else
        match slot with
        | Inherited | Missing => ret r
        | OwnQueue q =>
        match (q ++ [mkQueued sock addr stake])%list with
        | p1 :: p2 :: rest =>
            now <- date_now_M ;;
            sfx <- random_suffix ;;
            let matchId := "match_" ++ number_toString now ++ "_" ++ sfx in
            st <- createInitialState (q_address p1) (q_address p2) matchId false ;;
            t <- date_now_M ;;
            let game := mkGame st (socketId p1) (socketId p2) (q_address p1)
                          (q_address p2) None (IZR t) stake false in
            ret (mkRegistry (queue_put stake rest (queues r))
                   (games_set matchId game (games r))
                   (events r ++ [MatchFound (socketId p1) (q_address p2) matchId stake "p1";
                                 MatchFound (socketId p2) (q_address p1) matchId stake "p2"])%list
                   (cleared r) (board r))
        | q' => ret (mkRegistry (queue_put stake q' (queues r)) (games r)
                       (events r) (cleared r) (board r))
        end
        end
  end.

(** [queue.findIndex(p => p.socketId === sock)] then [splice(index, 1)]. *)
Fixpoint remove_socket (sock : string) (q : list QueuedPlayer) : list QueuedPlayer :=
  match q with
  | [] => []
  | p :: q' => if String.eqb (socketId p) sock then q' else p :: remove_socket sock q'
  end.

(** The summary built by the [disconnect] handler for a game of the
    disconnected socket, at [Date.now() = now]. *)
Definition disconnect_summary (sock matchId : string) (game : Game) (now : Z)
    : FinalGameState :=
  let st := gstate game in
  let p1 := player1 st in
  let p2 := player2 st in
  let first := String.eqb (player1Socket game) sock in
  mkFinal matchId (address p1) (address p2)
    (Some (if first then address p2 else address p1))
    (Some (if first then address p1 else address p2))
    [(address p1, score p1); (address p2, score p2)]
    [(address p1, length p1); (address p2, length p2)]
    [(address p1, kills p1); (address p2, kills p2)]
    (stake game) (IZR now - startTime game) "disconnect".

(** The loop [for (const [matchId, game] of activeGames.entries())] of the
    [disconnect] handler; deleting the entry being visited does not
    disturb the iteration, which visits the entries present at its start. *)
Fixpoint end_games (sock : string) (gs : list (string * Game)) (r : Registry)
    : M Registry :=
  match gs with
  | [] => ret r
  | (mid, game) :: gs' =>
      if String.eqb (player1Socket game) sock || String.eqb (player2Socket game) sock
      then
        now <- date_now_M ;;
        let fs := disconnect_summary sock mid game now in
        b <- updateLeaderboard fs (board r) ;;
        let winnerSocket := if String.eqb (player1Socket game) sock
                            then player2Socket game else player1Socket game in
        let cl := match interval game with
                  | Some t => t :: cleared r
                  | None => cleared r
                  end in
        end_games sock gs'
          (mkRegistry (queues r) (delete_key mid (games r))
             (events r ++ [GameOver winnerSocket fs])%list cl b)
      else end_games sock gs' r
  end.

(** [socket.on("disconnect", () => ...)] for the socket [sock]. *)
Definition on_disconnect (sock : string) (r : Registry) : M Registry :=
  let qs := map (fun kq => (fst kq, remove_socket sock (snd kq))) (queues r) in
  end_games sock (games r) (mkRegistry qs (games r) (events r) (cleared r) (board r)).

(** [game.player1Socket = sock] and [game.player2Socket = sock]. *)
Definition set_player1Socket (g : Game) (sock : string) : Game :=
  mkGame (gstate g) sock (player2Socket g) (player1Address g) (player2Address g)
    (interval g) (startTime g) (stake g) (isBotMode g).

Definition set_player2Socket (g : Game) (sock : string) : Game :=
  mkGame (gstate g) (player1Socket g) sock (player1Address g) (player2Address g)
    (interval g) (startTime g) (stake g) (isBotMode g).

(** [socket.on("ready_to_start", ({ matchId, address }) => ...)] from the
    socket [sock]; [timer] is the handle [setInterval] returns.  The loop
    body is [processTick] (see [trace]). *)
Definition ready_to_start (sock matchId addr : string) (timer : nat)
    (r : Registry) : M Registry :=
  match lookup matchId (games r) with
  | None => ret r
  | Some game =>
      let game1 :=
        if String.eqb addr (player1Address game) then set_player1Socket game sock
        else if String.eqb addr (player2Address game) &&
                negb (String.eqb (player2Address game) "BOT")
        then set_player2Socket game sock
        else game in
      let bothPlayersReady :=
        negb (String.eqb (player1Socket game1) "") &&
        (negb (String.eqb (player2Socket game1) "") ||
         String.eqb (player2Address game1) "BOT") in
      let notStarted := match interval game1 with None => true | Some _ => false end in
      if bothPlayersReady && notStarted then
        t <- date_now_M ;;
        _ <- date_now_M ;;
        let game2 := mkGame (gstate game1) (player1Socket game1) (player2Socket game1)
                       (player1Address game1) (player2Address game1) (Some timer)
                       (IZR t) (stake game1) (isBotMode game1) in
        ret (mkRegistry (queues r) (games_set matchId game2 (games r))
               (events r ++ [StateUpdate matchId (gstate game1)])%list
               (cleared r) (board r))
      else
        ret (mkRegistry (queues r) (games_set matchId game1 (games r))
               (events r) (cleared r) (board r))
  end.

(** A multiplayer game as [join_lobby] registers it: both sockets set, no
    loop yet. *)
Definition sample_pending_game : Game :=
  mkGame (sample_state (sample_snake "0xA" 50 0 true) (sample_snake "0xB" 50 0 true))
    "sock1" "sock2" "0xA" "0xB" None 0 "5000000" false.

Definition sample_pending_registry : Registry :=
  mkRegistry initial_queues [("match_2", sample_pending_game)] [] [] [].

(** The entry [v] stored under key [k] is well formed. *)
Definition entry_ok (k : string) (v : LeaderboardEntry) : Prop :=
  entry_address v = k /\ totalGames v = (wins v + losses v)%Z /\
  (0 <= wins v)%Z /\ (0 <= losses v)%Z.

(** A leaderboard with one player, and a match summary it won. *)
Definition sample_board : Leaderboard :=
  [("0xA", mkEntry "0xA" 2 1 5 120 40 3 "" 0)].

Definition sample_final : FinalGameState :=
  mkFinal "match_1700000000000_abcde" "0xA" "0xB" (Some "0xA") (Some "0xB")
    [("0xA", 40%Z); ("0xB", 10%Z)] [("0xA", 120); ("0xB", 90)]
    [("0xA", 1%Z); ("0xB", 0%Z)] "5000000" 120000 "time_limit".

(** [a] may precede [b] in [getLeaderboard]'s order. *)
Definition lb_le (a b : LeaderboardEntry) : Prop := lb_compare a b <> Gt.

(** At most one player waits in each tier. *)
Definition queues_ok (qs : list (string * list QueuedPlayer)) : Prop :=
  Forall (fun kq => (List.length (snd kq) <= 1)%nat) qs.

(** [game.player1Socket === sock || game.player2Socket === sock]. *)
Definition sock_game (sock : string) (g : Game) : bool :=
  String.eqb (player1Socket g) sock || String.eqb (player2Socket g) sock.

(** * Properties *)

(** ** Generic facts on the numeric helpers *)

Lemma Rltb_true (a b : R) : a < b -> Rltb a b = true.
Proof. intro H; unfold Rltb; destruct (Rlt_dec a b); [reflexivity | lra]. Qed.

Lemma Rltb_false (a b : R) : b <= a -> Rltb a b = false.
Proof. intro H; unfold Rltb; destruct (Rlt_dec a b); [lra | reflexivity]. Qed.

Lemma Rltb_spec (a b : R) : Rltb a b = true <-> a < b.
Proof. unfold Rltb; destruct (Rlt_dec a b); split; intro; auto; discriminate. Qed.

Lemma Rleb_spec (a b : R) : Rleb a b = true <-> a <= b.
Proof. unfold Rleb; destruct (Rle_dec a b); split; intro; auto; discriminate. Qed.

(** ** C9: [startBoost] *)

(** C9: a boost request while already boosting or shorter than 20 leaves
    the snake unchanged; otherwise [startBoost] subtracts exactly
    [max(5, 0.05 * length)] from [length], sets [boostTime] to 500 and
    changes no other field. *)
Theorem startBoost_frame (s : Snake) :
  startBoost s =
  if Rltb 0 (boostTime s) || Rltb (length s) 20 then s
  else mkSnake (address s) (segments s) (direction s) (targetDirection s)
         (length s - Rmax 5 (0.05 * length s)) (speed s) (alive s)
         (respawnTime s) (graceTime s) 500 (score s) (kills s) (color s).
Proof.
  unfold startBoost, with_length_boost, BOOST_LENGTH_COST, BOOST_DURATION_MS.
  destruct (Rltb 0 (boostTime s) || Rltb (length s) 20); [reflexivity|].
  rewrite (Rmult_comm (length s) 0.05); reflexivity.
Qed.

(** ** C4: winner determination *)

Lemma Rltb_cases (a b : R) :
  (Rltb b a = true /\ Rcompare a b = Gt) \/
  (Rltb b a = false /\ Rltb a b = true /\ Rcompare a b = Lt) \/
  (Rltb b a = false /\ Rltb a b = false /\ Rcompare a b = Eq).
Proof.
  destruct (Rtotal_order a b) as [H|[H|H]].
  - right; left; rewrite Rltb_false by lra; rewrite Rltb_true by lra.
    unfold Rcompare; destruct (Rlt_dec a b); [auto|lra].
  - right; right; rewrite !Rltb_false by lra.
    unfold Rcompare; destruct (Rlt_dec a b); [lra|].
    destruct (Rlt_dec b a); [lra|auto].
  - left; rewrite Rltb_true by lra.
    unfold Rcompare; destruct (Rlt_dec a b); [lra|].
    destruct (Rlt_dec b a); [auto|lra].
Qed.

Lemma determineWinner_tie_break (st : GameState) :
  determineWinner st =
  tie_break_spec (address (player1 st)) (address (player2 st))
    (effective_length (player1 st)) (effective_length (player2 st))
    (score (player1 st)) (score (player2 st))
    (kills (player1 st)) (kills (player2 st)).
Proof.
  unfold determineWinner, tie_break_spec, effective_length; cbv zeta.
  set (l1 := if alive (player1 st) then length (player1 st) else 0).
  set (l2 := if alive (player2 st) then length (player2 st) else 0).
  destruct (Rltb_cases l1 l2) as [[-> ->]|[[-> [-> ->]]|[-> [-> ->]]]];
    try reflexivity.
  destruct (Z.compare_spec (score (player1 st)) (score (player2 st))) as [H|H|H].
  - rewrite H, Z.ltb_irrefl.
    destruct (Z.compare_spec (kills (player1 st)) (kills (player2 st))) as [K|K|K].
    + rewrite K, Z.ltb_irrefl; reflexivity.
    + rewrite (proj2 (Z.ltb_ge _ _)) by lia; rewrite (proj2 (Z.ltb_lt _ _)) by lia.
      reflexivity.
    + rewrite (proj2 (Z.ltb_lt _ _)) by lia; reflexivity.
  - rewrite (proj2 (Z.ltb_ge _ _)) by lia; rewrite (proj2 (Z.ltb_lt _ _)) by lia.
    reflexivity.
  - rewrite (proj2 (Z.ltb_lt _ _)) by lia; reflexivity.
Qed.

Lemma processTick_time_limit (st : GameState) (dms : R) (e : Env) (s : Store) :
  MATCH_DURATION_MS <= gameTime st + Rmin (Rmax dms 0) 100 ->
  matchEnded st = false ->
  exists st', fst (processTick st dms e s) = Some st' /\
              matchEnded st' = true /\ winner st' = determineWinner st.
Proof.
  intros Ht He. unfold processTick; cbv zeta.
  rewrite He, (proj2 (Rleb_spec _ _) Ht). cbn [andb negb fst ret].
  eexists; split; [reflexivity|]. split; reflexivity.
Qed.

(** C4 (as amended): at the time limit the winner is the result of the
    tie-break over the two human participants, greater length first, then
    score, then kills, otherwise a draw, where a participant that is dead
    at that moment counts with length 0; with both alive, tied at length
    120 and scores 40 and 55, the one with score 55 wins whatever the
    kills. *)
Theorem winner_tie_break :
  (forall st dms e s,
     MATCH_DURATION_MS <= gameTime st + Rmin (Rmax dms 0) 100 ->
     matchEnded st = false ->
     exists st', fst (processTick st dms e s) = Some st' /\
       winner st' =
       tie_break_spec (address (player1 st)) (address (player2 st))
         (effective_length (player1 st)) (effective_length (player2 st))
         (score (player1 st)) (score (player2 st))
         (kills (player1 st)) (kills (player2 st))) /\
  (forall st,
     alive (player1 st) = true -> alive (player2 st) = true ->
     length (player1 st) = 120 -> length (player2 st) = 120 ->
     score (player1 st) = 40%Z -> score (player2 st) = 55%Z ->
     determineWinner st = Some (address (player2 st))).
Proof.
  split.
  - intros st dms e s Ht He.
    destruct (processTick_time_limit st dms e s Ht He) as [st' [H1 [_ H2]]].
    exists st'; split; [exact H1|]. rewrite H2; apply determineWinner_tie_break.
  - intros st A1 A2 L1 L2 S1 S2.
    rewrite determineWinner_tie_break; unfold tie_break_spec, effective_length.
    rewrite A1, A2, L1, L2, S1, S2. unfold Rcompare.
    destruct (Rlt_dec 120 120); [lra|]. reflexivity.
Qed.

(** C4 counterexample: lengths 120 and 120, scores 40 and 55, but the
    participant with score 55 died in the last seconds: the one with score
    40 wins. *)
Lemma winner_dead_length_counterexample :
  let st := sample_state (sample_snake "0xA" 120 40 true)
                         (sample_snake "0xB" 120 55 false) in
  length (player1 st) = 120 /\ length (player2 st) = 120 /\
  score (player1 st) = 40%Z /\ score (player2 st) = 55%Z /\
  determineWinner st = Some "0xA".
Proof.
  cbv zeta; repeat split.
  unfold determineWinner; simpl. rewrite Rltb_true by lra. reflexivity.
Qed.

(** ** C3: forfeit requests from non-participants *)

Lemma lookup_delete_key (k : string) (m : list (string * Game)) :
  lookup k (delete_key k m) = None.
Proof.
  induction m as [|[k' g] m IH]; [reflexivity|].
  unfold delete_key in *; simpl.
  destruct (String.eqb k k') eqn:E; simpl; [exact IH|].
  rewrite E; exact IH.
Qed.

(** C3 (code defect): a forfeit naming an address that is neither
    participant of an active match is not ignored: the match is removed
    from [activeGames], its timer is cleared and a [game_over] summary is
    emitted that declares player 1 the winner and the outsider the
    loser. *)
Theorem forfeit_outsider_ends_match (srv : Server) (now : R)
    (matchId addr : string) (g : Game) :
  lookup matchId (activeGames srv) = Some g ->
  address (player1 (gstate g)) <> addr ->
  address (player2 (gstate g)) <> addr ->
  let srv' := on_forfeit srv now matchId addr in
  lookup matchId (activeGames srv') = None /\
  exists fs, emitted srv' = (emitted srv ++ [(matchId, "game_over", fs)])%list /\
    f_winner fs = Some (address (player1 (gstate g))) /\
    f_loser fs = Some addr /\ matchType fs = "forfeit".
Proof.
  intros Hg H1 H2; cbv zeta; unfold on_forfeit; rewrite Hg.
  rewrite (proj2 (String.eqb_neq _ _) H1); simpl.
  split; [apply lookup_delete_key|].
  eexists; repeat split.
Qed.

Lemma forfeit_outsider_ends_match_witness :
  lookup "match_1" (activeGames sample_server) =
    Some (sample_game (sample_state (sample_snake "0xA" 120 40 true)
                                    (sample_snake "0xB" 90 10 true))) /\
  (let srv' := on_forfeit sample_server 30000 "match_1" "0xC" in
   lookup "match_1" (activeGames srv') = None /\
   exists fs, emitted srv' = (emitted sample_server ++ [("match_1", "game_over", fs)])%list /\
     f_winner fs = Some "0xA" /\ f_loser fs = Some "0xC" /\
     matchType fs = "forfeit").
Proof.
  split; [reflexivity|].
  exact (forfeit_outsider_ends_match sample_server 30000 "match_1" "0xC"
           (sample_game (sample_state (sample_snake "0xA" 120 40 true)
                                      (sample_snake "0xB" 90 10 true)))
           eq_refl ltac:(discriminate) ltac:(discriminate)).
Defined.

(** ** Lists updated by index *)

Lemma nth_error_update_nth {A} (k j : nat) (f : A -> A) (l : list A) :
  nth_error (update_nth k f l) j =
  if Nat.eqb k j then option_map f (nth_error l j) else nth_error l j.
Proof.
  revert k j; induction l as [|a l IH]; intros k j.
  - destruct k, j; simpl; try destruct (Nat.eqb k j); reflexivity.
  - destruct k as [|k], j as [|j]; simpl; try reflexivity.
    rewrite IH; reflexivity.
Qed.

Lemma length_update_nth {A} (k : nat) (f : A -> A) (l : list A) :
  List.length (update_nth k f l) = List.length l.
Proof.
  revert k; induction l as [|a l IH]; intros [|k]; simpl; auto.
Qed.

(** ** The collision scan *)

Section Scan.

Variable all : list Snake.

Lemma In_add_unique (k j : nat) (l : list nat) :
  In k (add_unique j l) <-> In k l \/ k = j.
Proof.
  unfold add_unique. destruct (existsb (Nat.eqb j) l) eqn:E.
  - apply existsb_exists in E as [j' [Hj' Hq]]. apply Nat.eqb_eq in Hq; subst.
    split; [auto|]. intros [H|H]; subst; auto.
  - rewrite in_app_iff; simpl. split; intros [H|H]; auto.
    destruct H; auto. contradiction.
Qed.

Lemma scan_pair_inv (a d : nat) (A D : Snake) acc :
  nth_error all a = Some A -> eligible A = true -> nth_error all d = Some D ->
  scan_inv all acc -> scan_inv all (scan_pair a A d D acc).
Proof.
  intros HA EA HD [I1 I2]. destruct acc as [toKill killers]. unfold scan_pair.
  destruct (Nat.eqb d a || negb (eligible D)) eqn:Skip; [split; auto|].
  apply orb_false_iff in Skip as [_ ED]. apply negb_false_iff in ED.
  destruct (Rlt_dec _ _); [split; auto|].
  destruct (Rlt_dec _ _).
  - split; simpl; auto. intros k Hk. apply In_add_unique in Hk as [Hk|Hk]; subst; eauto.
    apply In_add_unique in Hk as [Hk|Hk]; subst; eauto.
  - destruct (existsb _ _); [|split; auto].
    destruct (existsb (Nat.eqb a) toKill); [split; auto|].
    split; simpl.
    + intros k Hk. apply in_app_iff in Hk as [Hk|[Hk|[]]]; subst; eauto.
    + intros k d' Hk. destruct (Nat.eqb k a) eqn:Ek.
      * apply Nat.eqb_eq in Ek; injection Hk as <-; subst; eauto 7.
      * eauto.
Qed.

Lemma scan_defenders_inv (a : nat) (A : Snake) :
  nth_error all a = Some A -> eligible A = true ->
  forall ds d0 acc,
  (forall j D, nth_error ds j = Some D -> nth_error all (d0 + j) = Some D) ->
  scan_inv all acc -> scan_inv all (scan_defenders a A d0 ds acc).
Proof.
  intros HA EA ds; induction ds as [|D ds IH]; intros d0 acc Hds Hacc; [exact Hacc|].
  simpl. apply IH.
  - intros j D' Hj. replace (S d0 + j)%nat with (d0 + S j)%nat by lia.
    apply (Hds (S j)); exact Hj.
  - apply scan_pair_inv; auto. rewrite <- (Nat.add_0_r d0). apply (Hds 0%nat); reflexivity.
Qed.

Lemma scan_attackers_inv :
  forall atk a0 acc,
  (forall j A, nth_error atk j = Some A -> nth_error all (a0 + j) = Some A) ->
  scan_inv all acc -> scan_inv all (scan_attackers all a0 atk acc).
Proof.
  intro atk; induction atk as [|A atk IH]; intros a0 acc Hatk Hacc; [exact Hacc|].
  simpl. apply IH.
  - intros j A' Hj. replace (S a0 + j)%nat with (a0 + S j)%nat by lia.
    apply (Hatk (S j)); exact Hj.
  - destruct (eligible A) eqn:EA; [|exact Hacc].
    apply scan_defenders_inv; auto.
    rewrite <- (Nat.add_0_r a0). apply (Hatk 0%nat); reflexivity.
Qed.

Lemma collision_scan_inv : scan_inv all (collision_scan all).
Proof.
  apply scan_attackers_inv; [intros; exact H|].
  split; simpl; [tauto | discriminate].
Qed.




End Scan.

Lemma dist2_opp (a b c d : R) : dist2 (a - b) (c - d) = dist2 (b - a) (d - c).
Proof. unfold dist2; f_equal; ring. Qed.




(** ** Death resolution *)

Lemma credited_refl (s : Snake) : credited s s.
Proof. repeat split; reflexivity || lia. Qed.

Lemma credited_trans (s1 s2 s3 : Snake) :
  credited s1 s2 -> credited s2 s3 -> credited s1 s3.
Proof.
  unfold credited; intros (a1&a2&a3&a4&a5&a6&a7&a8&a9&a10&a11)
                          (b1&b2&b3&b4&b5&b6&b7&b8&b9&b10&b11).
  repeat split; congruence || lia.
Qed.

Lemma credited_killer (dead k : Snake) : credited k (credit_killer dead k).
Proof. unfold credit_killer, with_kills_length, credited; simpl; repeat split; lia. Qed.

Lemma resolve_deaths_step (k : nat) (rest : list nat) (killers : Killers)
    (gt : R) (ss : list Snake) (os : list Orb) (e : Env) (st : Store) :
  resolve_deaths (k :: rest) killers gt ss os e st =
  let dead := nth k ss default_snake in
  let (deathOrbs, st1) := convertSnakeToOrbs dead e st in
  resolve_deaths rest killers gt
    (update_nth k (fun d => kill_snake d (gt + 2000))
       (match killers k with
        | Some j => update_nth j (credit_killer dead) ss
        | None => ss
        end))
    (os ++ deathOrbs)%list e st1.
Proof. reflexivity. Qed.

(** A snake that is not in [toKill] keeps everything but its kill credit. *)
Lemma resolve_deaths_other (killers : Killers) (gt : R) (e : Env) (i : nat) :
  forall toKill ss os st s,
  ~ In i toKill -> nth_error ss i = Some s ->
  exists s', nth_error (fst (fst (resolve_deaths toKill killers gt ss os e st))) i
             = Some s' /\ credited s s'.
Proof.
  intro toKill; induction toKill as [|k rest IH]; intros ss os st s Hi Hs.
  - exists s; split; [exact Hs | apply credited_refl].
  - rewrite resolve_deaths_step; cbv zeta.
    destruct (convertSnakeToOrbs _ e st) as [dOrbs st1].
    assert (Hk : k <> i) by (intro; subst; apply Hi; left; reflexivity).
    assert (Hrest : ~ In i rest) by (intro; apply Hi; right; assumption).
    destruct (killers k) as [j|].
    + set (s1 := if Nat.eqb j i then credit_killer (nth k ss default_snake) s else s).
      assert (Hs1 : nth_error (update_nth k (fun d => kill_snake d (gt + 2000))
                      (update_nth j (credit_killer (nth k ss default_snake)) ss)) i
                    = Some s1).
      { rewrite nth_error_update_nth, (proj2 (Nat.eqb_neq _ _) Hk).
        rewrite nth_error_update_nth, Hs. unfold s1. destruct (Nat.eqb j i); reflexivity. }
      destruct (IH _ (os ++ dOrbs)%list st1 s1 Hrest Hs1) as [s' [H1 H2]].
      exists s'; split; [exact H1|]. apply (credited_trans _ s1); [|exact H2].
      unfold s1; destruct (Nat.eqb j i); [apply credited_killer|apply credited_refl].
    + assert (Hs1 : nth_error (update_nth k (fun d => kill_snake d (gt + 2000)) ss) i
                    = Some s).
      { rewrite nth_error_update_nth, (proj2 (Nat.eqb_neq _ _) Hk). exact Hs. }
      exact (IH _ (os ++ dOrbs)%list st1 s Hrest Hs1).
Qed.

(** A snake in [toKill] ends dead. *)
Lemma resolve_deaths_dead (killers : Killers) (gt : R) (e : Env) (i : nat) :
  forall toKill ss os st,
  (i < List.length ss)%nat ->
  (In i toKill \/ exists s, nth_error ss i = Some s /\ alive s = false) ->
  exists s', nth_error (fst (fst (resolve_deaths toKill killers gt ss os e st))) i
             = Some s' /\ alive s' = false.
Proof.
  intro toKill; induction toKill as [|k rest IH]; intros ss os st Hlen Hin.
  - destruct Hin as [[]|H]; exact H.
  - rewrite resolve_deaths_step; cbv zeta.
    destruct (convertSnakeToOrbs _ e st) as [dOrbs st1].
    set (ss1 := match killers k with
                | Some j => update_nth j (credit_killer (nth k ss default_snake)) ss
                | None => ss
                end).
    assert (Hlen1 : List.length ss1 = List.length ss)
      by (unfold ss1; destruct (killers k); [apply length_update_nth|reflexivity]).
    apply IH.
    + rewrite length_update_nth, Hlen1; exact Hlen.
    + destruct (Nat.eqb k i) eqn:Eki.
      * right. apply Nat.eqb_eq in Eki; subst k.
        destruct (nth_error ss1 i) as [s1|] eqn:Hs1.
        -- exists (kill_snake s1 (gt + 2000)). split; [|reflexivity].
           rewrite nth_error_update_nth, Nat.eqb_refl, Hs1; reflexivity.
        -- apply nth_error_None in Hs1; lia.
      * destruct Hin as [[Hki|Hi]|[s [Hs Ha]]].
        -- apply Nat.eqb_neq in Eki; contradiction.
        -- left; exact Hi.
        -- right. rewrite nth_error_update_nth, Eki.
           unfold ss1; destruct (killers k) as [j|]; [|eauto].
           rewrite nth_error_update_nth, Hs.
           destruct (Nat.eqb j i); simpl; eauto.
Qed.

Lemma resolve_deaths_killed (killers : Killers) (gt : R) (e : Env) (i : nat) :
  forall toKill ss os st,
  (i < List.length ss)%nat ->
  (In i toKill \/ exists s, nth_error ss i = Some s /\ killed_at gt s) ->
  exists s', nth_error (fst (fst (resolve_deaths toKill killers gt ss os e st))) i
             = Some s' /\ killed_at gt s'.
Proof.
  intro toKill; induction toKill as [|k rest IH]; intros ss os st Hlen Hin.
  - destruct Hin as [[]|H]; exact H.
  - rewrite resolve_deaths_step; cbv zeta.
    destruct (convertSnakeToOrbs _ e st) as [dOrbs st1].
    set (ss1 := match killers k with
                | Some j => update_nth j (credit_killer (nth k ss default_snake)) ss
                | None => ss
                end).
    assert (Hlen1 : List.length ss1 = List.length ss)
      by (unfold ss1; destruct (killers k); [apply length_update_nth|reflexivity]).
    apply IH.
    + rewrite length_update_nth, Hlen1; exact Hlen.
    + destruct (Nat.eqb k i) eqn:Eki.
      * right. apply Nat.eqb_eq in Eki; subst k.
        destruct (nth_error ss1 i) as [s1|] eqn:Hs1.
        -- exists (kill_snake s1 (gt + 2000)).
           split; [|unfold killed_at; cbn; repeat split].
           rewrite nth_error_update_nth, Nat.eqb_refl, Hs1; reflexivity.
        -- apply nth_error_None in Hs1; lia.
      * destruct Hin as [[Hki|Hi]|[s [Hs Ha]]].
        -- apply Nat.eqb_neq in Eki; contradiction.
        -- left; exact Hi.
        -- right. rewrite nth_error_update_nth, Eki.
           unfold ss1; destruct (killers k) as [j|]; [|eauto].
           rewrite nth_error_update_nth, Hs.
           destruct (Nat.eqb j i); simpl; eauto.
Qed.

(** ** C5: grace immunity *)

Lemma dist2_lt (dx dy r : R) : 0 < r -> dx * dx + dy * dy < r * r -> dist2 dx dy < r.
Proof.
  intros Hr H. unfold dist2. rewrite <- (sqrt_square r) by lra.
  apply sqrt_lt_1; nra.
Qed.

Lemma eligible_grace (s : Snake) : 0 < graceTime s -> eligible s = false.
Proof.
  intro H; unfold eligible; rewrite (Rltb_true _ _ H).
  destruct (alive s); reflexivity.
Qed.

(** C5: a snake whose [graceTime] is positive when the collision scan
    runs is never put in [toKill], and [checkSnakeCollisions] leaves its
    [alive] flag as it was. *)
Theorem grace_never_killed (all : list Snake) (os : list Orb) (gt : R)
    (e : Env) (st : Store) (i : nat) (s : Snake) :
  nth_error all i = Some s -> 0 < graceTime s ->
  ~ In i (fst (collision_scan all)) /\
  exists s', nth_error (fst (fst (checkSnakeCollisions gt all os e st))) i = Some s'
             /\ alive s' = alive s.
Proof.
  intros Hs Hg.
  assert (Hn : ~ In i (fst (collision_scan all))).
  { intro Hi. destruct (collision_scan_inv all) as [Hk _].
    destruct (Hk _ Hi) as [K [HK EK]]. rewrite Hs in HK; injection HK as <-.
    rewrite eligible_grace in EK by exact Hg. discriminate. }
  split; [exact Hn|].
  unfold checkSnakeCollisions. destruct (collision_scan all) as [toKill killers].
  destruct (resolve_deaths_other killers gt e i toKill all os st s Hn Hs)
    as [s' [H1 H2]].
  exists s'; split; [exact H1|]. apply H2.
Qed.

Lemma grace_never_killed_witness :
  eligible grace_rival = true /\
  dist2 (x (head_of grace_rival) - x (head_of grace_snake))
        (y (head_of grace_rival) - y (head_of grace_snake)) < 15 /\
  (nth_error [grace_snake; grace_rival] 0 = Some grace_snake /\
   0 < graceTime grace_snake) /\
  (~ In 0%nat (fst (collision_scan [grace_snake; grace_rival])) /\
   exists s', nth_error (fst (fst (checkSnakeCollisions 60000
                                     [grace_snake; grace_rival] [] env0
                                     (mkStore 0 0 0)))) 0 = Some s'
              /\ alive s' = alive grace_snake).
Proof.
  split.
  { unfold eligible, grace_rival, has_segments; cbn [graceTime alive segments].
    rewrite Rltb_false by lra; reflexivity. }
  split.
  { cbn [head_of grace_rival grace_snake segments hd x y]. apply dist2_lt; lra. }
  split; [split; [reflexivity | simpl; lra]|].
  apply (grace_never_killed [grace_snake; grace_rival] [] 60000 env0
           (mkStore 0 0 0) 0 grace_snake).
  - reflexivity.
  - simpl; lra.
Defined.

(** ** Death to orbs *)

Lemma rng_value_range (z : Z) : 0 <= IZR (z mod 233280) / 233280 < 1.
Proof.
  destruct (Z.mod_pos_bound z 233280) as [H1 H2]; [lia|].
  apply IZR_le in H1. apply IZR_lt in H2. split.
  - unfold Rdiv; apply Rmult_le_pos; [exact H1 | lra].
  - apply (Rmult_lt_reg_r 233280); [lra|]. unfold Rdiv.
    rewrite Rmult_assoc, Rinv_l by lra. lra.
Qed.

Lemma jitter_bound (p z : R) (w : Z) :
  z = IZR (w mod 233280) / 233280 -> Rabs (p + (z - 0.5) * 10 - p) <= 5.
Proof.
  intros ->. destruct (rng_value_range w). apply Rabs_le; lra.
Qed.

(** Every medium death orb lies within 5 units, per coordinate, of one of
    the snake's segments. *)
Lemma segment_orbs_near (s : Snake) (step : nat) (e : Env) :
  forall fuel i st o,
  In o (fst (segment_orbs s step i fuel e st)) ->
  exists seg, In seg (segments s) /\
    Rabs (ox o - x seg) <= 5 /\ Rabs (oy o - y seg) <= 5.
Proof.
  intro fuel; induction fuel as [|f IH]; intros i st o Ho; [destruct Ho|].
  cbn [segment_orbs] in Ho.
  destruct (Nat.ltb i (List.length (segments s))) eqn:Hi; [|destruct Ho].
  unfold bind, ret, date_now_M, rng_next in Ho; cbn beta iota zeta in Ho.
  match type of Ho with
  | context [segment_orbs s step (i + step) f e ?st3] =>
      destruct (segment_orbs s step (i + step) f e st3) as [rest st4] eqn:Hr
  end.
  simpl in Ho. destruct Ho as [Ho|Ho].
  - subst o. apply Nat.ltb_lt in Hi.
    exists (nth i (segments s) origin). split; [apply nth_In; exact Hi|].
    simpl. split; eapply jitter_bound; reflexivity.
  - eapply IH. rewrite Hr. exact Ho.
Qed.

(** [convertSnakeToOrbs]: a large orb exactly at the head, then medium
    orbs near the segments. *)
Lemma convert_positions (s : Snake) (e : Env) (st : Store) (h : Position)
    (rest : list Position) :
  segments s = h :: rest ->
  exists ho os', fst (convertSnakeToOrbs s e st) = ho :: os' /\
    ox ho = x h /\ oy ho = y h /\ size ho = 3%Z /\ value ho = 9%Z /\
    ocolor ho = color s /\
    forall o, In o os' -> exists seg, In seg (segments s) /\
      Rabs (ox o - x seg) <= 5 /\ Rabs (oy o - y seg) <= 5.
Proof.
  intro Hs. unfold convertSnakeToOrbs. rewrite Hs.
  unfold bind, ret, date_now_M; cbn beta iota zeta.
  rewrite <- Hs.
  match goal with
  | |- context [segment_orbs s ?stp 1 ?n e ?st1] =>
      destruct (segment_orbs s stp 1 n e st1) as [os' st2] eqn:Hr
  end.
  simpl. eexists; eexists; split; [reflexivity|].
  repeat split; try reflexivity.
  intros o Ho. eapply segment_orbs_near. rewrite Hr. exact Ho.
Qed.

(** ** C6: head-to-head collisions *)

Lemma scan_pair_self (a : nat) (A D : Snake) acc : scan_pair a A a D acc = acc.
Proof. destruct acc; unfold scan_pair; rewrite Nat.eqb_refl; reflexivity. Qed.

Lemma scan_pair_head_on (a d : nat) (A D : Snake) (toKill : list nat)
    (killers : Killers) :
  a <> d -> eligible D = true ->
  dist2 (x (head_of D) - x (head_of A)) (y (head_of D) - y (head_of A)) < 15 ->
  scan_pair a A d D (toKill, killers) =
  (add_unique d (add_unique a toKill), killers).
Proof.
  intros Hne ED Hd. unfold scan_pair.
  rewrite (proj2 (Nat.eqb_neq d a) (not_eq_sym Hne)), ED; simpl.
  destruct (Rlt_dec _ _) as [H|_]; [unfold MAX_CHECK_DISTANCE in H; lra|].
  destruct (Rlt_dec _ _) as [_|H]; [reflexivity|lra].
Qed.

(** With a roster of exactly two eligible snakes meeting head to head,
    [checkSnakeCollisions] kills both, credits no kill, and appends the
    orbs of the first body and then those of the second. *)
Lemma two_snake_head_on (A B : Snake) (os : list Orb) (gt : R) (e : Env)
    (st : Store) :
  eligible A = true -> eligible B = true ->
  dist2 (x (head_of B) - x (head_of A)) (y (head_of B) - y (head_of A)) < 15 ->
  checkSnakeCollisions gt [A; B] os e st =
  let (oA, st1) := convertSnakeToOrbs A e st in
  let (oB, st2) := convertSnakeToOrbs B e st1 in
  (([kill_snake A (gt + 2000); kill_snake B (gt + 2000)], (os ++ oA ++ oB)%list), st2).
Proof.
  intros EA EB Hd.
  assert (Hd' : dist2 (x (head_of A) - x (head_of B)) (y (head_of A) - y (head_of B)) < 15)
    by (rewrite dist2_opp; exact Hd).
  assert (Hscan : collision_scan [A; B] = ([0; 1]%nat, fun _ => None)).
  { unfold collision_scan. cbn [scan_attackers scan_defenders]. rewrite EA, EB.
    rewrite (scan_pair_self 0 A A).
    rewrite (scan_pair_head_on 0 1 A B) by (auto || discriminate).
    rewrite (scan_pair_head_on 1 0 B A) by (auto || discriminate).
    rewrite (scan_pair_self 1 B B). reflexivity. }
  unfold checkSnakeCollisions. rewrite Hscan.
  rewrite resolve_deaths_step; cbn zeta. cbn [nth].
  destruct (convertSnakeToOrbs A e st) as [oA st1].
  rewrite resolve_deaths_step; cbn zeta. cbn [nth update_nth].
  destruct (convertSnakeToOrbs B e st1) as [oB st2].
  cbn [resolve_deaths update_nth ret]. rewrite app_assoc. reflexivity.
Qed.

Lemma headon_eligible : eligible headon_A = true /\ eligible headon_B = true.
Proof.
  unfold eligible, headon_A, headon_B, has_segments; cbn [graceTime alive segments].
  rewrite Rltb_false by lra. split; reflexivity.
Qed.

(** ** Heading update *)

Lemma floorZ_bounds (r : R) : IZR (floorZ r) <= r < IZR (floorZ r) + 1.
Proof. unfold floorZ; destruct (base_Int_part r); lra. Qed.

Lemma jsmod_shift (v m : R) : exists k : Z, jsmod v m = v + m * IZR k.
Proof. exists (- truncZ (v / m))%Z; unfold jsmod; rewrite opp_IZR; ring. Qed.

Lemma jsmod_bounds (v m : R) :
  0 < m -> - m < jsmod v m < m /\ (0 <= v -> 0 <= jsmod v m).
Proof.
  intros Hm. unfold jsmod, truncZ.
  assert (Hv : v = m * (v / m)) by (field; lra).
  set (q := v / m) in *.
  destruct (Rle_dec 0 q) as [Hq|Hq].
  - destruct (floorZ_bounds q) as [F1 F2].
    set (f := IZR (floorZ q)) in *. split; [split|intros _]; nra.
  - destruct (floorZ_bounds (- q)) as [F1 F2].
    rewrite opp_IZR. set (f := IZR (floorZ (- q))) in *.
    split; [split|intros Hv0]; nra.
Qed.

Lemma Rsign_cases (r : R) :
  (0 < r /\ Rsign r = 1) \/ (r < 0 /\ Rsign r = -1) \/ (r = 0 /\ Rsign r = 0).
Proof.
  unfold Rsign. destruct (Rlt_dec 0 r); [left; split; auto; lra|].
  destruct (Rlt_dec r 0); [right; left; split; auto; lra|].
  right; right; split; [lra|reflexivity].
Qed.

Lemma wrap_down_shift (n : nat) (d : R) :
  exists k : Z, wrap_down n d = d + 2 * PI * IZR k.
Proof.
  revert d; induction n as [|n IH]; intro d; cbn [wrap_down].
  - exists 0%Z; simpl; ring.
  - destruct (Rlt_dec PI d).
    + destruct (IH (d - 2 * PI)) as [k Hk]; exists (k - 1)%Z.
      rewrite Hk, minus_IZR; simpl; ring.
    + exists 0%Z; simpl; ring.
Qed.

Lemma wrap_up_shift (n : nat) (d : R) :
  exists k : Z, wrap_up n d = d + 2 * PI * IZR k.
Proof.
  revert d; induction n as [|n IH]; intro d; cbn [wrap_up].
  - exists 0%Z; simpl; ring.
  - destruct (Rlt_dec d (- PI)).
    + destruct (IH (d + 2 * PI)) as [k Hk]; exists (k + 1)%Z.
      rewrite Hk, plus_IZR; simpl; ring.
    + exists 0%Z; simpl; ring.
Qed.

Lemma wrap_down_le (n : nat) (d : R) :
  d - 2 * PI * INR n <= PI -> wrap_down n d <= PI.
Proof.
  revert d; induction n as [|n IH]; intros d H; cbn [wrap_down].
  - cbn [INR] in H; lra.
  - rewrite S_INR in H. destruct (Rlt_dec PI d).
    + apply IH; lra.
    + lra.
Qed.

Lemma wrap_up_bounds (n : nat) (d : R) :
  d <= PI -> - PI <= d + 2 * PI * INR n -> - PI <= wrap_up n d <= PI.
Proof.
  pose proof PI_RGT_0.
  revert d; induction n as [|n IH]; intros d H1 H2; cbn [wrap_up].
  - cbn [INR] in H2; lra.
  - rewrite S_INR in H2. destruct (Rlt_dec d (- PI)).
    + apply IH; lra.
    + lra.
Qed.

Lemma fuel_cover (d : R) : Rabs d <= 2 * PI * INR (wrap_fuel d).
Proof.
  pose proof PI_RGT_0 as Hpi. unfold wrap_fuel.
  set (r := Rabs d / (2 * PI)).
  assert (Hr : 0 <= r) by (unfold r, Rdiv; apply Rmult_le_pos; [apply Rabs_pos|left; apply Rinv_0_lt_compat; lra]).
  destruct (archimed r) as [A _].
  assert (Hup : (0 < up r)%Z) by (apply lt_0_IZR; lra).
  rewrite INR_IZR_INZ, Z2Nat.id by lia.
  replace (Rabs d) with (2 * PI * r) by (unfold r; field; lra).
  nra.
Qed.

Lemma dirDiff_bounds (a t : R) : - PI <= dirDiff_of a t <= PI.
Proof.
  pose proof PI_RGT_0. unfold dirDiff_of.
  set (d0 := t - a).
  assert (H1 : wrap_down (wrap_fuel d0) d0 <= PI).
  { apply wrap_down_le. pose proof (fuel_cover d0). pose proof (Rle_abs d0). lra. }
  set (d1 := wrap_down (wrap_fuel d0) d0) in *.
  apply wrap_up_bounds; [exact H1|].
  pose proof (fuel_cover d1). pose proof (Rle_abs (- d1)); rewrite Rabs_Ropp in *; lra.
Qed.

Lemma dirDiff_shift (a t : R) : exists k : Z, dirDiff_of a t = t - a + 2 * PI * IZR k.
Proof.
  unfold dirDiff_of.
  destruct (wrap_down_shift (wrap_fuel (t - a)) (t - a)) as [k1 H1].
  set (d1 := wrap_down (wrap_fuel (t - a)) (t - a)) in *.
  destruct (wrap_up_shift (wrap_fuel d1) d1) as [k2 H2].
  exists (k1 + k2)%Z. rewrite H2, H1, plus_IZR; ring.
Qed.

Lemma dirDiff_shortest (a t : R) : is_shortest (Rabs (dirDiff_of a t)) a t.
Proof.
  pose proof PI_RGT_0 as Hpi.
  destruct (dirDiff_shift a t) as [j Hj]. split.
  - exists j; now rewrite Hj.
  - intro k. pose proof (dirDiff_bounds a t) as B.
    set (dd := dirDiff_of a t) in *.
    replace (t - a + 2 * PI * IZR k) with (dd + 2 * PI * IZR (k - j))
      by (rewrite minus_IZR, Hj; ring).
    destruct (Z_lt_le_dec (k - j) 0) as [L|L];
      [|destruct (Z.eq_dec (k - j) 0) as [E|E]].
    + assert (IZR (k - j) <= -1) by (apply IZR_le; lia).
      set (m := IZR (k - j)) in *.
      rewrite (Rabs_left (dd + 2 * PI * m)) by nra.
      unfold Rabs; destruct (Rcase_abs dd); nra.
    + rewrite E; simpl. rewrite Rmult_0_r, Rplus_0_r; lra.
    + assert (1 <= IZR (k - j)) by (apply IZR_le; lia).
      set (m := IZR (k - j)) in *.
      rewrite (Rabs_right (dd + 2 * PI * m)) by nra.
      unfold Rabs; destruct (Rcase_abs dd); nra.
Qed.

Lemma is_shortest_unique (d1 d2 a b : R) :
  is_shortest d1 a b -> is_shortest d2 a b -> d1 = d2.
Proof.
  intros [[k1 E1] M1] [[k2 E2] M2].
  specialize (M1 k2); specialize (M2 k1). lra.
Qed.

Lemma turn_spec (a t dt : R) :
  0 <= turn a t dt < 2 * PI /\
  exists k : Z,
    turn a t dt =
      (if Rlt_dec (TURN_SPEED * dt) (Rabs (dirDiff_of a t))
       then a + Rsign (dirDiff_of a t) * (TURN_SPEED * dt) else t)
      + 2 * PI * IZR k.
Proof.
  pose proof PI_RGT_0 as Hpi. unfold turn.
  set (dir1 := if Rlt_dec (TURN_SPEED * dt) (Rabs (dirDiff_of a t))
               then a + Rsign (dirDiff_of a t) * (TURN_SPEED * dt) else t).
  assert (Hm : 0 < 2 * PI) by lra.
  destruct (jsmod_bounds dir1 _ Hm) as [[B1 B2] _].
  destruct (jsmod_bounds (jsmod dir1 (2 * PI) + 2 * PI) _ Hm) as [[C1 C2] C3].
  split; [split; [apply C3; lra|exact C2]|].
  destruct (jsmod_shift dir1 (2 * PI)) as [k1 K1].
  destruct (jsmod_shift (jsmod dir1 (2 * PI) + 2 * PI) (2 * PI)) as [k2 K2].
  exists (k1 + 1 + k2)%Z. rewrite K2, K1, !plus_IZR; simpl; ring.
Qed.

Lemma updateSnake_direction (s s' : Snake) (d : R) :
  updateSnake s d = Some s' ->
  direction s' = turn (direction s) (targetDirection s) (d / 1000).
Proof.
  unfold updateSnake; destruct (segments s); [discriminate|].
  intro H; injection H as <-; reflexivity.
Qed.

(** C7 (amended).  One movement update with [deltaMs >= 0] and
    [dt = deltaMs / 1000] seconds: (1) the shortest angular distance
    between the heading before and after is at most [TURN_SPEED * dt];
    (2) when the shortest angular distance to the target is within that
    bound, the new heading is the target up to a multiple of [2 pi],
    normalised into [[0, 2 pi)]; (3) otherwise the heading turns by
    exactly [TURN_SPEED * dt] toward the target along the shorter path,
    without passing it. *)
Theorem turn_rate_bounded (s s' : Snake) (deltaMs : R) :
  updateSnake s deltaMs = Some s' -> 0 <= deltaMs ->
  let dt := deltaMs / 1000 in
  let a := direction s in
  let t := targetDirection s in
  let a' := direction s' in
  (exists k : Z, Rabs (a' - a + 2 * PI * IZR k) <= TURN_SPEED * dt) /\
  (forall delta, is_shortest delta a t -> delta <= TURN_SPEED * dt ->
     (exists k : Z, a' = t + 2 * PI * IZR k) /\ 0 <= a' < 2 * PI) /\
  (forall delta, is_shortest delta a t -> TURN_SPEED * dt < delta ->
     exists k : Z, Rabs (t - a' + 2 * PI * IZR k) = delta - TURN_SPEED * dt).
Proof.
  intros Hu Hd dt a t a'.
  assert (Ha' : a' = turn a t dt) by exact (updateSnake_direction _ _ _ Hu).
  assert (Hmt : 0 <= TURN_SPEED * dt) by (unfold dt, TURN_SPEED; lra).
  destruct (turn_spec a t dt) as [R1 [k Hk]]. rewrite <- Ha' in R1, Hk.
  destruct (dirDiff_shift a t) as [j Hj].
  pose proof (dirDiff_shortest a t) as Hs.
  set (dd := dirDiff_of a t) in *. set (mt := TURN_SPEED * dt) in *.
  split; [|split].
  - destruct (Rlt_dec mt (Rabs dd)) as [L|L].
    + exists (- k)%Z. rewrite Hk, opp_IZR.
      replace (a + Rsign dd * mt + 2 * PI * IZR k - a + 2 * PI * - IZR k)
        with (Rsign dd * mt) by ring.
      destruct (Rsign_cases dd) as [[_ ->]|[[_ ->]|[E _]]].
      * rewrite Rmult_1_l, Rabs_right; lra.
      * rewrite Rabs_left1; lra.
      * rewrite E, Rabs_R0 in L; lra.
    + exists (j - k)%Z. rewrite Hk, minus_IZR.
      replace (t + 2 * PI * IZR k - a + 2 * PI * (IZR j - IZR k))
        with (t - a + 2 * PI * IZR j) by ring.
      rewrite <- Hj; lra.
  - intros delta Hdelta Hle.
    rewrite (is_shortest_unique _ _ _ _ Hdelta Hs) in Hle.
    destruct (Rlt_dec mt (Rabs dd)) as [L|L]; [lra|].
    split; [exists k; exact Hk|exact R1].
  - intros delta Hdelta Hlt.
    rewrite (is_shortest_unique _ _ _ _ Hdelta Hs) in Hlt |- *.
    destruct (Rlt_dec mt (Rabs dd)) as [L|L]; [|lra].
    exists (j + k)%Z. rewrite Hk, plus_IZR.
    replace (t - (a + Rsign dd * mt + 2 * PI * IZR k) + 2 * PI * (IZR j + IZR k))
      with (dd - Rsign dd * mt) by (rewrite Hj; ring).
    destruct (Rsign_cases dd) as [[P ->]|[[P ->]|[E _]]].
    + rewrite (Rabs_right dd) in * by lra. rewrite Rabs_right by lra. lra.
    + rewrite (Rabs_left dd) in * by lra. rewrite Rabs_left by lra. lra.
    + rewrite E, Rabs_R0 in L; lra.
Qed.

Lemma turn_rate_bounded_witness :
  exists s', updateSnake turn_snake 100 = Some s' /\ 0 <= 100 /\
  let dt := 100 / 1000 in
  let a := direction turn_snake in
  let t := targetDirection turn_snake in
  let a' := direction s' in
  (exists k : Z, Rabs (a' - a + 2 * PI * IZR k) <= TURN_SPEED * dt) /\
  (forall delta, is_shortest delta a t -> delta <= TURN_SPEED * dt ->
     (exists k : Z, a' = t + 2 * PI * IZR k) /\ 0 <= a' < 2 * PI) /\
  (forall delta, is_shortest delta a t -> TURN_SPEED * dt < delta ->
     exists k : Z, Rabs (t - a' + 2 * PI * IZR k) = delta - TURN_SPEED * dt).
Proof.
  eexists; split; [reflexivity|split; [lra|]].
  apply (turn_rate_bounded turn_snake); [reflexivity|lra].
Defined.

(** C7 counterexample: heading [0], target [-0.1] (a value [Math.atan2]
    returns), [deltaMs = 100].  The shortest angular distance [0.1] is
    within [TURN_SPEED * 0.1 = 0.3], yet the new heading is the
    normalised [2 pi - 0.1], not [targetDirection]. *)
Lemma turn_not_exact_counterexample :
  exists s', updateSnake turn_snake 100 = Some s' /\
  is_shortest 0.1 (direction turn_snake) (targetDirection turn_snake) /\
  0.1 <= TURN_SPEED * (100 / 1000) /\
  direction s' <> targetDirection turn_snake.
Proof.
  pose proof PI2_1 as Hpi.
  eexists; split; [reflexivity|].
  cbn [direction targetDirection turn_snake]. split; [|split].
  - split.
    + exists 0%Z. rewrite Rmult_0_r, Rplus_0_r, Rabs_left by lra. lra.
    + intro k. destruct (Z_lt_le_dec k 0) as [L|L];
        [|destruct (Z.eq_dec k 0) as [E|E]].
      * assert (IZR k <= -1) by (apply IZR_le; lia).
        rewrite Rabs_left by nra. nra.
      * rewrite E, Rmult_0_r, Rplus_0_r, Rabs_left by lra. lra.
      * assert (1 <= IZR k) by (apply IZR_le; lia).
        rewrite Rabs_right by nra. nra.
  - unfold TURN_SPEED; lra.
  - destruct (turn_spec 0 (-0.1) (100 / 1000)) as [[R1 _] _].
    intro E; rewrite E in R1; lra.
Qed.

(** ** Segment reconciliation *)

Lemma grow_length (fuel : nat) (T : Z) (segs : list Position) :
  (T <= Z.of_nat (List.length segs) + Z.of_nat fuel)%Z ->
  Z.of_nat (List.length (grow fuel T segs)) = Z.max (Z.of_nat (List.length segs)) T.
Proof.
  revert segs; induction fuel as [|f IH]; intros segs H; cbn [grow].
  - lia.
  - destruct (Z.ltb_spec (Z.of_nat (List.length segs)) T) as [L|L].
    + rewrite IH; rewrite length_app; cbn [List.length]; lia.
    + lia.
Qed.

Lemma reconcile_length (segs : list Position) (T : Z) :
  (0 <= T)%Z ->
  let n := Z.of_nat (List.length (reconcile segs T)) in
  (T <= n <= T + 2)%Z /\ (Z.of_nat (List.length segs) <= n \/ n = T + 1)%Z.
Proof.
  intros HT n. unfold n, reconcile.
  assert (G := grow_length (Z.to_nat T) T segs ltac:(lia)).
  set (g := grow (Z.to_nat T) T segs) in *.
  destruct (Z.ltb_spec (T + 2) (Z.of_nat (List.length g))) as [L|L].
  - rewrite length_firstn. lia.
  - lia.
Qed.

Lemma floorZ_nonneg (r : R) : 0 <= r -> (0 <= floorZ r)%Z.
Proof.
  intro H. destruct (floorZ_bounds r) as [_ B].
  assert (-1 < IZR (floorZ r)) by lra.
  apply lt_IZR in H0. lia.
Qed.

Lemma floorZ_eq (r : R) (z : Z) : IZR z <= r < IZR z + 1 -> floorZ r = z.
Proof.
  intros [H1 H2]. destruct (floorZ_bounds r) as [F1 F2].
  assert (A : IZR (floorZ r) < IZR (z + 1)) by (rewrite plus_IZR; simpl; lra).
  assert (B : IZR z < IZR (floorZ r + 1)) by (rewrite plus_IZR; simpl; lra).
  apply lt_IZR in A; apply lt_IZR in B. lia.
Qed.

(** Right after the movement update of a snake with a nonnegative
    [length], its segment count [n] satisfies [T <= n <= T + 2] with
    [T = floor(length / SEGMENT_SIZE)], and [n >= 1]; the update leaves
    [length] unchanged. *)
Lemma updateSnake_reconciled (s s' : Snake) (deltaMs : R) :
  updateSnake s deltaMs = Some s' -> 0 <= length s ->
  let T := floorZ (length s / SEGMENT_SIZE) in
  let n := Z.of_nat (List.length (segments s')) in
  (1 <= n)%Z /\ (T <= n <= T + 2)%Z /\ length s' = length s.
Proof.
  intros Hu Hl T n.
  assert (HT : (0 <= T)%Z).
  { apply floorZ_nonneg. unfold SEGMENT_SIZE, Rdiv.
    apply Rmult_le_pos; [exact Hl|left; apply Rinv_0_lt_compat; lra]. }
  unfold updateSnake in Hu. destruct (segments s) as [|head rest] eqn:Hs;
    [discriminate|].
  injection Hu as <-. unfold n; cbn [segments length].
  fold T.
  set (newHead := mkPos _ _).
  destruct (reconcile_length (newHead :: chase newHead rest) T HT)
    as [B1 B2].
  cbn [List.length] in B2.
  split; [|split; [exact B1|reflexivity]]. lia.
Qed.

Lemma Rleb_false (a b : R) : b < a -> Rleb a b = false.
Proof. intro H; unfold Rleb; destruct (Rle_dec a b); [lra | reflexivity]. Qed.

Lemma chase_length (t : Position) (r : list Position) :
  List.length (chase t r) = List.length r.
Proof.
  revert t; induction r as [|c r IH]; intro t; cbn [chase List.length]; [reflexivity|].
  rewrite IH; reflexivity.
Qed.

Lemma grow_noop (fuel : nat) (T : Z) (segs : list Position) :
  (T <= Z.of_nat (List.length segs))%Z -> grow fuel T segs = segs.
Proof.
  intro H; destruct fuel; cbn [grow]; [reflexivity|].
  destruct (Z.ltb_spec (Z.of_nat (List.length segs)) T); [lia|reflexivity].
Qed.

Lemma reconcile_keep (segs : list Position) (T : Z) :
  (T <= Z.of_nat (List.length segs) <= T + 2)%Z -> reconcile segs T = segs.
Proof.
  intro H; unfold reconcile. rewrite grow_noop by lia.
  destruct (Z.ltb_spec (T + 2) (Z.of_nat (List.length segs))); [lia|reflexivity].
Qed.

Lemma updateSnake_facts (s s' : Snake) (d : R) :
  updateSnake s d = Some s' ->
  alive s' = alive s /\ length s' = length s /\
  exists h t, List.length (h :: chase h t) = List.length (segments s) /\
    segments s' = reconcile (h :: chase h t) (floorZ (length s / SEGMENT_SIZE)).
Proof.
  unfold updateSnake; destruct (segments s) as [|hd0 rest]; [discriminate|].
  intro H; injection H as <-. cbn [alive length segments].
  split; [reflexivity|split; [reflexivity|]].
  eexists; exists rest; split; [|reflexivity].
  cbn [List.length]; rewrite chase_length; reflexivity.
Qed.

(** Player 1, fresh from [createSnake] (seven segments, length 50),
    boosts (length 45), then one [processTick] of 100 ms.  Afterwards it
    is alive with seven segments while [floor(45 / SEGMENT_SIZE) = 5]:
    the count is [T + 2]. *)
Lemma boost_tick_count :
  exists st', fst (processTick (apply_input boost_state (BoostReq "0xA")) 100 env0 (mkStore 0 0 0)) = Some st' /\ alive (player1 st') = true /\ List.length (segments (player1 st')) = 7%nat /\ floorZ (length (player1 st') / SEGMENT_SIZE) = 5%Z.
Proof.
  assert (A : apply_input boost_state (BoostReq "0xA") =
     with_players boost_state (with_length_boost boost_p1 45 BOOST_DURATION_MS) boost_p2).
  { unfold apply_input, apply_to_player.
    replace (String.eqb (address (player1 boost_state)) "0xA" && alive (player1 boost_state))
      with true by reflexivity.
    cbn beta iota. unfold startBoost.
    rewrite (Rltb_false 0 (boostTime _)) by (unfold boost_state, boost_p1; cbn; lra).
    rewrite (Rltb_false (length _)) by (unfold boost_state, boost_p1; cbn; lra).
    cbn [orb].
    replace (length (player1 boost_state) - Rmax 5 (length (player1 boost_state) * BOOST_LENGTH_COST)) with 45
      by (unfold boost_state, boost_p1, BOOST_LENGTH_COST; cbn; rewrite Rmax_left; lra).
    reflexivity. }
  rewrite A. clear A.
  unfold processTick.
  replace (Rmin (Rmax 100 0) 100) with 100 by (rewrite Rmax_left, Rmin_left; lra).
  cbn [with_players boost_state gameTime].
  rewrite (Rleb_false MATCH_DURATION_MS) by (unfold MATCH_DURATION_MS; lra).
  cbn [andb].
  unfold getAllSnakes, respawn_phase, bind, ret.
  cbn [player1 player2 aiSnakes with_players boost_state alive boost_p2 with_length_boost boost_p1 negb andb respawnTime].
  rewrite (Rleb_false 1000000) by lra.
  cbn beta iota zeta.
  unfold ai_phase, ai_roster_phase, bind, ret.
  replace ((String.eqb (address boost_p2) "BOT" || String.prefix "AI_" (address boost_p2)) && alive boost_p2) with false by reflexivity.
  cbn beta iota zeta.
  unfold move_phase. cbn [alive with_length_boost boost_p1 boost_p2].
  destruct (updateSnake _ 100) as [s'|] eqn:Hu.
  2:{ unfold updateSnake in Hu; cbn [segments with_length_boost boost_p1] in Hu; discriminate. }
  destruct (updateSnake_facts _ _ _ Hu) as [Ha [Hl [h [t [Hlen Hs]]]]].
  cbn [alive length segments with_length_boost boost_p1 List.length] in Ha, Hl, Hlen, Hs.
  rewrite (floorZ_eq (45 / SEGMENT_SIZE) 5) in Hs by (unfold SEGMENT_SIZE; lra).
  rewrite reconcile_keep in Hs by (cbn [List.length]; rewrite Hlen; lia).
  cbn [checkOrbCollisions boost_p2 alive with_players boost_state orbs].
  rewrite Ha, Hs. cbn [eat].
  assert (C : collision_scan [s'; boost_p2] = ([], fun _ => None)).
  { unfold collision_scan; cbn [scan_attackers]. destruct (eligible s'); reflexivity. }
  unfold checkSnakeCollisions; rewrite C. cbn [resolve_deaths ret].
  rewrite (Rltb_false ORB_SPAWN_RATE)
    by (unfold ORB_SPAWN_RATE, with_players, boost_state; cbn; lra).
  cbn [andb]. eexists; split; [reflexivity|].
  cbn [player1 nth]. rewrite Ha, Hl, Hs.
  split; [reflexivity|split; [exact Hlen|]].
  apply floorZ_eq; unfold SEGMENT_SIZE; lra.
Qed.

(** ** Score and kills across a tick *)

Lemma grows_refl (S : Snake) : grows S S.
Proof. unfold grows; repeat split; lia. Qed.

Lemma grows_trans (S1 S2 S3 : Snake) : grows S1 S2 -> grows S2 S3 -> grows S1 S3.
Proof. unfold grows; intros [A1 [B1 C1]] [A2 [B2 C2]]; repeat split; congruence || lia. Qed.

Lemma Forall2_grows_refl (l : list Snake) : Forall2 grows l l.
Proof. induction l; constructor; auto using grows_refl. Qed.

Lemma Forall2_grows_trans (l1 l2 l3 : list Snake) :
  Forall2 grows l1 l2 -> Forall2 grows l2 l3 -> Forall2 grows l1 l3.
Proof.
  intro H; revert l3; induction H as [|a b l1 l2 Hab H IH]; intros l3 H3;
    inversion H3; subst; constructor; eauto using grows_trans.
Qed.

Lemma Forall2_grows_nth_error (l l' : list Snake) (i : nat) (S : Snake) :
  Forall2 grows l l' -> nth_error l i = Some S ->
  exists S', nth_error l' i = Some S' /\ grows S S'.
Proof.
  intro H; revert i; induction H as [|a b l l' Hab H IH]; intros i Hi;
    [destruct i; discriminate|].
  destruct i as [|i]; cbn in Hi |- *; [injection Hi as <-; eauto|eauto].
Qed.

Lemma update_nth_grows (k : nat) (f : Snake -> Snake) (l : list Snake) :
  (forall S, grows S (f S)) -> Forall2 grows l (update_nth k f l).
Proof.
  intro Hf; revert k; induction l as [|a l IH]; intro k; [destruct k; constructor|].
  destruct k; cbn [update_nth]; constructor; auto using grows_refl, Forall2_grows_refl.
Qed.

Lemma startBoost_grows (S : Snake) : grows S (startBoost S).
Proof.
  unfold startBoost; destruct (_ || _); [apply grows_refl|].
  unfold grows; cbn; repeat split; lia.
Qed.

Lemma updateAIDirection_grows (i : nat) (all : list Snake) (os : list Orb)
    (ai : Snake) (e : Env) (st : Store) :
  grows ai (fst (updateAIDirection i all os ai e st)).
Proof.
  unfold updateAIDirection.
  destruct (alive ai); [|apply grows_refl].
  destruct (segments ai); [apply grows_refl|].
  unfold bind, ret; cbn zeta.
  match goal with |- context [with_target ai ?t] => set (ai' := with_target ai t) end.
  assert (G : grows ai ai') by (unfold grows; cbn; repeat split; lia).
  destruct (Reqb (boostTime ai') 0); [|exact G].
  destruct (rng_next e st) as [r st1]. cbn [fst].
  destruct (Rltb r 0.01); [|exact G].
  exact (grows_trans _ _ _ G (startBoost_grows ai')).
Qed.

Lemma respawnSnake_grows (S : Snake) (e : Env) (st : Store) :
  grows S (fst (respawnSnake S e st)).
Proof.
  unfold respawnSnake, bind, ret.
  destruct (rng_next e st) as [rx s1]; destruct (rng_next e s1) as [ry s2];
    destruct (rng_next e s2) as [rd s3].
  unfold grows; cbn; repeat split; lia.
Qed.

Lemma respawn_phase_grows (gt : R) (ss : list Snake) (e : Env) (st : Store) :
  Forall2 grows ss (fst (respawn_phase gt ss e st)).
Proof.
  revert st; induction ss as [|S ss IH]; intro st; cbn [respawn_phase]; [constructor|].
  unfold bind.
  destruct ((if negb (alive S) && Rleb (respawnTime S) gt then respawnSnake S
             else ret S) e st) as [S' st1] eqn:E1.
  destruct (respawn_phase gt ss e st1) as [rest st2] eqn:E2.
  unfold ret; cbn [fst]. constructor.
  - destruct (negb (alive S) && Rleb (respawnTime S) gt).
    + pose proof (respawnSnake_grows S e st) as G; rewrite E1 in G; exact G.
    + unfold ret in E1; injection E1 as <- _; apply grows_refl.
  - specialize (IH st1); rewrite E2 in IH; exact IH.
Qed.

Lemma ai_roster_phase_grows (i : nat) (all : list Snake) (os : list Orb)
    (ais : list Snake) (e : Env) (st : Store) :
  Forall2 grows ais (fst (ai_roster_phase i all os ais e st)).
Proof.
  revert i st; induction ais as [|a ais IH]; intros i st; cbn [ai_roster_phase];
    [constructor|].
  unfold bind.
  destruct ((if alive a then updateAIDirection i all os a else ret a) e st)
    as [a' st1] eqn:E1.
  destruct (ai_roster_phase (S i) all os ais e st1) as [rest st2] eqn:E2.
  unfold ret; cbn [fst]. constructor.
  - destruct (alive a).
    + pose proof (updateAIDirection_grows i all os a e st) as G; rewrite E1 in G; exact G.
    + unfold ret in E1; injection E1 as <- _; apply grows_refl.
  - specialize (IH (S i) st1); rewrite E2 in IH; exact IH.
Qed.

Lemma ai_phase_grows (all : list Snake) (os : list Orb) (e : Env) (st : Store) :
  Forall2 grows all (fst (ai_phase all os e st)).
Proof.
  unfold ai_phase. destruct all as [|p1 [|p2 ais]]; try apply Forall2_grows_refl.
  unfold bind.
  set (b := (String.eqb (address p2) "BOT" || String.prefix "AI_" (address p2))
            && alive p2).
  set (c := if b then updateAIDirection 1 (p1 :: p2 :: ais) os p2 else ret p2).
  destruct (c e st) as [p2' st1] eqn:E1.
  destruct (ai_roster_phase 2 (p1 :: p2 :: ais) os ais e st1) as [ais' st2] eqn:E2.
  unfold ret; cbn [fst]. constructor; [apply grows_refl|constructor].
  - unfold c in E1. destruct b.
    + pose proof (updateAIDirection_grows 1 (p1 :: p2 :: ais) os p2 e st) as G;
        rewrite E1 in G; exact G.
    + unfold ret in E1; injection E1 as <- _; apply grows_refl.
  - pose proof (ai_roster_phase_grows 2 (p1 :: p2 :: ais) os ais e st1) as G;
      rewrite E2 in G; exact G.
Qed.

Lemma updateSnake_grows (S S' : Snake) (d : R) :
  updateSnake S d = Some S' -> grows S S'.
Proof.
  unfold updateSnake; destruct (segments S); [discriminate|].
  intro H; injection H as <-. unfold grows; cbn; repeat split; lia.
Qed.

Lemma move_phase_grows (d : R) (ss ss' : list Snake) :
  move_phase d ss = Some ss' -> Forall2 grows ss ss'.
Proof.
  revert ss'; induction ss as [|S ss IH]; intros ss' H; cbn [move_phase] in H.
  - injection H as <-; constructor.
  - destruct (if alive S then updateSnake S d else Some S) as [S'|] eqn:E1;
      [|discriminate].
    destruct (move_phase d ss) as [rest|] eqn:E2; [|discriminate].
    injection H as <-. constructor; [|auto].
    destruct (alive S); [eauto using updateSnake_grows|].
    injection E1 as <-; apply grows_refl.
Qed.

Lemma eat_grows (head : Position) (os : list Orb) (S : Snake) :
  grows S (fst (eat head os S)).
Proof.
  induction os as [|o os IH]; cbn [eat]; [apply grows_refl|].
  destruct (eat head os S) as [S1 kept]. cbn [fst] in IH.
  destruct (Rlt_dec _ _); [|exact IH].
  apply (grows_trans _ _ _ IH). unfold grows; cbn; unfold ORB_SCORE_INCREMENT;
    repeat split; lia.
Qed.

Lemma checkOrbCollisions_grows (ss : list Snake) (os : list Orb) :
  Forall2 grows ss (fst (checkOrbCollisions ss os)).
Proof.
  revert os; induction ss as [|S ss IH]; intro os; cbn [checkOrbCollisions];
    [constructor|].
  destruct (match alive S, segments S with
            | true, head :: _ => eat head os S
            | _, _ => (S, os)
            end) as [S' os1] eqn:E1.
  specialize (IH os1). destruct (checkOrbCollisions ss os1) as [ss'' os2].
  cbn [fst] in IH |- *. constructor; [|exact IH].
  destruct (alive S); [destruct (segments S) as [|h t]|];
    try (injection E1 as <- _; apply grows_refl).
  pose proof (eat_grows h os S) as G; rewrite E1 in G; exact G.
Qed.

Lemma resolve_deaths_grows (toKill : list nat) (killers : Killers) (gt : R)
    (ss : list Snake) (os : list Orb) (e : Env) (st : Store) :
  Forall2 grows ss (fst (fst (resolve_deaths toKill killers gt ss os e st))).
Proof.
  revert ss os st; induction toKill as [|k rest IH]; intros ss os st;
    [apply Forall2_grows_refl|].
  rewrite resolve_deaths_step; cbv zeta.
  destruct (convertSnakeToOrbs (nth k ss default_snake) e st) as [dOrbs st1].
  set (ss1 := match killers k with
              | Some j => update_nth j (credit_killer (nth k ss default_snake)) ss
              | None => ss
              end).
  assert (G1 : Forall2 grows ss ss1).
  { unfold ss1; destruct (killers k); [|apply Forall2_grows_refl].
    apply update_nth_grows; intro S; unfold grows; cbn; repeat split; lia. }
  assert (G2 : Forall2 grows ss1 (update_nth k (fun d => kill_snake d (gt + 2000)) ss1)).
  { apply update_nth_grows; intro S; unfold grows; cbn; repeat split; lia. }
  exact (Forall2_grows_trans _ _ _ (Forall2_grows_trans _ _ _ G1 G2) (IH _ _ _)).
Qed.

Lemma checkSnakeCollisions_grows (gt : R) (all : list Snake) (os : list Orb)
    (e : Env) (st : Store) :
  Forall2 grows all (fst (fst (checkSnakeCollisions gt all os e st))).
Proof.
  unfold checkSnakeCollisions. destruct (collision_scan all).
  apply resolve_deaths_grows.
Qed.

Lemma Forall2_getAllSnakes (st : GameState) (all5 : list Snake) :
  Forall2 grows (getAllSnakes st) all5 ->
  nth 0 all5 (player1 st) :: nth 1 all5 (player2 st) :: skipn 2 all5 = all5.
Proof.
  unfold getAllSnakes; intro H.
  inversion H as [|a b l l' _ H2]; subst.
  inversion H2; subst. reflexivity.
Qed.

Lemma rng_next_range (e : Env) (s : Store) : 0 <= fst (rng_next e s) < 1.
Proof. unfold rng_next; cbn [fst]. apply rng_value_range. Qed.

(** C10 (amended).  Across one [processTick] every snake of the match
    (player 1, player 2, then the AI roster, by position) keeps its
    address and its [score] and [kills] do not decrease.  Death keeps
    [score], [kills] and [length] and clears [alive], [segments] and
    [boostTime] and sets [respawnTime]; the collision resolver at game
    time [gt] leaves every snake it kills dead, without segments, with
    [boostTime = 0] and [respawnTime = gt + 2000].  Respawn keeps [score],
    [kills] and the address, resets [length] to [INITIAL_LENGTH], makes
    the snake alive with speed [BASE_SPEED * 1.5], [graceTime =
    RESPAWN_GRACE_MS] and [boostTime = 0], draws a new direction in
    [[0, 2 pi)] (also the target direction) and lays a new body from a
    spawn point in [[200, 2800)] on both axes. *)
Theorem score_kills_monotone (st st' : GameState) (dms : R) (e : Env)
    (s s' : Store) :
  processTick st dms e s = (Some st', s') ->
  (forall i S, nth_error (getAllSnakes st) i = Some S ->
     exists S', nth_error (getAllSnakes st') i = Some S' /\
       address S' = address S /\ (score S <= score S')%Z /\
       (kills S <= kills S')%Z) /\
  (forall S rt, let D := kill_snake S rt in
     score D = score S /\ kills D = kills S /\ alive D = false /\
     segments D = [] /\ boostTime D = 0 /\ length D = length S /\
     respawnTime D = rt) /\
  (forall toKill killers gt ss os e0 s0 k,
     In k toKill -> (k < List.length ss)%nat ->
     exists D, nth_error (fst (fst (resolve_deaths toKill killers gt ss os e0 s0))) k
                 = Some D /\
       alive D = false /\ segments D = [] /\ boostTime D = 0 /\
       respawnTime D = gt + 2000) /\
  (forall S e0 s0, let S' := fst (respawnSnake S e0 s0) in
     score S' = score S /\ kills S' = kills S /\ address S' = address S /\
     alive S' = true /\ length S' = INITIAL_LENGTH /\
     speed S' = BASE_SPEED * 1.5 /\ graceTime S' = RESPAWN_GRACE_MS /\
     boostTime S' = 0 /\ targetDirection S' = direction S' /\
     0 <= direction S' < 2 * PI /\
     exists px py, 200 <= px < ARENA_WIDTH - 200 /\ 200 <= py < ARENA_HEIGHT - 200 /\
       segments S' = body_from px py (direction S')).
Proof.
  intro H. split; [|split; [|split]].
  - intros i S Hi.
    enough (G : Forall2 grows (getAllSnakes st) (getAllSnakes st')).
    { destruct (Forall2_grows_nth_error _ _ _ _ G Hi) as [S' [H1 [A [B C]]]].
      exists S'; auto. }
    revert H. unfold processTick; cbv zeta.
    destruct (_ && _).
    { unfold ret; intro H; injection H as <- _. apply Forall2_grows_refl. }
    unfold bind.
    destruct (respawn_phase _ (getAllSnakes st) e s) as [all1 s1] eqn:E1.
    destruct (ai_phase all1 (orbs st) e s1) as [all2 s2] eqn:E2.
    destruct (move_phase _ all2) as [all3|] eqn:E3;
      [|unfold ret; intro H; discriminate].
    destruct (checkOrbCollisions all3 (orbs st)) as [all4 os4] eqn:E4.
    destruct (checkSnakeCollisions _ all4 os4 e s2) as [[all5 os5] s5] eqn:E5.
    pose proof (respawn_phase_grows (gameTime st + Rmin (Rmax dms 0) 100)
                  (getAllSnakes st) e s) as G1; rewrite E1 in G1.
    pose proof (ai_phase_grows all1 (orbs st) e s1) as G2; rewrite E2 in G2.
    pose proof (move_phase_grows _ _ _ E3) as G3.
    pose proof (checkOrbCollisions_grows all3 (orbs st)) as G4; rewrite E4 in G4.
    pose proof (checkSnakeCollisions_grows (gameTime st + Rmin (Rmax dms 0) 100)
                  all4 os4 e s2) as G5; rewrite E5 in G5.
    assert (G : Forall2 grows (getAllSnakes st) all5).
    { eapply Forall2_grows_trans; [exact G1|].
      eapply Forall2_grows_trans; [exact G2|].
      eapply Forall2_grows_trans; [exact G3|].
      eapply Forall2_grows_trans; [exact G4|exact G5]. }
    match goal with |- context [if ?b then _ else _] => destruct b end;
      [destruct (spawnOrb e s5) as [o s6]|];
      intro H; unfold ret in H; cbn beta iota in H; injection H as <- _;
      match goal with
      | |- Forall2 grows _ (getAllSnakes ?st2) =>
          replace (getAllSnakes st2) with all5;
            [exact G|symmetry; exact (Forall2_getAllSnakes _ _ G)]
      end.
  - intros S rt; cbn; repeat split.
  - intros toKill killers gt ss os e0 s0 k Hk Hlen.
    destruct (resolve_deaths_killed killers gt e0 k toKill ss os s0 Hlen (or_introl Hk))
      as [D [HD [A1 [A2 [A3 A4]]]]].
    exists D; repeat split; assumption.
  - intros S e0 s0; unfold respawnSnake, bind, ret.
    pose proof (rng_next_range e0 s0) as Rx.
    destruct (rng_next e0 s0) as [rx s1]; pose proof (rng_next_range e0 s1) as Ry.
    destruct (rng_next e0 s1) as [ry s2]; pose proof (rng_next_range e0 s2) as Rd.
    destruct (rng_next e0 s2) as [rd s3].
    cbn [fst] in *; cbn [score kills address alive length speed graceTime boostTime
                         targetDirection direction segments].
    pose proof PI_RGT_0.
    repeat split; try reflexivity; try nra.
    exists (200 + rx * (ARENA_WIDTH - 400)), (200 + ry * (ARENA_HEIGHT - 400)).
    unfold ARENA_WIDTH, ARENA_HEIGHT; repeat split; try nra; reflexivity.
Qed.

(** C10 counterexample: a snake of length 80 dies head to head; after the
    collision resolver it is dead with no segment, but its [length] is
    still 80, not reset. *)
Lemma death_keeps_length_counterexample :
  exists D,
    nth_error (fst (fst (checkSnakeCollisions 60000 [headon_long_A; headon_B] []
                           env0 (mkStore 0 0 0)))) 0 = Some D /\
    alive D = false /\ segments D = [] /\ length D = 80 /\
    length D <> INITIAL_LENGTH.
Proof.
  assert (EA : eligible headon_long_A = true).
  { unfold eligible, headon_long_A, has_segments; cbn [graceTime alive segments].
    rewrite Rltb_false by lra; reflexivity. }
  assert (EB : eligible headon_B = true) by exact (proj2 headon_eligible).
  rewrite two_snake_head_on by
    (auto; cbn [head_of headon_long_A headon_B segments hd x y];
     apply dist2_lt; lra).
  destruct (convertSnakeToOrbs headon_long_A env0 (mkStore 0 0 0)) as [oA st1].
  destruct (convertSnakeToOrbs headon_B env0 st1) as [oB st2].
  eexists; split; [reflexivity|].
  cbn; repeat split; unfold INITIAL_LENGTH; lra.
Qed.

(** ** Heads within the arena margins *)

Lemma rng_next_eq (e : Env) (s : Store) :
  exists r s', rng_next e s = (r, s') /\ 0 <= r < 1.
Proof.
  eexists; eexists; split; [reflexivity|]. apply rng_value_range.
Qed.

Lemma body_from_head (px py dir : R) :
  exists t, body_from px py dir = mkPos (px - cos dir * 0) (py - sin dir * 0) :: t.
Proof.
  unfold body_from, segment_offsets. cbn [offsets_from].
  rewrite Rltb_true by (unfold INITIAL_LENGTH; lra).
  cbn [map]. eexists; reflexivity.
Qed.

Lemma createSnake_ok (addr : string) (px py dir : R) (isAI : bool) (e : Env)
    (s : Store) :
  20 <= px <= ARENA_WIDTH - 20 -> 20 <= py <= ARENA_HEIGHT - 20 ->
  snake_ok (fst (createSnake addr px py dir isAI e s)).
Proof.
  intros Hx Hy. unfold createSnake, bind, ret.
  destruct (randomColor e s) as [c s1]. cbn [fst].
  split; [cbn [length]; unfold INITIAL_LENGTH; lra|].
  intros _. destruct (body_from_head px py dir) as [t Ht].
  cbn [segments]. rewrite Ht. exists (mkPos (px - cos dir * 0) (py - sin dir * 0)), t.
  split; [reflexivity|]. cbn [x y]. split; lra.
Qed.

Lemma spawn_ai_ok (i fuel : nat) (e : Env) (s : Store) :
  Forall snake_ok (fst (spawn_ai i fuel e s)).
Proof.
  revert i s; induction fuel as [|f IH]; intros i s; cbn [spawn_ai];
    [constructor|].
  unfold bind, ret.
  destruct (rng_next_eq e s) as [rx [s1 [-> Hx]]].
  destruct (rng_next_eq e s1) as [ry [s2 [-> Hy]]].
  destruct (rng_next_eq e s2) as [rd [s3 [-> Hd]]].
  pose proof (createSnake_ok ("AI_" ++ nat_to_string i)
                (200 + rx * (ARENA_WIDTH - 400)) (200 + ry * (ARENA_HEIGHT - 400))
                (rd * 2 * PI) true e s3) as C.
  destruct (createSnake _ _ _ _ _ e s3) as [sn s4].
  specialize (IH (S i) s4). destruct (spawn_ai (S i) f e s4) as [rest s5].
  cbn [fst] in *. constructor; [|exact IH].
  apply C; unfold ARENA_WIDTH, ARENA_HEIGHT in *; split; nra.
Qed.

Lemma spawnOrb_ok (e : Env) (s : Store) : orb_ok (fst (spawnOrb e s)).
Proof.
  unfold spawnOrb, bind, ret.
  destruct (rng_next_eq e s) as [r [s1 [-> Hr]]].
  destruct (random_id e s1) as [i s2].
  destruct (rng_next e s2) as [rx s3]. destruct (rng_next e s3) as [ry s4].
  destruct (randomColor e s4) as [c s5]. cbn [fst value orb_ok].
  unfold orb_ok; cbn [value].
  assert (0 <= floorZ (r * MAX_ORB_SIZE))%Z
    by (apply floorZ_nonneg; unfold MAX_ORB_SIZE; lra).
  lia.
Qed.

Lemma repeatM_spawnOrb_ok (n : nat) (e : Env) (s : Store) :
  Forall orb_ok (fst (repeatM n spawnOrb e s)).
Proof.
  revert s; induction n as [|n IH]; intro s; cbn [repeatM]; [constructor|].
  unfold bind, ret. pose proof (spawnOrb_ok e s) as O.
  destruct (spawnOrb e s) as [o s1]. specialize (IH s1).
  destruct (repeatM n spawnOrb e s1) as [rest s2]. cbn [fst] in *.
  constructor; assumption.
Qed.

Lemma createInitialState_ok (p1 p2 matchId : string) (bot : bool) (e : Env)
    (s : Store) :
  arena_inv (fst (createInitialState p1 p2 matchId bot e s)).
Proof.
  unfold createInitialState, bind.
  destruct (set_seed (hashMatchId matchId) e s) as [u s1].
  pose proof (repeatM_spawnOrb_ok ORB_COUNT e s1) as O.
  destruct (repeatM ORB_COUNT spawnOrb e s1) as [os s2].
  assert (A : Forall snake_ok
                (fst ((if bot then spawn_ai 0 NUM_AI_BOT_MODE else ret []) e s2))).
  { destruct bot; [apply spawn_ai_ok|constructor]. }
  destruct ((if bot then spawn_ai 0 NUM_AI_BOT_MODE else ret []) e s2) as [ais s3].
  pose proof (createSnake_ok p1 (ARENA_WIDTH * 0.25) (ARENA_HEIGHT * 0.5) 0 false e s3)
    as C1.
  destruct (createSnake p1 _ _ 0 false e s3) as [pl1 s4].
  pose proof (createSnake_ok p2 (ARENA_WIDTH * 0.75) (ARENA_HEIGHT * 0.5) PI
                (String.eqb p2 "BOT") e s4) as C2.
  destruct (createSnake p2 _ _ PI _ e s4) as [pl2 s5].
  unfold ret; cbn [fst] in *. split; [|exact O].
  unfold getAllSnakes; cbn [player1 player2 aiSnakes].
  unfold ARENA_WIDTH, ARENA_HEIGHT in C1, C2.
  constructor; [apply C1|constructor; [apply C2|exact A]];
    unfold ARENA_WIDTH, ARENA_HEIGHT; lra.
Qed.

Lemma Forall_update_nth {A} (P : A -> Prop) (k : nat) (f : A -> A) (l : list A) :
  Forall P l -> (forall a, P a -> P (f a)) -> Forall P (update_nth k f l).
Proof.
  intros H Hf; revert k; induction H as [|a l Ha H IH]; intro k;
    [destruct k; constructor|].
  destruct k; cbn [update_nth]; constructor; auto.
Qed.

Lemma Forall_nth_default {A} (P : A -> Prop) (k : nat) (l : list A) (d : A) :
  Forall P l -> P d -> P (nth k l d).
Proof.
  intros H Hd; revert k; induction H as [|a l Ha H IH]; intro k;
    destruct k; cbn [nth]; auto.
Qed.

Lemma respawnSnake_ok (S : Snake) (e : Env) (s : Store) :
  snake_ok (fst (respawnSnake S e s)).
Proof.
  unfold respawnSnake, bind, ret.
  destruct (rng_next_eq e s) as [rx [s1 [-> Hx]]].
  destruct (rng_next_eq e s1) as [ry [s2 [-> Hy]]].
  destruct (rng_next_eq e s2) as [rd [s3 [-> Hd]]].
  cbn [fst]. split; [cbn [length]; unfold INITIAL_LENGTH; lra|].
  intros _. cbn [segments].
  destruct (body_from_head (200 + rx * (ARENA_WIDTH - 400))
              (200 + ry * (ARENA_HEIGHT - 400)) (rd * 2 * PI)) as [t Ht].
  rewrite Ht. eexists; exists t; split; [reflexivity|].
  cbn [x y]. unfold ARENA_WIDTH, ARENA_HEIGHT. split; nra.
Qed.

Lemma respawn_phase_ok (gt : R) (ss : list Snake) (e : Env) (s : Store) :
  Forall snake_ok ss -> Forall snake_ok (fst (respawn_phase gt ss e s)).
Proof.
  intro H; revert s; induction H as [|S ss HS H IH]; intro s; cbn [respawn_phase];
    [constructor|].
  unfold bind.
  assert (A : snake_ok (fst ((if negb (alive S) && Rleb (respawnTime S) gt
                              then respawnSnake S else ret S) e s))).
  { destruct (_ && _); [apply respawnSnake_ok|exact HS]. }
  destruct ((if negb (alive S) && Rleb (respawnTime S) gt
             then respawnSnake S else ret S) e s) as [S' s1].
  specialize (IH s1). destruct (respawn_phase gt ss e s1) as [rest s2].
  unfold ret; cbn [fst] in *. constructor; assumption.
Qed.

Lemma startBoost_ok (S : Snake) : snake_ok S -> snake_ok (startBoost S).
Proof.
  intros [HL HH]. unfold startBoost.
  destruct (Rltb 0 (boostTime S)) eqn:B1; [split; assumption|].
  destruct (Rltb (length S) 20) eqn:B2; [split; assumption|].
  cbn [orb].
  assert (L20 : 20 <= length S).
  { destruct (Rlt_dec (length S) 20) as [L|L]; [|lra].
    rewrite (proj2 (Rltb_spec _ _) L) in B2; discriminate. }
  split; [cbn [length with_length_boost]; unfold BOOST_LENGTH_COST; unfold Rmax;
          destruct (Rle_dec _ _); lra|exact HH].
Qed.

Lemma updateAIDirection_ok (i : nat) (all : list Snake) (os : list Orb)
    (ai : Snake) (e : Env) (s : Store) :
  snake_ok ai -> snake_ok (fst (updateAIDirection i all os ai e s)).
Proof.
  intro H. unfold updateAIDirection.
  destruct (alive ai); [|exact H].
  destruct (segments ai); [exact H|].
  unfold bind, ret; cbn zeta.
  match goal with |- context [with_target ai ?t] => set (ai' := with_target ai t) end.
  assert (G : snake_ok ai') by (destruct H; split; assumption).
  destruct (Reqb (boostTime ai') 0); [|exact G].
  destruct (rng_next e s) as [r s1]. cbn [fst].
  destruct (Rltb r 0.01); [apply startBoost_ok|]; exact G.
Qed.

Lemma ai_roster_phase_ok (i : nat) (all : list Snake) (os : list Orb)
    (ais : list Snake) (e : Env) (s : Store) :
  Forall snake_ok ais -> Forall snake_ok (fst (ai_roster_phase i all os ais e s)).
Proof.
  intro H; revert i s; induction H as [|a ais Ha H IH]; intros i s;
    cbn [ai_roster_phase]; [constructor|].
  unfold bind.
  assert (A : snake_ok (fst ((if alive a then updateAIDirection i all os a
                              else ret a) e s))).
  { destruct (alive a); [apply updateAIDirection_ok|]; exact Ha. }
  destruct ((if alive a then updateAIDirection i all os a else ret a) e s)
    as [a' s1].
  specialize (IH (S i) s1). destruct (ai_roster_phase (S i) all os ais e s1) as [rest s2].
  unfold ret; cbn [fst] in *. constructor; assumption.
Qed.

Lemma ai_phase_ok (all : list Snake) (os : list Orb) (e : Env) (s : Store) :
  Forall snake_ok all -> Forall snake_ok (fst (ai_phase all os e s)).
Proof.
  intro H. unfold ai_phase. destruct all as [|p1 [|p2 ais]]; try exact H.
  inversion H as [|? ? H1 H']; subst. inversion H' as [|? ? H2 H3]; subst.
  unfold bind.
  set (b := (String.eqb (address p2) "BOT" || String.prefix "AI_" (address p2))
            && alive p2).
  assert (A : snake_ok (fst ((if b then updateAIDirection 1 (p1 :: p2 :: ais) os p2
                              else ret p2) e s))).
  { destruct b; [apply updateAIDirection_ok|]; exact H2. }
  destruct ((if b then updateAIDirection 1 (p1 :: p2 :: ais) os p2 else ret p2) e s)
    as [p2' s1].
  pose proof (ai_roster_phase_ok 2 (p1 :: p2 :: ais) os ais e s1 H3) as B.
  destruct (ai_roster_phase 2 (p1 :: p2 :: ais) os ais e s1) as [ais' s2].
  unfold ret; cbn [fst] in *.
  constructor; [exact H1|constructor; [exact A|exact B]].
Qed.

Lemma clamp_range (lim v : R) : 40 <= lim -> 20 <= Rmax 20 (Rmin (lim - 20) v) <= lim - 20.
Proof. intro H; unfold Rmax, Rmin; repeat destruct (Rle_dec _ _); lra. Qed.

Lemma grow_head (fuel : nat) (T : Z) (h : Position) (t : list Position) :
  exists t', grow fuel T (h :: t) = h :: t'.
Proof.
  revert t; induction fuel as [|f IH]; intro t; cbn [grow]; [eauto|].
  destruct (_ <? T)%Z; [|eauto].
  exact (IH (t ++ [extend (h :: t)])%list).
Qed.

Lemma reconcile_head (h : Position) (t : list Position) (T : Z) :
  (0 <= T)%Z -> exists t', reconcile (h :: t) T = h :: t'.
Proof.
  intro HT. unfold reconcile.
  destruct (grow_head (Z.to_nat T) T h t) as [t' ->].
  destruct (_ <? _)%Z; [|eauto].
  replace (Z.to_nat (T + 1)) with (S (Z.to_nat T)) by lia.
  cbn [firstn]. eauto.
Qed.

Lemma updateSnake_ok (S S' : Snake) (d : R) :
  snake_ok S -> updateSnake S d = Some S' -> snake_ok S'.
Proof.
  intros [HL _] Hu. unfold updateSnake in Hu.
  destruct (segments S) as [|h0 rest]; [discriminate|].
  injection Hu as <-. split; [exact HL|intros _].
  cbn [segments].
  set (T := floorZ (length S / SEGMENT_SIZE)).
  assert (HT : (0 <= T)%Z).
  { apply floorZ_nonneg. unfold SEGMENT_SIZE, Rdiv.
    apply Rmult_le_pos; [exact HL|left; apply Rinv_0_lt_compat; lra]. }
  match goal with |- context [reconcile (?nh :: chase ?nh rest) T] =>
    destruct (reconcile_head nh (chase nh rest) T HT) as [t' ->];
    exists nh, t'; split; [reflexivity|]
  end.
  cbn [x y]. split; apply clamp_range; unfold ARENA_WIDTH, ARENA_HEIGHT; lra.
Qed.

Lemma move_phase_ok (d : R) (ss ss' : list Snake) :
  Forall snake_ok ss -> move_phase d ss = Some ss' -> Forall snake_ok ss'.
Proof.
  intro H; revert ss'; induction H as [|S ss HS H IH]; intros ss' Hm;
    cbn [move_phase] in Hm; [injection Hm as <-; constructor|].
  destruct (if alive S then updateSnake S d else Some S) as [S'|] eqn:E1;
    [|discriminate].
  destruct (move_phase d ss) as [rest|] eqn:E2; [|discriminate].
  injection Hm as <-. constructor; [|auto].
  destruct (alive S); [eauto using updateSnake_ok|injection E1 as <-; exact HS].
Qed.

Lemma eat_ok (head : Position) (os : list Orb) (S : Snake) :
  snake_ok S -> Forall orb_ok os ->
  snake_ok (fst (eat head os S)) /\ Forall orb_ok (snd (eat head os S)).
Proof.
  intros HS; induction os as [|o os IH]; intro Ho; cbn [eat]; [split; auto|].
  inversion Ho as [|? ? Ho1 Ho2]; subst.
  destruct (IH Ho2) as [[L1 H1] K1].
  destruct (eat head os S) as [S1 kept]. cbn [fst snd] in *.
  destruct (Rlt_dec _ _).
  - cbn [fst snd]. split; [|exact K1].
    split; [cbn [length with_length_score]; unfold orb_ok in Ho1; apply IZR_le in Ho1; lra|exact H1].
  - cbn [fst snd]. split; [split; assumption|constructor; assumption].
Qed.

Lemma checkOrbCollisions_ok (ss : list Snake) (os : list Orb) :
  Forall snake_ok ss -> Forall orb_ok os ->
  Forall snake_ok (fst (checkOrbCollisions ss os)) /\
  Forall orb_ok (snd (checkOrbCollisions ss os)).
Proof.
  intro H; revert os; induction H as [|S ss HS H IH]; intros os Ho;
    cbn [checkOrbCollisions]; [split; [constructor|exact Ho]|].
  assert (A : snake_ok (fst (match alive S, segments S with
                             | true, head :: _ => eat head os S
                             | _, _ => (S, os)
                             end)) /\
              Forall orb_ok (snd (match alive S, segments S with
                                  | true, head :: _ => eat head os S
                                  | _, _ => (S, os)
                                  end))).
  { destruct (alive S); [destruct (segments S)|]; try (split; assumption).
    apply eat_ok; assumption. }
  destruct (match alive S, segments S with
            | true, head :: _ => eat head os S
            | _, _ => (S, os)
            end) as [S' os1].
  destruct A as [A1 A2]. cbn [fst snd] in A1, A2.
  destruct (IH os1 A2) as [B1 B2].
  destruct (checkOrbCollisions ss os1) as [ss'' os2]. cbn [fst snd] in *.
  split; [constructor|]; assumption.
Qed.

Lemma segment_orbs_ok (S : Snake) (step i fuel : nat) (e : Env) (s : Store) :
  Forall orb_ok (fst (segment_orbs S step i fuel e s)).
Proof.
  revert i s; induction fuel as [|f IH]; intros i s; cbn [segment_orbs];
    [constructor|].
  destruct (Nat.ltb i (List.length (segments S))); [|constructor].
  unfold bind, date_now_M.
  destruct (rng_next e _) as [rx s2]. destruct (rng_next e s2) as [ry s3].
  cbv zeta. specialize (IH (i + step)%nat s3).
  destruct (segment_orbs S step (i + step) f e s3) as [rest s4].
  unfold ret; cbn [fst] in *. constructor; [unfold orb_ok; cbn; lia|exact IH].
Qed.

Lemma convertSnakeToOrbs_ok (S : Snake) (e : Env) (s : Store) :
  Forall orb_ok (fst (convertSnakeToOrbs S e s)).
Proof.
  unfold convertSnakeToOrbs. destruct (segments S); [constructor|].
  unfold bind, date_now_M. cbv zeta.
  match goal with |- context [segment_orbs S ?st 1 ?n e ?s1] =>
    pose proof (segment_orbs_ok S st 1 n e s1) as G;
    destruct (segment_orbs S st 1 n e s1) as [rest s2]
  end.
  unfold ret; cbn [fst] in *. constructor; [unfold orb_ok; cbn; lia|exact G].
Qed.

Lemma resolve_deaths_ok (toKill : list nat) (killers : Killers) (gt : R)
    (ss : list Snake) (os : list Orb) (e : Env) (s : Store) :
  Forall snake_ok ss -> Forall orb_ok os ->
  Forall snake_ok (fst (fst (resolve_deaths toKill killers gt ss os e s))) /\
  Forall orb_ok (snd (fst (resolve_deaths toKill killers gt ss os e s))).
Proof.
  revert ss os s; induction toKill as [|k rest IH]; intros ss os s Hs Ho;
    [split; assumption|].
  rewrite resolve_deaths_step; cbv zeta.
  pose proof (convertSnakeToOrbs_ok (nth k ss default_snake) e s) as Od.
  destruct (convertSnakeToOrbs (nth k ss default_snake) e s) as [dOrbs s1].
  cbn [fst] in Od.
  assert (Hd : snake_ok (nth k ss default_snake)).
  { apply Forall_nth_default; [exact Hs|].
    split; [cbn; lra|intro A; discriminate A]. }
  apply IH.
  - apply Forall_update_nth.
    + destruct (killers k); [|exact Hs].
      apply Forall_update_nth; [exact Hs|].
      intros a [La Ha]; split; [|exact Ha]. cbn [length credit_killer with_kills_length].
      destruct Hd as [Ld _].
      assert (0 <= floorZ (length (nth k ss default_snake) * 0.15))%Z
        by (apply floorZ_nonneg; lra).
      apply IZR_le in H. lra.
    + intros a [La Ha]; split; [exact La|intro A; discriminate A].
  - apply Forall_app; split; assumption.
Qed.

Lemma checkSnakeCollisions_ok (gt : R) (all : list Snake) (os : list Orb)
    (e : Env) (s : Store) :
  Forall snake_ok all -> Forall orb_ok os ->
  Forall snake_ok (fst (fst (checkSnakeCollisions gt all os e s))) /\
  Forall orb_ok (snd (fst (checkSnakeCollisions gt all os e s))).
Proof.
  unfold checkSnakeCollisions. destruct (collision_scan all).
  apply resolve_deaths_ok.
Qed.

Lemma processTick_ok (st st' : GameState) (dms : R) (e : Env) (s s' : Store) :
  arena_inv st -> processTick st dms e s = (Some st', s') -> arena_inv st'.
Proof.
  intros [Hs Ho]. unfold processTick; cbv zeta.
  destruct (_ && _).
  { unfold ret; intro H; injection H as <- _. split; assumption. }
  unfold bind.
  pose proof (respawn_phase_ok (gameTime st + Rmin (Rmax dms 0) 100)
                (getAllSnakes st) e s Hs) as K1.
  pose proof (respawn_phase_grows (gameTime st + Rmin (Rmax dms 0) 100)
                (getAllSnakes st) e s) as G1.
  destruct (respawn_phase _ (getAllSnakes st) e s) as [all1 s1].
  pose proof (ai_phase_ok all1 (orbs st) e s1 K1) as K2.
  pose proof (ai_phase_grows all1 (orbs st) e s1) as G2.
  destruct (ai_phase all1 (orbs st) e s1) as [all2 s2]. cbn [fst] in *.
  destruct (move_phase _ all2) as [all3|] eqn:E3;
    [|unfold ret; intro H; discriminate].
  pose proof (move_phase_ok _ _ _ K2 E3) as K3.
  pose proof (move_phase_grows _ _ _ E3) as G3.
  destruct (checkOrbCollisions_ok all3 (orbs st) K3 Ho) as [K4 O4].
  pose proof (checkOrbCollisions_grows all3 (orbs st)) as G4.
  destruct (checkOrbCollisions all3 (orbs st)) as [all4 os4]. cbn [fst snd] in *.
  destruct (checkSnakeCollisions_ok (gameTime st + Rmin (Rmax dms 0) 100)
              all4 os4 e s2 K4 O4) as [K5 O5].
  pose proof (checkSnakeCollisions_grows (gameTime st + Rmin (Rmax dms 0) 100)
                all4 os4 e s2) as G5.
  destruct (checkSnakeCollisions _ all4 os4 e s2) as [[all5 os5] s5].
  cbn [fst snd] in *.
  assert (G : Forall2 grows (getAllSnakes st) all5).
  { eapply Forall2_grows_trans; [exact G1|].
    eapply Forall2_grows_trans; [exact G2|].
    eapply Forall2_grows_trans; [exact G3|].
    eapply Forall2_grows_trans; [exact G4|exact G5]. }
  match goal with |- context [if ?b then _ else _] => destruct b end;
    [pose proof (spawnOrb_ok e s5) as O6; destruct (spawnOrb e s5) as [o s6]|];
    intro H; unfold ret in H; cbn beta iota in H; injection H as <- _;
    (split; [|cbn [orbs]]);
    try match goal with
    | |- Forall snake_ok (getAllSnakes ?st2) =>
        replace (getAllSnakes st2) with all5;
          [exact K5|symmetry; exact (Forall2_getAllSnakes _ _ G)]
    end;
    try exact O5.
  apply Forall_app; split; [exact O5|constructor; [exact O6|constructor]].
Qed.

Lemma move_phase_some (d : R) (ss : list Snake) :
  Forall snake_ok ss -> exists ss', move_phase d ss = Some ss'.
Proof.
  induction 1 as [|S ss [HL HH] H IH]; cbn [move_phase]; [eauto|].
  destruct IH as [rest ->].
  destruct (alive S) eqn:A; [|eauto].
  destruct (HH A) as [h [t [Hs _]]].
  unfold updateSnake at 1. rewrite Hs. eauto.
Qed.

(** From a state satisfying the invariant, a tick never throws. *)
Lemma processTick_some (st : GameState) (dms : R) (e : Env) (s : Store) :
  arena_inv st -> exists st' s', processTick st dms e s = (Some st', s').
Proof.
  intros [Hs Ho]. unfold processTick; cbv zeta.
  destruct (_ && _); [unfold ret; eauto|].
  unfold bind.
  pose proof (respawn_phase_ok (gameTime st + Rmin (Rmax dms 0) 100)
                (getAllSnakes st) e s Hs) as K1.
  destruct (respawn_phase _ (getAllSnakes st) e s) as [all1 s1].
  pose proof (ai_phase_ok all1 (orbs st) e s1 K1) as K2.
  destruct (ai_phase all1 (orbs st) e s1) as [all2 s2]. cbn [fst] in *.
  destruct (move_phase_some (Rmin (Rmax dms 0) 100) all2 K2) as [all3 ->].
  destruct (checkOrbCollisions all3 (orbs st)) as [all4 os4].
  destruct (checkSnakeCollisions _ all4 os4 e s2) as [[all5 os5] s5].
  match goal with |- context [if ?b then _ else _] => destruct b end;
    [destruct (spawnOrb e s5) as [o s6]|]; unfold ret; eauto.
Qed.

Lemma respawn_state_ok : arena_inv respawn_state.
Proof.
  split; [|constructor].
  constructor; [split|constructor; [split|constructor]].
  - cbn; lra.
  - intros _; eexists; eexists; split; [reflexivity|].
    cbn; unfold ARENA_WIDTH, ARENA_HEIGHT; lra.
  - cbn; lra.
  - intro H; discriminate H.
Qed.

(** A tick halfway through the match: the time limit is not reached, so
    the respawn, steering, movement and collision phases all run, and
    player 2's respawn is due. *)
Lemma score_kills_monotone_witness :
  Rleb MATCH_DURATION_MS (gameTime respawn_state + 100) = false /\
  alive respawn_p2 = false /\
  Rleb (respawnTime respawn_p2) (gameTime respawn_state + 100) = true /\
  exists st' s', processTick respawn_state 100 env0 store0 = (Some st', s') /\
    (forall i S, nth_error (getAllSnakes respawn_state) i = Some S ->
       exists S', nth_error (getAllSnakes st') i = Some S' /\
         address S' = address S /\ (score S <= score S')%Z /\
         (kills S <= kills S')%Z) /\
    (forall S rt, let D := kill_snake S rt in
       score D = score S /\ kills D = kills S /\ alive D = false /\
       segments D = [] /\ boostTime D = 0 /\ length D = length S /\
       respawnTime D = rt) /\
    (forall toKill killers gt ss os e0 s0 k,
       In k toKill -> (k < List.length ss)%nat ->
       exists D, nth_error (fst (fst (resolve_deaths toKill killers gt ss os e0 s0))) k
                   = Some D /\
         alive D = false /\ segments D = [] /\ boostTime D = 0 /\
         respawnTime D = gt + 2000) /\
    (forall S e0 s0, let S' := fst (respawnSnake S e0 s0) in
       score S' = score S /\ kills S' = kills S /\ address S' = address S /\
       alive S' = true /\ length S' = INITIAL_LENGTH /\
       speed S' = BASE_SPEED * 1.5 /\ graceTime S' = RESPAWN_GRACE_MS /\
       boostTime S' = 0 /\ targetDirection S' = direction S' /\
       0 <= direction S' < 2 * PI /\
       exists px py, 200 <= px < ARENA_WIDTH - 200 /\ 200 <= py < ARENA_HEIGHT - 200 /\
         segments S' = body_from px py (direction S')).
Proof.
  split; [apply Rleb_false; cbn; unfold MATCH_DURATION_MS; lra|].
  split; [reflexivity|].
  split; [apply (proj2 (Rleb_spec _ _)); cbn; lra|].
  destruct (processTick_some respawn_state 100 env0 store0 respawn_state_ok)
    as [st' [s' E]].
  exists st', s'. split; [exact E|].
  exact (score_kills_monotone _ _ _ _ _ _ E).
Defined.

Lemma apply_to_player_ok (st : GameState) (a : string) (f : Snake -> Snake) :
  (forall S, snake_ok S -> snake_ok (f S)) -> arena_inv st ->
  arena_inv (apply_to_player st a f).
Proof.
  intros Hf [Hs Ho]. unfold apply_to_player, getAllSnakes in *.
  inversion Hs as [|? ? H1 H']; subst. inversion H' as [|? ? H2 H3]; subst.
  destruct (_ && alive (player1 st)); [|destruct (_ && alive (player2 st))].
  - split; cbn [player1 player2 aiSnakes orbs with_players]; [|exact Ho].
    constructor; [apply Hf, H1|constructor; [exact H2|exact H3]].
  - split; cbn [player1 player2 aiSnakes orbs with_players]; [|exact Ho].
    constructor; [exact H1|constructor; [apply Hf, H2|exact H3]].
  - split; [exact Hs|exact Ho].
Qed.

Lemma apply_input_ok (st : GameState) (inp : Input) :
  arena_inv st -> arena_inv (apply_input st inp).
Proof.
  intro H. destruct inp as [a mx my cw ch|a]; cbn [apply_input];
    apply apply_to_player_ok; try exact H.
  - intros S [HL HH]. unfold setDirection.
    destruct (alive S); [destruct (segments S)|]; split; assumption.
  - exact startBoost_ok.
Qed.

Lemma apply_inputs_ok (st : GameState) (inps : list Input) :
  arena_inv st -> arena_inv (apply_inputs st inps).
Proof.
  unfold apply_inputs; revert st; induction inps as [|inp inps IH]; intros st H;
    cbn [fold_left]; [exact H|].
  apply IH, apply_input_ok, H.
Qed.

Lemma trace_ok (st : GameState) (steps : list (R * list Input)) (e : Env) (s : Store) :
  arena_inv st -> Forall arena_inv (fst (trace st steps e s)).
Proof.
  revert st s; induction steps as [|[dms inps] steps IH]; intros st s H;
    cbn [trace]; [constructor|].
  unfold bind.
  destruct (processTick (apply_inputs st inps) dms e s) as [[st'|] s1] eqn:E;
    [|constructor].
  pose proof (processTick_ok _ _ _ _ _ _ (apply_inputs_ok st inps H) E) as H'.
  destruct (matchEnded st'); [unfold ret; cbn [fst]; constructor; auto|].
  specialize (IH st' s1 H'). destruct (trace st' steps e s1) as [rest s2].
  unfold ret; cbn [fst] in *. constructor; assumption.
Qed.

(** C8.  In every Game State of a match (the initial one built by
    [createInitialState], then the state after each tick, whatever inputs
    arrive between ticks), every living
    snake has a head, and its coordinates lie in
    [[20, ARENA_WIDTH - 20] x [20, ARENA_HEIGHT - 20]], that is
    [[20, 2980]] on both axes. *)
Theorem heads_within_margins (p1 p2 matchId : string) (isBotMode : bool)
    (steps : list (R * list Input)) (e : Env) (s : Store) :
  Forall (fun st => Forall head_in_arena (getAllSnakes st))
    (fst (run_match p1 p2 matchId isBotMode steps e s)).
Proof.
  assert (Hall : Forall arena_inv (fst (run_match p1 p2 matchId isBotMode steps e s))).
  { unfold run_match, bind.
    pose proof (createInitialState_ok p1 p2 matchId isBotMode e s) as H0.
    destruct (createInitialState p1 p2 matchId isBotMode e s) as [st0 s1].
    cbn [fst] in H0.
    pose proof (trace_ok st0 steps e s1 H0) as H1.
    destruct (trace st0 steps e s1) as [rest s2].
    unfold ret; cbn [fst] in *. constructor; assumption. }
  eapply Forall_impl; [|exact Hall].
  intros st [Hs _]. eapply Forall_impl; [|exact Hs]. intros S [_ HS]; exact HS.
Qed.

(** ** Segment counts across a match *)

Lemma segment_offsets_eq :
  segment_offsets = [0; 0 + 8; 0 + 8 + 8; 0 + 8 + 8 + 8; 0 + 8 + 8 + 8 + 8;
                     0 + 8 + 8 + 8 + 8 + 8; 0 + 8 + 8 + 8 + 8 + 8 + 8].
Proof.
  unfold segment_offsets. cbn [offsets_from]. unfold SEGMENT_SIZE.
  repeat (rewrite Rltb_true by (unfold INITIAL_LENGTH; lra)).
  rewrite Rltb_false by (unfold INITIAL_LENGTH; lra).
  reflexivity.
Qed.

Lemma floorZ_mono (a b : R) : a <= b -> (floorZ a <= floorZ b)%Z.
Proof.
  intro H. destruct (floorZ_bounds a) as [A1 A2]. destruct (floorZ_bounds b) as [B1 B2].
  assert (L : IZR (floorZ a) < IZR (floorZ b + 1)) by (rewrite plus_IZR; simpl; lra).
  apply lt_IZR in L. lia.
Qed.

Lemma lengthens_refl (S : Snake) : lengthens S S.
Proof. unfold lengthens; repeat split; lra. Qed.

Lemma lengthens_trans (S1 S2 S3 : Snake) :
  lengthens S1 S2 -> lengthens S2 S3 -> lengthens S1 S3.
Proof. unfold lengthens; intros [A1 [B1 C1]] [A2 [B2 C2]]; repeat split; congruence || lra. Qed.

Lemma lengthens_seg_ok (S S' : Snake) : lengthens S S' -> seg_ok S -> seg_ok S'.
Proof.
  intros [A [G L]] [HL [HD HR]]. split; [lra|split].
  - intro E. rewrite G. apply HD. congruence.
  - intro E. unfold reconciled, seg_count, target_segments in *. rewrite G.
    assert (F : (floorZ (length S / SEGMENT_SIZE) <= floorZ (length S' / SEGMENT_SIZE))%Z).
    { apply floorZ_mono. unfold SEGMENT_SIZE, Rdiv.
      apply Rmult_le_compat_r; [left; apply Rinv_0_lt_compat; lra|exact L]. }
    specialize (HR ltac:(congruence)). lia.
Qed.

Lemma dead_empty_same (S S' : Snake) :
  alive S' = alive S -> segments S' = segments S -> dead_empty S -> dead_empty S'.
Proof. intros A G H E. rewrite G. apply H. congruence. Qed.

Lemma respawn_phase_dead_empty (gt : R) (ss : list Snake) (e : Env) (s : Store) :
  Forall dead_empty ss -> Forall dead_empty (fst (respawn_phase gt ss e s)).
Proof.
  intro H; revert s; induction H as [|S ss HS H IH]; intro s; cbn [respawn_phase];
    [constructor|].
  unfold bind.
  assert (A : dead_empty (fst ((if negb (alive S) && Rleb (respawnTime S) gt
                                then respawnSnake S else ret S) e s))).
  { destruct (_ && _); [|exact HS].
    unfold respawnSnake, bind, ret.
    destruct (rng_next e s) as [rx s1]; destruct (rng_next e s1) as [ry s2];
      destruct (rng_next e s2) as [rd s3].
    intro E; discriminate E. }
  destruct ((if negb (alive S) && Rleb (respawnTime S) gt
             then respawnSnake S else ret S) e s) as [S' s1].
  specialize (IH s1). destruct (respawn_phase gt ss e s1) as [rest s2].
  unfold ret; cbn [fst] in *. constructor; assumption.
Qed.

Lemma startBoost_dead_empty (S : Snake) : dead_empty S -> dead_empty (startBoost S).
Proof.
  unfold startBoost; destruct (_ || _); [exact (fun H => H)|].
  apply dead_empty_same; reflexivity.
Qed.

Lemma updateAIDirection_dead_empty (i : nat) (all : list Snake) (os : list Orb)
    (ai : Snake) (e : Env) (s : Store) :
  dead_empty ai -> dead_empty (fst (updateAIDirection i all os ai e s)).
Proof.
  intro H. unfold updateAIDirection.
  destruct (alive ai); [|exact H].
  destruct (segments ai); [exact H|].
  unfold bind, ret; cbn zeta.
  match goal with |- context [with_target ai ?t] => set (ai' := with_target ai t) end.
  assert (G : dead_empty ai') by (apply (dead_empty_same ai); [reflexivity|reflexivity|exact H]).
  destruct (Reqb (boostTime ai') 0); [|exact G].
  destruct (rng_next e s) as [r s1]. cbn [fst].
  destruct (Rltb r 0.01); [apply startBoost_dead_empty|]; exact G.
Qed.

Lemma ai_roster_phase_dead_empty (i : nat) (all : list Snake) (os : list Orb)
    (ais : list Snake) (e : Env) (s : Store) :
  Forall dead_empty ais -> Forall dead_empty (fst (ai_roster_phase i all os ais e s)).
Proof.
  intro H; revert i s; induction H as [|a ais Ha H IH]; intros i s;
    cbn [ai_roster_phase]; [constructor|].
  unfold bind.
  assert (A : dead_empty (fst ((if alive a then updateAIDirection i all os a
                                else ret a) e s))).
  { destruct (alive a); [apply updateAIDirection_dead_empty|]; exact Ha. }
  destruct ((if alive a then updateAIDirection i all os a else ret a) e s)
    as [a' s1].
  specialize (IH (S i) s1). destruct (ai_roster_phase (S i) all os ais e s1) as [rest s2].
  unfold ret; cbn [fst] in *. constructor; assumption.
Qed.

Lemma ai_phase_dead_empty (all : list Snake) (os : list Orb) (e : Env) (s : Store) :
  Forall dead_empty all -> Forall dead_empty (fst (ai_phase all os e s)).
Proof.
  intro H. unfold ai_phase. destruct all as [|p1 [|p2 ais]]; try exact H.
  inversion H as [|? ? H1 H']; subst. inversion H' as [|? ? H2 H3]; subst.
  unfold bind.
  set (b := (String.eqb (address p2) "BOT" || String.prefix "AI_" (address p2))
            && alive p2).
  assert (A : dead_empty (fst ((if b then updateAIDirection 1 (p1 :: p2 :: ais) os p2
                                else ret p2) e s))).
  { destruct b; [apply updateAIDirection_dead_empty|]; exact H2. }
  destruct ((if b then updateAIDirection 1 (p1 :: p2 :: ais) os p2 else ret p2) e s)
    as [p2' s1].
  pose proof (ai_roster_phase_dead_empty 2 (p1 :: p2 :: ais) os ais e s1 H3) as B.
  destruct (ai_roster_phase 2 (p1 :: p2 :: ais) os ais e s1) as [ais' s2].
  unfold ret; cbn [fst] in *. repeat constructor; assumption.
Qed.

Lemma updateSnake_seg (S S' : Snake) (d : R) :
  alive S = true -> 0 <= length S -> updateSnake S d = Some S' -> seg_ok S'.
Proof.
  intros A HL Hu.
  destruct (updateSnake_facts _ _ _ Hu) as [A' [L [h [t [Hlen Hs]]]]].
  split; [lra|split].
  - intro E; congruence.
  - intros _. unfold seg_count, target_segments. rewrite Hs, L.
    set (T := floorZ (length S / SEGMENT_SIZE)).
    assert (HT : (0 <= T)%Z).
    { apply floorZ_nonneg. unfold SEGMENT_SIZE, Rdiv.
      apply Rmult_le_pos; [exact HL|left; apply Rinv_0_lt_compat; lra]. }
    destruct (reconcile_length (h :: chase h t) T HT) as [B1 B2].
    assert (P : (1 <= Z.of_nat (List.length (h :: chase h t)))%Z)
      by (cbn [List.length]; lia).
    lia.
Qed.

Lemma move_phase_seg (d : R) (ss ss' : list Snake) :
  Forall snake_ok ss -> Forall dead_empty ss -> move_phase d ss = Some ss' ->
  Forall seg_ok ss'.
Proof.
  revert ss'; induction ss as [|S ss IH]; intros ss' H1 H2 Hm;
    cbn [move_phase] in Hm; [injection Hm as <-; constructor|].
  inversion H1 as [|? ? [HL _] H1']; subst. inversion H2 as [|? ? HD H2']; subst.
  destruct (alive S) eqn:A.
  - destruct (updateSnake S d) as [S'|] eqn:E1; [|discriminate].
    destruct (move_phase d ss) as [rest|] eqn:E2; [|discriminate].
    injection Hm as <-. constructor; [eapply updateSnake_seg; eauto|apply IH; auto].
  - destruct (move_phase d ss) as [rest|] eqn:E2; [|discriminate].
    injection Hm as <-. constructor; [|apply IH; auto].
    split; [exact HL|split; [exact HD|intro E; congruence]].
Qed.

Lemma eat_lengthens (head : Position) (os : list Orb) (S : Snake) :
  Forall orb_ok os ->
  lengthens S (fst (eat head os S)) /\ Forall orb_ok (snd (eat head os S)).
Proof.
  induction os as [|o os IH]; intro Ho; cbn [eat]; [split; [apply lengthens_refl|constructor]|].
  inversion Ho as [|? ? Ho1 Ho2]; subst.
  destruct (IH Ho2) as [L1 K1].
  destruct (eat head os S) as [S1 kept]. cbn [fst snd] in *.
  destruct (Rlt_dec _ _); cbn [fst snd].
  - split; [|exact K1].
    apply (lengthens_trans _ _ _ L1). unfold lengthens, orb_ok in *.
    cbn [alive segments length with_length_score]. apply IZR_le in Ho1.
    repeat split; lra.
  - split; [exact L1|constructor; assumption].
Qed.

Lemma checkOrbCollisions_seg (ss : list Snake) (os : list Orb) :
  Forall seg_ok ss -> Forall orb_ok os ->
  Forall seg_ok (fst (checkOrbCollisions ss os)).
Proof.
  intro H; revert os; induction H as [|S ss HS H IH]; intros os Ho;
    cbn [checkOrbCollisions]; [constructor|].
  assert (A : seg_ok (fst (match alive S, segments S with
                           | true, head :: _ => eat head os S
                           | _, _ => (S, os)
                           end)) /\
              Forall orb_ok (snd (match alive S, segments S with
                                  | true, head :: _ => eat head os S
                                  | _, _ => (S, os)
                                  end))).
  { destruct (alive S); [destruct (segments S)|]; try (split; assumption).
    destruct (eat_lengthens p os S Ho) as [L K].
    split; [exact (lengthens_seg_ok _ _ L HS)|exact K]. }
  destruct (match alive S, segments S with
            | true, head :: _ => eat head os S
            | _, _ => (S, os)
            end) as [S' os1].
  destruct A as [A1 A2]. cbn [fst snd] in A1, A2.
  specialize (IH os1 A2).
  destruct (checkOrbCollisions ss os1) as [ss'' os2]. cbn [fst snd] in *.
  constructor; assumption.
Qed.

Lemma resolve_deaths_seg (toKill : list nat) (killers : Killers) (gt : R)
    (ss : list Snake) (os : list Orb) (e : Env) (s : Store) :
  Forall seg_ok ss -> Forall seg_ok (fst (fst (resolve_deaths toKill killers gt ss os e s))).
Proof.
  revert ss os s; induction toKill as [|k rest IH]; intros ss os s Hs; [exact Hs|].
  rewrite resolve_deaths_step; cbv zeta.
  destruct (convertSnakeToOrbs (nth k ss default_snake) e s) as [dOrbs s1].
  assert (Hd : 0 <= length (nth k ss default_snake)).
  { apply (Forall_nth_default (fun S => 0 <= length S)); [|cbn; lra].
    eapply Forall_impl; [|exact Hs]. intros a [La _]; exact La. }
  apply IH. apply Forall_update_nth.
  - destruct (killers k); [|exact Hs].
    apply Forall_update_nth; [exact Hs|].
    intros a Ha. apply (lengthens_seg_ok a); [|exact Ha].
    unfold lengthens; cbn [alive segments length credit_killer with_kills_length].
    assert (F : (0 <= floorZ (length (nth k ss default_snake) * 0.15))%Z)
      by (apply floorZ_nonneg; lra).
    apply IZR_le in F. repeat split; lra.
  - intros a [La _]. unfold seg_ok, dead_empty, reconciled; cbn [alive segments length kill_snake].
    split; [exact La|split; intro E; [reflexivity|discriminate E]].
Qed.

Lemma checkSnakeCollisions_seg (gt : R) (all : list Snake) (os : list Orb)
    (e : Env) (s : Store) :
  Forall seg_ok all -> Forall seg_ok (fst (fst (checkSnakeCollisions gt all os e s))).
Proof.
  unfold checkSnakeCollisions. destruct (collision_scan all).
  apply resolve_deaths_seg.
Qed.

(** One tick: dead snakes stay without segments, and after a tick that
    does not reach the time limit every living snake is reconciled. *)
Lemma processTick_seg (st st' : GameState) (dms : R) (e : Env) (s s' : Store) :
  arena_inv st -> Forall dead_empty (getAllSnakes st) ->
  processTick st dms e s = (Some st', s') ->
  Forall dead_empty (getAllSnakes st') /\
  (matchEnded st' = false -> Forall reconciled (getAllSnakes st')).
Proof.
  intros [Hs Ho] HD. unfold processTick; cbv zeta.
  destruct (_ && _).
  { unfold ret; intro H; injection H as <- _. split; [exact HD|].
    intro E; discriminate E. }
  unfold bind.
  pose proof (respawn_phase_ok (gameTime st + Rmin (Rmax dms 0) 100)
                (getAllSnakes st) e s Hs) as K1.
  pose proof (respawn_phase_dead_empty (gameTime st + Rmin (Rmax dms 0) 100)
                (getAllSnakes st) e s HD) as D1.
  pose proof (respawn_phase_grows (gameTime st + Rmin (Rmax dms 0) 100)
                (getAllSnakes st) e s) as G1.
  destruct (respawn_phase _ (getAllSnakes st) e s) as [all1 s1].
  pose proof (ai_phase_ok all1 (orbs st) e s1 K1) as K2.
  pose proof (ai_phase_dead_empty all1 (orbs st) e s1 D1) as D2.
  pose proof (ai_phase_grows all1 (orbs st) e s1) as G2.
  destruct (ai_phase all1 (orbs st) e s1) as [all2 s2]. cbn [fst] in *.
  destruct (move_phase _ all2) as [all3|] eqn:E3;
    [|unfold ret; intro H; discriminate].
  pose proof (move_phase_seg _ _ _ K2 D2 E3) as K3.
  pose proof (move_phase_grows _ _ _ E3) as G3.
  pose proof (checkOrbCollisions_seg all3 (orbs st) K3 Ho) as K4.
  pose proof (checkOrbCollisions_grows all3 (orbs st)) as G4.
  destruct (checkOrbCollisions all3 (orbs st)) as [all4 os4]. cbn [fst snd] in *.
  pose proof (checkSnakeCollisions_seg (gameTime st + Rmin (Rmax dms 0) 100)
                all4 os4 e s2 K4) as K5.
  pose proof (checkSnakeCollisions_grows (gameTime st + Rmin (Rmax dms 0) 100)
                all4 os4 e s2) as G5.
  destruct (checkSnakeCollisions _ all4 os4 e s2) as [[all5 os5] s5].
  cbn [fst snd] in *.
  assert (G : Forall2 grows (getAllSnakes st) all5).
  { eapply Forall2_grows_trans; [exact G1|].
    eapply Forall2_grows_trans; [exact G2|].
    eapply Forall2_grows_trans; [exact G3|].
    eapply Forall2_grows_trans; [exact G4|exact G5]. }
  assert (K : Forall dead_empty all5 /\ Forall reconciled all5).
  { split; (eapply Forall_impl; [|exact K5]); intros a [_ [X Y]]; assumption. }
  match goal with |- context [if ?b then _ else _] => destruct b end;
    [destruct (spawnOrb e s5) as [o s6]|];
    intro H; unfold ret in H; cbn beta iota in H; injection H as <- _;
    match goal with
    | |- context [getAllSnakes ?st2] =>
        replace (getAllSnakes st2) with all5;
          [split; [exact (proj1 K)|intros _; exact (proj2 K)]
          |symmetry; exact (Forall2_getAllSnakes _ _ G)]
    end.
Qed.

Lemma setDirection_dead_empty (S : Snake) (mx my cw ch : R) :
  dead_empty S -> dead_empty (setDirection S mx my cw ch).
Proof.
  intro H. unfold setDirection.
  destruct (alive S); [destruct (segments S)|]; exact H.
Qed.

Lemma apply_inputs_dead_empty (st : GameState) (inps : list Input) :
  Forall dead_empty (getAllSnakes st) ->
  Forall dead_empty (getAllSnakes (apply_inputs st inps)).
Proof.
  unfold apply_inputs; revert st; induction inps as [|inp inps IH]; intros st H;
    cbn [fold_left]; [exact H|].
  apply IH. clear IH.
  assert (F : forall f, (forall S, dead_empty S -> dead_empty (f S)) ->
            forall a, Forall dead_empty (getAllSnakes (apply_to_player st a f))).
  { intros f Hf a. unfold apply_to_player, getAllSnakes in *.
    inversion H as [|? ? H1 H']; subst. inversion H' as [|? ? H2 H3]; subst.
    destruct (_ && alive (player1 st)); [|destruct (_ && alive (player2 st))];
      cbn [player1 player2 aiSnakes with_players]; repeat constructor; auto. }
  destruct inp as [a mx my cw ch|a]; cbn [apply_input].
  - apply F. intros S; apply setDirection_dead_empty.
  - apply F. exact startBoost_dead_empty.
Qed.

Lemma trace_seg (st : GameState) (steps : list (R * list Input)) (e : Env) (s : Store) :
  arena_inv st -> Forall dead_empty (getAllSnakes st) ->
  Forall (fun st => Forall dead_empty (getAllSnakes st) /\
                    (matchEnded st = false -> Forall reconciled (getAllSnakes st)))
    (fst (trace st steps e s)).
Proof.
  revert st s; induction steps as [|[dms inps] steps IH]; intros st s H HD;
    cbn [trace]; [constructor|].
  unfold bind.
  destruct (processTick (apply_inputs st inps) dms e s) as [[st'|] s1] eqn:E;
    [|constructor].
  pose proof (processTick_ok _ _ _ _ _ _ (apply_inputs_ok st inps H) E) as H'.
  pose proof (processTick_seg _ _ _ _ _ _ (apply_inputs_ok st inps H)
                (apply_inputs_dead_empty st inps HD) E) as [D' R'].
  destruct (matchEnded st') eqn:ME.
  { unfold ret; cbn [fst]. constructor; [|constructor].
    split; [exact D'|intro X; congruence]. }
  specialize (IH st' s1 H' D'). destruct (trace st' steps e s1) as [rest s2].
  unfold ret; cbn [fst] in *. constructor; [|exact IH].
  split; [exact D'|intros _; apply R'; reflexivity].
Qed.

Lemma createSnake_seg (addr : string) (px py dir : R) (isAI : bool) (e : Env)
    (s : Store) :
  dead_empty (fst (createSnake addr px py dir isAI e s)) /\
  reconciled (fst (createSnake addr px py dir isAI e s)).
Proof.
  unfold createSnake, bind, ret.
  destruct (randomColor e s) as [c s1]. cbn [fst].
  split; [intro E; discriminate E|intros _].
  unfold seg_count, target_segments; cbn [segments length].
  unfold body_from; rewrite segment_offsets_eq; cbn [map List.length].
  rewrite (floorZ_eq (INITIAL_LENGTH / SEGMENT_SIZE) 6)
    by (unfold INITIAL_LENGTH, SEGMENT_SIZE; lra).
  lia.
Qed.

Lemma spawn_ai_seg (i fuel : nat) (e : Env) (s : Store) :
  Forall (fun S => dead_empty S /\ reconciled S) (fst (spawn_ai i fuel e s)).
Proof.
  revert i s; induction fuel as [|f IH]; intros i s; cbn [spawn_ai];
    [constructor|].
  unfold bind, ret.
  destruct (rng_next e s) as [rx s1]; destruct (rng_next e s1) as [ry s2];
    destruct (rng_next e s2) as [rd s3].
  pose proof (createSnake_seg ("AI_" ++ nat_to_string i)
                (200 + rx * (ARENA_WIDTH - 400)) (200 + ry * (ARENA_HEIGHT - 400))
                (rd * 2 * PI) true e s3) as C.
  destruct (createSnake _ _ _ _ _ e s3) as [sn s4].
  specialize (IH (S i) s4). destruct (spawn_ai (S i) f e s4) as [rest s5].
  cbn [fst] in *. constructor; assumption.
Qed.

Lemma createInitialState_seg (p1 p2 matchId : string) (bot : bool) (e : Env)
    (s : Store) :
  matchEnded (fst (createInitialState p1 p2 matchId bot e s)) = false /\
  Forall (fun S => dead_empty S /\ reconciled S)
    (getAllSnakes (fst (createInitialState p1 p2 matchId bot e s))).
Proof.
  unfold createInitialState, bind.
  destruct (set_seed (hashMatchId matchId) e s) as [u s1].
  destruct (repeatM ORB_COUNT spawnOrb e s1) as [os s2].
  assert (A : Forall (fun S => dead_empty S /\ reconciled S)
                (fst ((if bot then spawn_ai 0 NUM_AI_BOT_MODE else ret []) e s2))).
  { destruct bot; [apply spawn_ai_seg|constructor]. }
  destruct ((if bot then spawn_ai 0 NUM_AI_BOT_MODE else ret []) e s2) as [ais s3].
  pose proof (createSnake_seg p1 (ARENA_WIDTH * 0.25) (ARENA_HEIGHT * 0.5) 0 false e s3)
    as C1.
  destruct (createSnake p1 _ _ 0 false e s3) as [pl1 s4].
  pose proof (createSnake_seg p2 (ARENA_WIDTH * 0.75) (ARENA_HEIGHT * 0.5) PI
                (String.eqb p2 "BOT") e s4) as C2.
  destruct (createSnake p2 _ _ PI _ e s4) as [pl2 s5].
  unfold ret; cbn [fst] in *. split; [reflexivity|].
  unfold getAllSnakes; cbn [player1 player2 aiSnakes].
  constructor; [exact C1|constructor; [exact C2|exact A]].
Qed.

(** C2 (amended).  In every Game State of a match (the initial one, then
    the state after each tick), every dead snake has no segment; and in
    every state of a match not yet ended (the initial one and each state
    after a tick that does not reach the time limit), every living snake
    has [n] segments with [1 <= n <= T + 2], [T = floor(length /
    SEGMENT_SIZE)]. *)
Theorem segments_reconciled (p1 p2 matchId : string) (isBotMode : bool)
    (steps : list (R * list Input)) (e : Env) (s : Store) :
  Forall (fun st => Forall dead_empty (getAllSnakes st) /\
                    (matchEnded st = false -> Forall reconciled (getAllSnakes st)))
    (fst (run_match p1 p2 matchId isBotMode steps e s)).
Proof.
  unfold run_match, bind.
  pose proof (createInitialState_ok p1 p2 matchId isBotMode e s) as H0.
  pose proof (createInitialState_seg p1 p2 matchId isBotMode e s) as [M0 S0].
  destruct (createInitialState p1 p2 matchId isBotMode e s) as [st0 s1].
  cbn [fst] in H0, M0, S0.
  assert (D0 : Forall dead_empty (getAllSnakes st0))
    by (eapply Forall_impl; [|exact S0]; intros a [X _]; exact X).
  pose proof (trace_seg st0 steps e s1 H0 D0) as H1.
  destruct (trace st0 steps e s1) as [rest s2].
  unfold ret; cbn [fst] in *. constructor; [|exact H1].
  split; [exact D0|intros _].
  eapply Forall_impl; [|exact S0]; intros a [_ X]; exact X.
Qed.

(** The head after [updateSnake]: the old head moved by the speed of
    the tick along the new direction, then clamped. *)
Lemma updateSnake_head (s s' : Snake) (d : R) (hd0 : Position) (rest : list Position) :
  0 <= length s -> segments s = hd0 :: rest -> updateSnake s d = Some s' ->
  exists sp t, segments s' =
      mkPos (Rmax 20 (Rmin (ARENA_WIDTH - 20) (x hd0 + cos (direction s') * sp * (d / 1000))))
            (Rmax 20 (Rmin (ARENA_HEIGHT - 20) (y hd0 + sin (direction s') * sp * (d / 1000))))
      :: t /\
    sp = (if Rlt_dec 0 (boostTime s) then BASE_SPEED * BOOST_MULTIPLIER
          else (if is_ai_address (address s) then AI_SPEED else BASE_SPEED) *
               Rmax 0.5 (1 - (length s - INITIAL_LENGTH) / 500)).
Proof.
  intros HL Hs Hu. unfold updateSnake in Hu. rewrite Hs in Hu.
  injection Hu as <-. cbn [segments direction].
  set (T := floorZ (length s / SEGMENT_SIZE)).
  assert (HT : (0 <= T)%Z).
  { apply floorZ_nonneg. unfold SEGMENT_SIZE, Rdiv.
    apply Rmult_le_pos; [exact HL|left; apply Rinv_0_lt_compat; lra]. }
  match goal with |- context [reconcile (?nh :: chase ?nh rest) T] =>
    destruct (reconcile_head nh (chase nh rest) T HT) as [t' ->]
  end.
  eexists; exists t'; split; reflexivity.
Qed.

(** Moving [eat_p1] for 100 ms keeps its seven segments and its length,
    and leaves the head within 24 units of [(1000, 1500)]. *)
Lemma eat_p1_move (s' : Snake) :
  updateSnake eat_p1 100 = Some s' ->
  alive s' = true /\ length s' = 56 /\
  exists h t, segments s' = h :: t /\ List.length (h :: t) = 7%nat /\
    dist2 (x h - 1000) (y h - 1500) < 24.
Proof.
  intro Hu.
  destruct (updateSnake_head eat_p1 s' 100 (mkPos 1000 1500) (skipn 1 (segments eat_p1)))
    as [sp [t1 [Hh Hsp]]]; [cbn [length eat_p1]; lra|reflexivity|exact Hu|].
  destruct (updateSnake_facts _ _ _ Hu) as [A [L [h0 [t0 [Hlen Hs]]]]].
  cbn [alive length segments eat_p1 List.length] in A, L, Hlen, Hs.
  split; [exact A|split; [exact L|]].
  rewrite (floorZ_eq (56 / SEGMENT_SIZE) 7) in Hs by (unfold SEGMENT_SIZE; lra).
  rewrite reconcile_keep in Hs by (cbn [List.length]; rewrite Hlen; lia).
  exists h0, (chase h0 t0). split; [exact Hs|split; [exact Hlen|]].
  rewrite Hs in Hh. injection Hh as Hh _. subst h0.
  set (dir := direction s') in *.
  assert (Sp : 0 <= sp <= 150).
  { rewrite Hsp; cbn [boostTime length address eat_p1].
    destruct (Rlt_dec 0 0) as [X|_]; [lra|].
    replace (is_ai_address "0xA") with false by reflexivity.
    unfold BASE_SPEED, INITIAL_LENGTH, Rmax; destruct (Rle_dec _ _); lra. }
  clear Hsp.
  pose proof (COS_bound dir) as Cb. pose proof (SIN_bound dir) as Sb.
  pose proof (sin2_cos2 dir) as SC. unfold Rsqr in SC.
  cbn [x y].
  unfold ARENA_WIDTH, ARENA_HEIGHT.
  replace (100 / 1000) with (/ 10) by lra.
  rewrite (Rmin_right (3000 - 20)) by nra. rewrite (Rmax_right 20) by nra.
  rewrite (Rmin_right (3000 - 20)) by nra. rewrite (Rmax_right 20) by nra.
  apply dist2_lt; [lra|].
  replace ((1000 + cos dir * sp * / 10 - 1000) * (1000 + cos dir * sp * / 10 - 1000) +
           (1500 + sin dir * sp * / 10 - 1500) * (1500 + sin dir * sp * / 10 - 1500))
    with ((sp * / 10) * (sp * / 10) * (sin dir * sin dir + cos dir * cos dir)) by ring.
  rewrite SC. nra.
Qed.

(** A normal tick of 100 ms from [eat_state]: player 1 keeps seven
    segments after its movement, then eats both orbs (length 74,
    [T = 9]): the count is [T - 2]. *)
Lemma eat_tick_count :
  exists st', fst (processTick eat_state 100 env0 store0) = Some st' /\
    alive (player1 st') = true /\ List.length (segments (player1 st')) = 7%nat /\
    floorZ (length (player1 st') / SEGMENT_SIZE) = 9%Z.
Proof.
  unfold processTick.
  replace (Rmin (Rmax 100 0) 100) with 100 by (rewrite Rmax_left, Rmin_left; lra).
  cbn [eat_state gameTime].
  rewrite (Rleb_false MATCH_DURATION_MS) by (unfold MATCH_DURATION_MS; lra).
  cbn [andb].
  unfold getAllSnakes, respawn_phase, bind, ret.
  cbn [player1 player2 aiSnakes eat_state alive boost_p2 eat_p1 negb andb respawnTime].
  rewrite (Rleb_false 1000000) by lra.
  cbn beta iota zeta.
  unfold ai_phase, ai_roster_phase, bind, ret.
  replace ((String.eqb (address boost_p2) "BOT" || String.prefix "AI_" (address boost_p2))
           && alive boost_p2) with false by reflexivity.
  cbn beta iota zeta.
  unfold move_phase. cbn [alive eat_p1 boost_p2].
  destruct (updateSnake eat_p1 100) as [s'|] eqn:Hu.
  2:{ unfold updateSnake in Hu; cbn [segments eat_p1] in Hu; discriminate. }
  destruct (eat_p1_move s' Hu) as [Ha [Hl [h [t [Hs [Hlen Hd]]]]]].
  cbn [checkOrbCollisions boost_p2 alive eat_state orbs].
  rewrite Ha, Hs. cbn [eat eat_orb ox oy size value].
  destruct (Rlt_dec (dist2 (x h - 1000) (y h - 1500)) (15 + IZR 3 * 3)) as [_|N];
    [|exfalso; apply N; lra].
  set (s2 := with_length_score (with_length_score s' _ _) _ _).
  assert (C : collision_scan [s2; boost_p2] = ([], fun _ => None)).
  { unfold collision_scan; cbn [scan_attackers]. destruct (eligible s2); reflexivity. }
  unfold checkSnakeCollisions; rewrite C. cbn [resolve_deaths ret].
  rewrite (Rltb_false ORB_SPAWN_RATE)
    by (unfold ORB_SPAWN_RATE, eat_state; cbn; lra).
  cbn [andb]. eexists; split; [reflexivity|].
  cbn [player1 nth]. unfold s2; cbn [alive segments length with_length_score].
  rewrite Ha, Hl, Hs.
  split; [reflexivity|split; [exact Hlen|]].
  apply floorZ_eq; unfold SEGMENT_SIZE; lra.
Qed.

(** The tick that reaches the time limit, from [final_state] after a
    boost request: the match ends and the snakes are returned as the
    inputs left them, player 1 alive with seven segments and length 35
    ([T = 4]): the count is [T + 3]. *)
Lemma final_tick_count :
  exists st', fst (trace final_state [(100, [BoostReq "0xA"])] env0 store0) = [st'] /\
    matchEnded st' = true /\ alive (player1 st') = true /\
    List.length (segments (player1 st')) = 7%nat /\
    floorZ (length (player1 st') / SEGMENT_SIZE) = 4%Z.
Proof.
  assert (A : apply_inputs final_state [BoostReq "0xA"] =
     with_players final_state (with_length_boost short_p1 35 BOOST_DURATION_MS) boost_p2).
  { unfold apply_inputs; cbn [fold_left].
    unfold apply_input, apply_to_player.
    replace (String.eqb (address (player1 final_state)) "0xA" && alive (player1 final_state))
      with true by reflexivity.
    cbn beta iota. unfold startBoost.
    rewrite (Rltb_false 0 (boostTime _)) by (unfold final_state, short_p1; cbn; lra).
    rewrite (Rltb_false (length _)) by (unfold final_state, short_p1; cbn; lra).
    cbn [orb].
    replace (length (player1 final_state) -
             Rmax 5 (length (player1 final_state) * BOOST_LENGTH_COST)) with 35
      by (unfold final_state, short_p1, BOOST_LENGTH_COST; cbn; rewrite Rmax_left; lra).
    reflexivity. }
  cbn [trace]. unfold bind. rewrite A. clear A.
  unfold processTick.
  replace (Rmin (Rmax 100 0) 100) with 100 by (rewrite Rmax_left, Rmin_left; lra).
  cbn [with_players final_state gameTime matchEnded].
  rewrite (proj2 (Rleb_spec MATCH_DURATION_MS _)) by (unfold MATCH_DURATION_MS; lra).
  cbn [andb negb]. unfold ret. cbn beta iota zeta.
  cbn [matchEnded fst].
  eexists; split; [reflexivity|].
  cbn [matchEnded player1 with_players alive segments length with_length_boost
       short_p1 List.length].
  split; [reflexivity|split; [reflexivity|split; [reflexivity|]]].
  apply floorZ_eq; unfold SEGMENT_SIZE; lra.
Qed.

(** C2 counterexample: the count is not within [+-1] of [T].
    (a) After a boost and a normal tick, a living snake has [T + 2]
    segments.  (b) Orbs eaten after the movement, in the same tick, leave
    a living snake with [T - 2] segments.  (c) The tick that reaches the
    time limit does not move the snakes, and a boost received just before
    leaves a living snake with [T + 3] segments in the final state. *)
Lemma segment_count_counterexample :
  (exists st', fst (processTick (apply_input boost_state (BoostReq "0xA")) 100 env0
                      (mkStore 0 0 0)) = Some st' /\
     alive (player1 st') = true /\ List.length (segments (player1 st')) = 7%nat /\
     floorZ (length (player1 st') / SEGMENT_SIZE) = 5%Z) /\
  (exists st', fst (processTick eat_state 100 env0 store0) = Some st' /\
     alive (player1 st') = true /\ List.length (segments (player1 st')) = 7%nat /\
     floorZ (length (player1 st') / SEGMENT_SIZE) = 9%Z) /\
  (exists st', fst (trace final_state [(100, [BoostReq "0xA"])] env0 store0) = [st'] /\
     matchEnded st' = true /\ alive (player1 st') = true /\
     List.length (segments (player1 st')) = 7%nat /\
     floorZ (length (player1 st') / SEGMENT_SIZE) = 4%Z).
Proof.
  split; [exact boost_tick_count|split; [exact eat_tick_count|exact final_tick_count]].
Qed.

(** ** Reproducibility of a match *)

Lemma sim_ret {A} (Rel : A -> A -> Prop) a1 a2 :
  Rel a1 a2 -> sim Rel (ret a1) (ret a2).
Proof. intros H e1 e2 s1 s2 Hs; split; assumption. Qed.

Lemma sim_bind {A B} (RA : A -> A -> Prop) (RB : B -> B -> Prop) c1 c2 k1 k2 :
  sim RA c1 c2 -> (forall a1 a2, RA a1 a2 -> sim RB (k1 a1) (k2 a2)) ->
  sim RB (bind c1 k1) (bind c2 k2).
Proof.
  intros Hc Hk e1 e2 s1 s2 Hs. unfold bind.
  specialize (Hc e1 e2 s1 s2 Hs).
  destruct (c1 e1 s1) as [a1 t1], (c2 e2 s2) as [a2 t2]; cbn in Hc.
  destruct Hc as [Ha Ht]. exact (Hk a1 a2 Ha e1 e2 t1 t2 Ht).
Qed.

Lemma sim_ext {A} (Rel : A -> A -> Prop) c1 c2 c3 :
  (forall e s, c2 e s = c3 e s) -> sim Rel c1 c2 -> sim Rel c1 c3.
Proof. intros Heq H e1 e2 s1 s2 Hs. rewrite <- Heq. apply H; assumption. Qed.

Lemma sim_rng : sim eq rng_next rng_next.
Proof. intros e1 e2 s1 s2 Hs; unfold rng_next; cbn; rewrite Hs; split; reflexivity. Qed.

Lemma sim_random_id : sim (fun _ _ => True) random_id random_id.
Proof. intros e1 e2 s1 s2 Hs; unfold random_id; cbn; auto. Qed.

Lemma sim_date_now : sim (fun _ _ => True) date_now_M date_now_M.
Proof. intros e1 e2 s1 s2 Hs; unfold date_now_M; cbn; auto. Qed.

Lemma sim_set_seed {A} (Rel : A -> A -> Prop) z k1 k2 e1 e2 s1 s2 :
  sim Rel (k1 tt) (k2 tt) ->
  Rel (fst (bind (set_seed z) k1 e1 s1)) (fst (bind (set_seed z) k2 e2 s2)) /\
  seed (snd (bind (set_seed z) k1 e1 s1)) = seed (snd (bind (set_seed z) k2 e2 s2)).
Proof. intros H. unfold bind, set_seed. apply H. reflexivity. Qed.

Lemma sim_randomColor : sim eq randomColor randomColor.
Proof.
  unfold randomColor. eapply sim_bind; [exact sim_rng|]. intros a1 a2 <-.
  apply sim_ret; reflexivity.
Qed.

Lemma sim_spawnOrb : sim (fun o1 o2 => erase_orb o1 = erase_orb o2) spawnOrb spawnOrb.
Proof.
  unfold spawnOrb.
  eapply sim_bind; [exact sim_rng|]; intros r1 r2 <-. cbv zeta.
  eapply sim_bind; [exact sim_random_id|]; intros i1 i2 _.
  eapply sim_bind; [exact sim_rng|]; intros x1 x2 <-.
  eapply sim_bind; [exact sim_rng|]; intros y1 y2 <-.
  eapply sim_bind; [exact sim_randomColor|]; intros c1 c2 <-.
  apply sim_ret; reflexivity.
Qed.

Lemma sim_repeat_spawnOrb n :
  sim (fun l1 l2 => map erase_orb l1 = map erase_orb l2)
    (repeatM n spawnOrb) (repeatM n spawnOrb).
Proof.
  induction n as [|n IH]; cbn [repeatM]; [apply sim_ret; reflexivity|].
  eapply sim_bind; [exact sim_spawnOrb|]; intros o1 o2 Ho.
  eapply sim_bind; [exact IH|]; intros l1 l2 Hl.
  apply sim_ret. cbn. congruence.
Qed.

Lemma sim_createSnake a px py d b :
  sim eq (createSnake a px py d b) (createSnake a px py d b).
Proof.
  unfold createSnake. eapply sim_bind; [exact sim_randomColor|].
  intros c1 c2 <-. apply sim_ret; reflexivity.
Qed.

Lemma sim_spawn_ai i f : sim eq (spawn_ai i f) (spawn_ai i f).
Proof.
  revert i; induction f as [|f IH]; intros i; cbn [spawn_ai];
    [apply sim_ret; reflexivity|].
  eapply sim_bind; [exact sim_rng|]; intros ? ? <-.
  eapply sim_bind; [exact sim_rng|]; intros ? ? <-.
  eapply sim_bind; [exact sim_rng|]; intros ? ? <-.
  eapply sim_bind; [apply sim_createSnake|]; intros ? ? <-.
  eapply sim_bind; [apply IH|]; intros ? ? <-.
  apply sim_ret; reflexivity.
Qed.

Lemma createInitialState_sim p1 p2 m b e1 e2 s1 s2 :
  erase_state (fst (createInitialState p1 p2 m b e1 s1)) =
  erase_state (fst (createInitialState p1 p2 m b e2 s2)) /\
  seed (snd (createInitialState p1 p2 m b e1 s1)) =
  seed (snd (createInitialState p1 p2 m b e2 s2)).
Proof.
  unfold createInitialState.
  apply (sim_set_seed (fun a b => erase_state a = erase_state b)). cbv beta.
  eapply sim_bind; [apply sim_repeat_spawnOrb|]; intros os1 os2 Hos.
  eapply sim_bind;
    [destruct b; [apply sim_spawn_ai | apply sim_ret; reflexivity]|].
  intros ? ? <-.
  eapply sim_bind; [apply sim_createSnake|]; intros ? ? <-.
  eapply sim_bind; [apply sim_createSnake|]; intros ? ? <-.
  apply sim_ret. unfold erase_state; cbn [orbs]. rewrite Hos. reflexivity.
Qed.

Lemma sim_respawnSnake S : sim eq (respawnSnake S) (respawnSnake S).
Proof.
  unfold respawnSnake.
  eapply sim_bind; [exact sim_rng|]; intros ? ? <-.
  eapply sim_bind; [exact sim_rng|]; intros ? ? <-.
  eapply sim_bind; [exact sim_rng|]; intros ? ? <-.
  apply sim_ret; reflexivity.
Qed.

Lemma sim_respawn_phase gt ss : sim eq (respawn_phase gt ss) (respawn_phase gt ss).
Proof.
  induction ss as [|S ss IH]; cbn [respawn_phase]; [apply sim_ret; reflexivity|].
  eapply sim_bind;
    [destruct (_ && _); [apply sim_respawnSnake | apply sim_ret; reflexivity]|].
  intros ? ? <-.
  eapply sim_bind; [exact IH|]; intros ? ? <-.
  apply sim_ret; reflexivity.
Qed.

Lemma closest_orb_erase h os1 os2 b1 b2 :
  map erase_orb os1 = map erase_orb os2 ->
  option_map (fun p => (erase_orb (fst p), snd p)) b1 =
  option_map (fun p => (erase_orb (fst p), snd p)) b2 ->
  option_map (fun p => (erase_orb (fst p), snd p)) (closest_orb h os1 b1) =
  option_map (fun p => (erase_orb (fst p), snd p)) (closest_orb h os2 b2).
Proof.
  revert os2 b1 b2; induction os1 as [|o os1 IH];
    intros [|o' os2] b1 b2 Hm Hb; cbn in Hm; try discriminate;
    cbn [closest_orb]; [assumption|].
  injection Hm as Hx Hy Hsz Hv Hc Hm.
  apply IH; [assumption|]. rewrite Hx, Hy.
  destruct b1 as [[q1 d1]|], b2 as [[q2 d2]|]; cbn in Hb; try discriminate.
  - injection Hb as Hq1 Hq2 Hq3 Hq4 Hq5 Hd; subst d2.
    destruct (Rltb _ _); cbn; unfold erase_orb; congruence.
  - cbn; unfold erase_orb; congruence.
Qed.

Lemma updateAIDirection_orbs i all os1 os2 ai e s :
  map erase_orb os1 = map erase_orb os2 ->
  updateAIDirection i all os1 ai e s = updateAIDirection i all os2 ai e s.
Proof.
  intros Hm. unfold updateAIDirection.
  destruct (alive ai), (segments ai) as [|head t]; try reflexivity.
  pose proof (closest_orb_erase head os1 os2 None None Hm eq_refl) as Hc.
  destruct (closest_orb head os1 None) as [[c1 d1]|],
           (closest_orb head os2 None) as [[c2 d2]|];
    cbn in Hc; try discriminate; [|reflexivity].
  injection Hc as Hx Hy _ _ _ _. rewrite Hx, Hy. reflexivity.
Qed.

Lemma sim_updateAIDirection i all os1 os2 ai :
  map erase_orb os1 = map erase_orb os2 ->
  sim eq (updateAIDirection i all os1 ai) (updateAIDirection i all os2 ai).
Proof.
  intros Hm. eapply sim_ext; [intros e s; apply updateAIDirection_orbs, Hm|].
  unfold updateAIDirection.
  destruct (alive ai), (segments ai) as [|head t];
    try (apply sim_ret; reflexivity).
  cbv zeta. destruct (Reqb _ _); [|apply sim_ret; reflexivity].
  eapply sim_bind; [exact sim_rng|]; intros ? ? <-.
  apply sim_ret; reflexivity.
Qed.

Lemma sim_ai_roster_phase i all os1 os2 ais :
  map erase_orb os1 = map erase_orb os2 ->
  sim eq (ai_roster_phase i all os1 ais) (ai_roster_phase i all os2 ais).
Proof.
  intros Hm. revert i; induction ais as [|ai ais IH]; intros i;
    cbn [ai_roster_phase]; [apply sim_ret; reflexivity|].
  eapply sim_bind;
    [destruct (alive ai); [apply sim_updateAIDirection, Hm | apply sim_ret; reflexivity]|].
  intros ? ? <-.
  eapply sim_bind; [apply IH|]; intros ? ? <-.
  apply sim_ret; reflexivity.
Qed.

Lemma sim_ai_phase all os1 os2 :
  map erase_orb os1 = map erase_orb os2 ->
  sim eq (ai_phase all os1) (ai_phase all os2).
Proof.
  intros Hm. unfold ai_phase.
  destruct all as [|p1 [|p2 ais]]; try (apply sim_ret; reflexivity).
  eapply sim_bind;
    [destruct (_ && _); [apply sim_updateAIDirection, Hm | apply sim_ret; reflexivity]|].
  intros ? ? <-.
  eapply sim_bind; [apply sim_ai_roster_phase, Hm|]; intros ? ? <-.
  apply sim_ret; reflexivity.
Qed.

Lemma eat_erase h os1 os2 s :
  map erase_orb os1 = map erase_orb os2 ->
  fst (eat h os1 s) = fst (eat h os2 s) /\
  map erase_orb (snd (eat h os1 s)) = map erase_orb (snd (eat h os2 s)).
Proof.
  revert os2; induction os1 as [|o os1 IH]; intros [|o' os2] Hm;
    cbn in Hm; try discriminate; [split; reflexivity|].
  injection Hm as Hx Hy Hsz Hv Hc Hm.
  assert (Ho : erase_orb o = erase_orb o') by (unfold erase_orb; congruence).
  cbn [eat]. specialize (IH os2 Hm).
  destruct (eat h os1 s) as [s1 k1], (eat h os2 s) as [s2 k2].
  cbn in IH. destruct IH as [<- Hk].
  rewrite Hx, Hy, Hsz, Hv.
  destruct (Rlt_dec _ _); cbn; split; try reflexivity; try assumption.
  rewrite Ho, Hk. reflexivity.
Qed.

Lemma checkOrbCollisions_erase ss os1 os2 :
  map erase_orb os1 = map erase_orb os2 ->
  fst (checkOrbCollisions ss os1) = fst (checkOrbCollisions ss os2) /\
  map erase_orb (snd (checkOrbCollisions ss os1)) =
  map erase_orb (snd (checkOrbCollisions ss os2)).
Proof.
  revert os1 os2; induction ss as [|s ss IH]; intros os1 os2 Hm;
    cbn [checkOrbCollisions]; [split; [reflexivity | exact Hm]|].
  assert (Hstep : forall q1 q2 s', map erase_orb q1 = map erase_orb q2 ->
    fst (let '(ss'', os2) := checkOrbCollisions ss q1 in (s' :: ss'', os2)) =
    fst (let '(ss'', os2) := checkOrbCollisions ss q2 in (s' :: ss'', os2)) /\
    map erase_orb (snd (let '(ss'', os2) := checkOrbCollisions ss q1 in (s' :: ss'', os2))) =
    map erase_orb (snd (let '(ss'', os2) := checkOrbCollisions ss q2 in (s' :: ss'', os2)))).
  { intros q1 q2 s' Hq. specialize (IH q1 q2 Hq).
    destruct (checkOrbCollisions ss q1), (checkOrbCollisions ss q2).
    cbn in *. destruct IH as [-> H]. split; [reflexivity | exact H]. }
  destruct (alive s), (segments s) as [|h t]; try (apply Hstep, Hm).
  pose proof (eat_erase h os1 os2 s Hm) as [E1 E2].
  destruct (eat h os1 s) as [s1 q1], (eat h os2 s) as [s2 q2].
  cbn in E1, E2. subst s2. apply Hstep, E2.
Qed.

Lemma sim_segment_orbs S step i fuel :
  sim (fun l1 l2 => map erase_orb l1 = map erase_orb l2)
    (segment_orbs S step i fuel) (segment_orbs S step i fuel).
Proof.
  revert i; induction fuel as [|f IH]; intros i; cbn [segment_orbs];
    [apply sim_ret; reflexivity|].
  destruct (Nat.ltb _ _); [|apply sim_ret; reflexivity].
  eapply sim_bind; [exact sim_date_now|]; intros ? ? _.
  eapply sim_bind; [exact sim_rng|]; intros ? ? <-.
  eapply sim_bind; [exact sim_rng|]; intros ? ? <-. cbv zeta.
  eapply sim_bind; [apply IH|]; intros l1 l2 Hl.
  apply sim_ret. cbn [map]. rewrite Hl. reflexivity.
Qed.

Lemma sim_convertSnakeToOrbs S :
  sim (fun l1 l2 => map erase_orb l1 = map erase_orb l2)
    (convertSnakeToOrbs S) (convertSnakeToOrbs S).
Proof.
  unfold convertSnakeToOrbs.
  destruct (segments S) as [|head t]; [apply sim_ret; reflexivity|].
  eapply sim_bind; [exact sim_date_now|]; intros ? ? _. cbv zeta.
  eapply sim_bind; [apply sim_segment_orbs|]; intros l1 l2 Hl.
  apply sim_ret. cbn [map]. rewrite Hl. reflexivity.
Qed.

Lemma sim_resolve_deaths toKill killers gt ss os1 os2 :
  map erase_orb os1 = map erase_orb os2 ->
  sim (fun r1 r2 => fst r1 = fst r2 /\
                    map erase_orb (snd r1) = map erase_orb (snd r2))
    (resolve_deaths toKill killers gt ss os1)
    (resolve_deaths toKill killers gt ss os2).
Proof.
  revert ss os1 os2; induction toKill as [|k rest IH]; intros ss os1 os2 Hm;
    cbn [resolve_deaths]; [apply sim_ret; split; [reflexivity | exact Hm]|].
  cbv zeta.
  eapply sim_bind; [apply sim_convertSnakeToOrbs|]; intros d1 d2 Hd.
  apply IH. rewrite !map_app, Hm, Hd. reflexivity.
Qed.

Lemma sim_checkSnakeCollisions gt all os1 os2 :
  map erase_orb os1 = map erase_orb os2 ->
  sim (fun r1 r2 => fst r1 = fst r2 /\
                    map erase_orb (snd r1) = map erase_orb (snd r2))
    (checkSnakeCollisions gt all os1) (checkSnakeCollisions gt all os2).
Proof.
  intros Hm. unfold checkSnakeCollisions.
  destruct (collision_scan all). apply sim_resolve_deaths, Hm.
Qed.

Ltac state_proj :=
  cbn [player1 player2 aiSnakes orbs gameTime matchEnded winner tick
       lastOrbSpawn arenaWidth arenaHeight] in *.

Lemma processTick_sim st1 st2 d :
  erase_state st1 = erase_state st2 ->
  sim (fun r1 r2 => option_map erase_state r1 = option_map erase_state r2)
    (processTick st1 d) (processTick st2 d).
Proof.
  intros H.
  destruct st1 as [p1 p2 ai os1 gt me w tk lo aw ah],
           st2 as [q1 q2 bi os2 gt' me' w' tk' lo' aw' ah'].
  unfold erase_state in H; state_proj.
  injection H as <- <- <- Hm <- <- <- <- <- <- <-.
  unfold processTick, getAllSnakes; state_proj.
  destruct (_ && _).
  - apply sim_ret. cbn [option_map]. unfold erase_state; state_proj.
    rewrite Hm. reflexivity.
  - eapply sim_bind; [apply sim_respawn_phase|]; intros a1 a2 <-.
    eapply sim_bind; [apply sim_ai_phase, Hm|]; intros b1 b2 <-.
    destruct (move_phase _ b1) as [all3|]; [|apply sim_ret; reflexivity].
    pose proof (checkOrbCollisions_erase all3 os1 os2 Hm) as [E1 E2].
    destruct (checkOrbCollisions all3 os1) as [c1 o1],
             (checkOrbCollisions all3 os2) as [c2 o2].
    cbn in E1, E2. subst c2. cbv beta iota zeta.
    eapply sim_bind; [apply sim_checkSnakeCollisions, E2|].
    intros [a5 o5] [b5 p5] [H5 Ho5]. cbn in H5, Ho5. subst b5.
    cbv beta iota zeta.
    assert (Hl : List.length o5 = List.length p5).
    { rewrite <- (length_map erase_orb o5), <- (length_map erase_orb p5), Ho5.
      reflexivity. }
    rewrite Hl.
    eapply (sim_bind (fun u v : list Orb * R =>
              map erase_orb (fst u) = map erase_orb (fst v) /\ snd u = snd v)).
    + destruct (_ && _).
      * eapply sim_bind; [exact sim_spawnOrb|]; intros q q' Hq.
        apply sim_ret. cbn [fst snd]. rewrite !map_app. cbn [map].
        rewrite Ho5, Hq. split; reflexivity.
      * apply sim_ret. split; [exact Ho5 | reflexivity].
    + intros [os6 l6] [os6' l6'] [H6 Hl6]. cbn in H6, Hl6. subst l6'.
      apply sim_ret. cbn [option_map]. unfold erase_state; state_proj.
      rewrite H6. reflexivity.
Qed.

Lemma apply_input_erase st1 st2 inp :
  erase_state st1 = erase_state st2 ->
  erase_state (apply_input st1 inp) = erase_state (apply_input st2 inp).
Proof.
  intros H.
  destruct st1 as [p1 p2 ai os1 gt me w tk lo aw ah],
           st2 as [q1 q2 bi os2 gt' me' w' tk' lo' aw' ah'].
  unfold erase_state in H; state_proj.
  injection H as <- <- <- Hm <- <- <- <- <- <- <-.
  destruct inp; unfold apply_input, apply_to_player, with_players; state_proj;
    repeat match goal with |- context [if ?b then _ else _] => destruct b end;
    unfold erase_state; state_proj; rewrite Hm; reflexivity.
Qed.

Lemma apply_inputs_erase st1 st2 inps :
  erase_state st1 = erase_state st2 ->
  erase_state (apply_inputs st1 inps) = erase_state (apply_inputs st2 inps).
Proof.
  unfold apply_inputs; revert st1 st2; induction inps as [|inp inps IH];
    intros st1 st2 H; cbn [fold_left]; [exact H|].
  apply IH, apply_input_erase, H.
Qed.

Lemma trace_sim steps st1 st2 :
  erase_state st1 = erase_state st2 ->
  sim (fun l1 l2 => map erase_state l1 = map erase_state l2)
    (trace st1 steps) (trace st2 steps).
Proof.
  revert st1 st2; induction steps as [|[dms inps] steps IH]; intros st1 st2 H;
    cbn [trace]; [apply sim_ret; reflexivity|].
  eapply sim_bind; [apply processTick_sim, apply_inputs_erase, H|].
  intros [t1|] [t2|] Hr; cbn [option_map] in Hr; try discriminate;
    [|apply sim_ret; reflexivity].
  pose proof (f_equal (fun o => match o with Some x => x | None => erase_state t1 end)
                Hr) as Hr'.
  cbv beta iota in Hr'. clear Hr. rename Hr' into Hr.
  assert (Hme : matchEnded t1 = matchEnded t2)
    by exact (f_equal matchEnded Hr).
  rewrite Hme. destruct (matchEnded t2).
  - apply sim_ret. cbn. rewrite Hr. reflexivity.
  - eapply sim_bind; [apply IH, Hr|]; intros l1 l2 Hl.
    apply sim_ret. cbn. rewrite Hr, Hl. reflexivity.
Qed.

Lemma repeatM_hd {A} n (c : M A) e s :
  hd_error (fst (repeatM (S n) c e s)) = Some (fst (c e s)).
Proof.
  cbn [repeatM]. unfold bind, ret.
  destruct (c e s) as [a s1]. destruct (repeatM n c e s1). reflexivity.
Qed.

Lemma spawnOrb_id e s :
  id (fst (spawnOrb e s)) = RandomId (math_random_id e (random_calls s)).
Proof.
  unfold spawnOrb, bind.
  destruct (rng_next e s) as [r s1] eqn:E1.
  assert (Hc : random_calls s1 = random_calls s)
    by (unfold rng_next in E1; injection E1 as _ <-; reflexivity).
  unfold random_id at 1. cbv beta iota zeta.
  destruct (rng_next e _) as [rx s2], (rng_next e s2) as [ry s3],
           (randomColor e s3) as [c s4].
  unfold ret. cbn [fst id]. rewrite Hc. reflexivity.
Qed.

Lemma createInitialState_first_orb p1 p2 m b e s :
  hd_error (map id (orbs (fst (createInitialState p1 p2 m b e s)))) =
  Some (RandomId (math_random_id e (random_calls s))).
Proof.
  unfold createInitialState. unfold bind at 1. unfold set_seed at 1.
  cbv beta iota.
  pose proof (repeatM_hd 199 spawnOrb e
                (mkStore (hashMatchId m) (random_calls s) (now_calls s))) as Hh.
  unfold bind.
  change ORB_COUNT with (S 199).
  destruct (repeatM (S 199) spawnOrb e _) as [os s2]. cbn [fst] in Hh.
  destruct (if b then _ else _) as [ais s3].
  destruct (createSnake p1 _ _ _ _ e s3) as [c1 s4].
  destruct (createSnake p2 _ _ _ _ e s4) as [c2 s5].
  unfold ret. cbn [fst orbs].
  destruct os as [|o os]; cbn [hd_error map] in Hh |- *; [discriminate|].
  assert (Ho : o = fst (spawnOrb e
                 (mkStore (hashMatchId m) (random_calls s) (now_calls s))))
    by congruence.
  rewrite Ho, spawnOrb_id. reflexivity.
Qed.

Lemma run_match_hd p1 p2 m b steps e s :
  hd_error (fst (run_match p1 p2 m b steps e s)) =
  Some (fst (createInitialState p1 p2 m b e s)).
Proof.
  unfold run_match, bind.
  destruct (createInitialState p1 p2 m b e s) as [st0 s1].
  destruct (trace st0 steps e s1). reflexivity.
Qed.

(** C1: two runs of a match with the same match identifier (hence the same
    seed) and the same sequence of ticks (each with its elapsed time and
    the inputs, any number from either player, received since the
    previous tick) produce the same sequence of game states once orb
    identifiers are forgotten, whatever the values [Math.random] and
    [Date.now] return and whatever the generator state before
    [createInitialState]. *)
Theorem run_match_reproducible_up_to_orb_ids p1 p2 matchId isBotMode steps
    e1 e2 s1 s2 :
  map erase_state (fst (run_match p1 p2 matchId isBotMode steps e1 s1)) =
  map erase_state (fst (run_match p1 p2 matchId isBotMode steps e2 s2)).
Proof.
  unfold run_match, bind.
  pose proof (createInitialState_sim p1 p2 matchId isBotMode e1 e2 s1 s2)
    as [H1 H2].
  destruct (createInitialState p1 p2 matchId isBotMode e1 s1) as [st1 t1],
           (createInitialState p1 p2 matchId isBotMode e2 s2) as [st2 t2].
  cbn [fst snd] in H1, H2.
  pose proof (trace_sim steps st1 st2 H1 e1 e2 t1 t2 H2) as [H3 _].
  destruct (trace st1 steps e1 t1) as [l1 u1], (trace st2 steps e2 t2) as [l2 u2].
  cbn [fst] in H3. unfold ret. cbn [fst map]. rewrite H1, H3. reflexivity.
Qed.

(** C1 fails as stated: with the same match identifier and no input, two
    runs whose [Math.random] calls return different strings already differ
    in the initial state, in the identifier of the first orb. *)
Lemma orb_ids_ambient_counterexample :
  fst (run_match "0xA" "0xB" "match_1" false [] env_a store0) <>
  fst (run_match "0xA" "0xB" "match_1" false [] env_b store0).
Proof.
  intros H.
  apply (f_equal (fun l => option_map (fun st => hd_error (map id (orbs st)))
                                       (hd_error l))) in H.
  rewrite !run_match_hd in H. cbn [option_map] in H.
  rewrite !createInitialState_first_orb in H. cbn in H.
  discriminate H.
Qed.
Lemma toInt32_range (z : Z) : (- 2 ^ 31 <= toInt32 z < 2 ^ 31)%Z.
Proof.
  unfold toInt32.
  pose proof (Z.mod_pos_bound z (2 ^ 32)) as B.
  destruct (2 ^ 31 <=? z mod 2 ^ 32)%Z eqn:E;
    [apply Z.leb_le in E | apply Z.leb_gt in E]; lia.
Qed.

Lemma hash_loop_range (s : string) :
  forall h, (- 2 ^ 31 <= h < 2 ^ 31)%Z -> (- 2 ^ 31 <= hash_loop h s < 2 ^ 31)%Z.
Proof.
  induction s as [|c s IH]; intros h Hh; cbn [hash_loop]; [exact Hh|].
  apply IH, toInt32_range.
Qed.

(** X1: [hashMatchId] always returns an integer between [0] and [2^31]:
    the 32-bit wrap-around of the loop keeps [hash] a signed 32-bit value
    and [Math.abs] makes it nonnegative. *)
Theorem hashMatchId_range (matchId : string) :
  (0 <= hashMatchId matchId <= 2 ^ 31)%Z.
Proof.
  unfold hashMatchId.
  pose proof (hash_loop_range matchId 0 ltac:(lia)). lia.
Qed.

(** X2: [determineWinner] does not depend on which snake is player 1:
    exchanging the two players leaves the result unchanged. *)
Theorem determineWinner_swap (st : GameState) :
  determineWinner (swap_players st) = determineWinner st.
Proof.
  unfold determineWinner, swap_players; cbn [player1 player2].
  set (a := if alive (player1 st) then length (player1 st) else 0).
  set (b := if alive (player2 st) then length (player2 st) else 0).
  destruct (Rtotal_order a b) as [H|[H|H]].
  - rewrite (Rltb_true a b H), (Rltb_false b a) by lra. reflexivity.
  - subst a. rewrite H, (Rltb_false b b) by lra.
    destruct (Z.compare_spec (score (player1 st)) (score (player2 st)));
    [| rewrite (proj2 (Z.ltb_lt _ _) H0), (proj2 (Z.ltb_ge (score (player2 st)) _)) by lia; reflexivity
     | rewrite (proj2 (Z.ltb_lt _ _) H0), (proj2 (Z.ltb_ge (score (player1 st)) _)) by lia; reflexivity].
    rewrite H0, Z.ltb_irrefl.
    destruct (Z.compare_spec (kills (player1 st)) (kills (player2 st)));
    [ rewrite H1, Z.ltb_irrefl; reflexivity
    | rewrite (proj2 (Z.ltb_lt _ _) H1), (proj2 (Z.ltb_ge (kills (player2 st)) _)) by lia; reflexivity
    | rewrite (proj2 (Z.ltb_lt _ _) H1), (proj2 (Z.ltb_ge (kills (player1 st)) _)) by lia; reflexivity].
  - rewrite (Rltb_true b a H), (Rltb_false a b) by lra. reflexivity.
Qed.

(** X3: every orb made by [spawnOrb] has a size in [1..3], a value three
    times its size, and lies at least 50 units inside the arena walls. *)
Theorem spawnOrb_ranges (e : Env) (s : Store) :
  (1 <= size (fst (spawnOrb e s)) <= 3)%Z /\
  value (fst (spawnOrb e s)) = (3 * size (fst (spawnOrb e s)))%Z /\
  50 <= ox (fst (spawnOrb e s)) < ARENA_WIDTH - 50 /\
  50 <= oy (fst (spawnOrb e s)) < ARENA_HEIGHT - 50.
Proof.
  unfold spawnOrb, bind, ret.
  destruct (rng_next_eq e s) as [r [s1 [-> Hr]]].
  destruct (random_id e s1) as [i s2].
  destruct (rng_next_eq e s2) as [rx [s3 [-> Hx]]].
  destruct (rng_next_eq e s3) as [ry [s4 [-> Hy]]].
  destruct (randomColor e s4) as [c s5]. cbn [fst size value ox oy].
  destruct (floorZ_bounds (r * MAX_ORB_SIZE)) as [F1 F2].
  unfold MAX_ORB_SIZE in *.
  assert (A : (-1 < floorZ (r * 3))%Z) by (apply lt_IZR; simpl; nra).
  assert (B : (floorZ (r * 3) < 3)%Z) by (apply lt_IZR; simpl; nra).
  unfold ARENA_WIDTH, ARENA_HEIGHT.
  repeat split; try lia; nra.
Qed.

(** X4: the body laid out by [createSnake] has seven segments placed on
    the ray opposite to the heading, segment [i] at distance [8 i] from the
    head, so consecutive segments are [SEGMENT_SIZE] apart. *)
Theorem body_from_layout (px py dir : R) :
  List.length (body_from px py dir) = 7%nat /\
  (forall i, (i < 7)%nat ->
     nth i (body_from px py dir) origin =
     mkPos (px - cos dir * (SEGMENT_SIZE * INR i)) (py - sin dir * (SEGMENT_SIZE * INR i))) /\
  (forall i, (i < 6)%nat ->
     dist2 (x (nth (S i) (body_from px py dir) origin) - x (nth i (body_from px py dir) origin))
           (y (nth (S i) (body_from px py dir) origin) - y (nth i (body_from px py dir) origin))
     = SEGMENT_SIZE).
Proof.
  assert (N : forall i, (i < 7)%nat ->
     nth i (body_from px py dir) origin =
     mkPos (px - cos dir * (SEGMENT_SIZE * INR i)) (py - sin dir * (SEGMENT_SIZE * INR i))).
  { intros i Hi. unfold body_from. rewrite segment_offsets_eq. unfold SEGMENT_SIZE.
    do 7 (destruct i as [|i]; [cbn [map nth INR]; f_equal; cbn [INR]; ring|]).
    lia. }
  split; [unfold body_from; rewrite segment_offsets_eq; reflexivity|].
  split; [exact N|].
  intros i Hi. rewrite (N i), (N (S i)) by lia. cbn [x y]. rewrite S_INR.
  unfold dist2, SEGMENT_SIZE.
  replace ((px - cos dir * (8 * (INR i + 1)) - (px - cos dir * (8 * INR i))) *
           (px - cos dir * (8 * (INR i + 1)) - (px - cos dir * (8 * INR i))) +
           (py - sin dir * (8 * (INR i + 1)) - (py - sin dir * (8 * INR i))) *
           (py - sin dir * (8 * (INR i + 1)) - (py - sin dir * (8 * INR i))))
    with (8 * 8 * (Rsqr (sin dir) + Rsqr (cos dir))) by (unfold Rsqr; ring).
  rewrite sin2_cos2, Rmult_1_r. apply sqrt_square. lra.
Qed.

(** X5: a snake after [respawnSnake] is alive, has the full grace period
    and no boost, heads in its target direction (an angle in [[0, 2 pi)]),
    and its head lies at least 200 units inside the arena walls. *)
Theorem respawnSnake_placement (S : Snake) (e : Env) (s : Store) :
  alive (fst (respawnSnake S e s)) = true /\
  graceTime (fst (respawnSnake S e s)) = RESPAWN_GRACE_MS /\
  boostTime (fst (respawnSnake S e s)) = 0 /\
  direction (fst (respawnSnake S e s)) = targetDirection (fst (respawnSnake S e s)) /\
  0 <= direction (fst (respawnSnake S e s)) < 2 * PI /\
  exists h t, segments (fst (respawnSnake S e s)) = h :: t /\
    200 <= x h < ARENA_WIDTH - 200 /\ 200 <= y h < ARENA_HEIGHT - 200.
Proof.
  unfold respawnSnake, bind, ret.
  destruct (rng_next_eq e s) as [rx [s1 [-> Hx]]].
  destruct (rng_next_eq e s1) as [ry [s2 [-> Hy]]].
  destruct (rng_next_eq e s2) as [rd [s3 [-> Hd]]].
  cbn [fst alive graceTime boostTime direction targetDirection segments].
  pose proof PI_RGT_0.
  do 4 (split; [reflexivity || nra|]). split; [nra|].
  destruct (body_from_head (200 + rx * (ARENA_WIDTH - 400)) (200 + ry * (ARENA_HEIGHT - 400))
              (rd * 2 * PI)) as [t ->].
  do 2 eexists; split; [reflexivity|]. cbn [x y]. unfold ARENA_WIDTH, ARENA_HEIGHT.
  rewrite !Rmult_0_r, !Rminus_0_r. split; nra.
Qed.

(** X6: after [updateSnake] on a snake of nonnegative [length], its speed
    lies between [30] (an AI snake at the length-slowdown floor, halved
    near a wall) and [300] (boosting). *)
Theorem updateSnake_speed_range (s s' : Snake) (deltaMs : R) :
  updateSnake s deltaMs = Some s' -> 0 <= length s ->
  30 <= speed s' <= 300.
Proof.
  unfold updateSnake; destruct (segments s) as [|hd0 rest]; [discriminate|].
  intros H Hl; injection H as <-. cbn [speed].
  unfold BASE_SPEED, BOOST_MULTIPLIER, AI_SPEED, INITIAL_LENGTH.
  set (f := Rmax 0.5 (1 - (length s - 50) / 500)).
  assert (F : 0.5 <= f <= 1.1).
  { unfold f, Rmax. destruct (Rle_dec _ _); split; try lra. }
  destruct (Rlt_dec 0 (boostTime s)); [|destruct (is_ai_address (address s))];
  match goal with |- context [if ?b then _ else _] => destruct b end; lra.
Qed.

Lemma updateSnake_speed_range_witness :
  exists s', updateSnake turn_snake 100 = Some s' /\ 0 <= length turn_snake /\
  30 <= speed s' <= 300.
Proof.
  eexists; split; [reflexivity|].
  split; [cbn [length turn_snake]; lra|].
  apply (updateSnake_speed_range turn_snake _ 100);
    [reflexivity | cbn [length turn_snake]; lra].
Defined.

Lemma add_unique_nodup (k : nat) (l : list nat) : NoDup l -> NoDup (add_unique k l).
Proof.
  unfold add_unique. destruct (existsb (Nat.eqb k) l) eqn:E; [auto|].
  intro H. apply NoDup_app; [exact H | constructor; [intros []|constructor] |].
  intros a Ha [<-|[]]. 
  assert (existsb (Nat.eqb k) l = true) by (apply existsb_exists; exists k; split; [exact Ha | apply Nat.eqb_refl]).
  congruence.
Qed.

Lemma scan_pair_ok a A d D acc : scan_ok acc -> scan_ok (scan_pair a A d D acc).
Proof.
  destruct acc as [toKill killers]. intros [N K]. unfold scan_pair.
  destruct (Nat.eqb d a || negb (eligible D)) eqn:Eda; [split; assumption|].
  apply orb_false_iff in Eda as [Eda _]. apply Nat.eqb_neq in Eda.
  cbv zeta.
  destruct (Rlt_dec _ _); [split; assumption|].
  destruct (Rlt_dec _ _).
  { split; [cbn [fst]; apply add_unique_nodup, add_unique_nodup, N | exact K]. }
  destruct (existsb _ _); [|split; assumption].
  destruct (existsb (Nat.eqb a) toKill) eqn:Ea; [split; assumption|].
  split; cbn [fst snd].
  - apply NoDup_app; [exact N | constructor; [intros []|constructor] |].
    intros b Hb [<-|[]].
    assert (existsb (Nat.eqb a) toKill = true)
      by (apply existsb_exists; exists a; split; [exact Hb | apply Nat.eqb_refl]).
    congruence.
  - intros k d' Hk. destruct (Nat.eqb k a) eqn:Eka.
    + apply Nat.eqb_eq in Eka. injection Hk as <-. lia.
    + exact (K k d' Hk).
Qed.

Lemma scan_defenders_ok a A : forall ds d acc, scan_ok acc -> scan_ok (scan_defenders a A d ds acc).
Proof.
  induction ds as [|D ds IH]; intros d acc H; cbn [scan_defenders]; [exact H|].
  apply IH, scan_pair_ok, H.
Qed.

Lemma scan_attackers_ok all : forall atk a acc, scan_ok acc -> scan_ok (scan_attackers all a atk acc).
Proof.
  induction atk as [|A atk IH]; intros a acc H; cbn [scan_attackers]; [exact H|].
  apply IH. destruct (eligible A); [apply scan_defenders_ok|]; exact H.
Qed.

(** X7: the collision scan of [checkSnakeCollisions] lists each dead
    snake at most once and never records a snake as its own killer. *)
Theorem collision_scan_no_dup_no_self (all : list Snake) :
  NoDup (fst (collision_scan all)) /\
  (forall k d, snd (collision_scan all) k = Some d -> k <> d).
Proof.
  apply scan_attackers_ok. split; [constructor | discriminate].
Qed.

Lemma ceil_step (d step : nat) :
  (1 <= step)%nat -> (1 <= d)%nat ->
  ((d + step - 1) / step = S ((d - step + step - 1) / step))%nat.
Proof.
  intros Hs Hd. destruct (Nat.le_gt_cases step d) as [H|H].
  - replace (d + step - 1)%nat with ((d - step + step - 1) + 1 * step)%nat by lia.
    rewrite Nat.div_add by lia. lia.
  - replace (d - step + step - 1)%nat with (step - 1)%nat by lia.
    rewrite (Nat.div_small (step - 1)) by lia.
    symmetry; apply (Nat.div_unique _ _ _ (d - 1)); lia.
Qed.

Lemma segment_orbs_count (s : Snake) (step : nat) (e : Env) :
  (1 <= step)%nat ->
  forall fuel i st, (List.length (segments s) - i <= fuel)%nat ->
  List.length (fst (segment_orbs s step i fuel e st)) =
    ((List.length (segments s) - i + step - 1) / step)%nat /\
  Forall (fun o => size o = 2%Z /\ value o = 6%Z /\ ocolor o = color s)
    (fst (segment_orbs s step i fuel e st)).
Proof.
  intros Hs fuel; induction fuel as [|f IH]; intros i st Hf; cbn [segment_orbs].
  - unfold ret; cbn [fst List.length].
    replace (List.length (segments s) - i)%nat with 0%nat by lia.
    rewrite Nat.div_small by lia. split; [reflexivity | constructor].
  - destruct (Nat.ltb i (List.length (segments s))) eqn:Ei.
    + apply Nat.ltb_lt in Ei.
      unfold bind. destruct (date_now_M e st) as [now s1].
      destruct (rng_next e s1) as [rx s2]. destruct (rng_next e s2) as [ry s3].
      cbv zeta.
      specialize (IH (i + step)%nat s3 ltac:(lia)).
      destruct (segment_orbs s step (i + step) f e s3) as [rest s4].
      cbn [fst] in IH. destruct IH as [IH1 IH2].
      unfold ret; cbn [fst List.length]. split.
      * rewrite IH1, (ceil_step (List.length (segments s) - i) step) by lia.
        do 3 f_equal. lia.
      * constructor; [cbn; auto | exact IH2].
    + apply Nat.ltb_ge in Ei. unfold ret; cbn [fst List.length].
      replace (List.length (segments s) - i)%nat with 0%nat by lia.
      rewrite Nat.div_small by lia. split; [reflexivity | constructor].
Qed.

(** ** C6: head-to-head collisions in any roster *)



















(** X8: [convertSnakeToOrbs] drops nothing for a snake without segments;
    otherwise it drops a size-3, value-9 orb at the head, then one size-2,
    value-6 orb every [step] segments after it, all in the snake's color. *)
Theorem convertSnakeToOrbs_shape (S : Snake) (e : Env) (s : Store) :
  (segments S = [] -> fst (convertSnakeToOrbs S e s) = []) /\
  (forall h t, segments S = h :: t ->
     let step := Nat.max 1 (Nat.div (List.length (h :: t)) 20) in
     exists o rest, fst (convertSnakeToOrbs S e s) = o :: rest /\
       ox o = x h /\ oy o = y h /\ size o = 3%Z /\ value o = 9%Z /\
       ocolor o = color S /\
       List.length rest = ((List.length t + step - 1) / step)%nat /\
       Forall (fun o' => size o' = 2%Z /\ value o' = 6%Z /\ ocolor o' = color S) rest).
Proof.
  split.
  - unfold convertSnakeToOrbs. intros ->. reflexivity.
  - intros h t Hs step. unfold convertSnakeToOrbs. rewrite Hs. unfold bind.
    destruct (date_now_M e s) as [now s1]. cbv zeta.
    pose proof (segment_orbs_count S step e ltac:(unfold step; lia)
                  (List.length (h :: t)) 1 s1) as C.
    rewrite Hs in C. specialize (C ltac:(cbn; lia)).
    fold step.
    destruct (segment_orbs S step 1 (List.length (h :: t)) e s1) as [rest s2].
    cbn [fst] in C. destruct C as [C1 C2].
    unfold ret. cbn [fst]. do 2 eexists. split; [reflexivity|].
    cbn [ox oy size value ocolor]. repeat split; try assumption.
    rewrite C1. cbn [List.length]. f_equal. lia.
Qed.

Lemma eat_conservation (h : Position) (s : Snake) : forall os,
  address (fst (eat h os s)) = address s /\
  incl (snd (eat h os s)) os /\
  (List.length (snd (eat h os s)) <= List.length os)%nat /\
  score (fst (eat h os s)) = (score s + ORB_SCORE_INCREMENT *
     (Z.of_nat (List.length os) - Z.of_nat (List.length (snd (eat h os s)))))%Z /\
  length (fst (eat h os s)) = length s + (orbs_value os - orbs_value (snd (eat h os s))).
Proof.
  induction os as [|o os IH]; cbn [eat].
  - cbn [fst snd List.length orbs_value]. unfold orbs_value; cbn [fold_right].
    repeat split; [apply incl_refl | lia | lia | ring].
  - destruct (eat h os s) as [s1 kept]. cbn [fst snd] in IH.
    destruct IH as [A [I [L [Sc Ln]]]].
    destruct (Rlt_dec _ _); cbn [fst snd with_length_score address score length List.length orbs_value fold_right].
    + repeat split.
      * exact A.
      * intros q Hq; right; apply I, Hq.
      * lia.
      * rewrite Sc. unfold ORB_SCORE_INCREMENT. lia.
      * rewrite Ln. unfold orbs_value; cbn [fold_right]. ring.
    + repeat split.
      * exact A.
      * intros q [<-|Hq]; [left; reflexivity | right; apply I, Hq].
      * lia.
      * rewrite Sc. lia.
      * rewrite Ln. unfold orbs_value; cbn [fold_right]. ring.
Qed.

(** X9: [checkOrbCollisions] keeps the snakes in order, only removes orbs,
    adds [ORB_SCORE_INCREMENT] to the total score per removed orb, and adds
    the removed orbs' values to the total length. *)
Theorem checkOrbCollisions_conservation (ss : list Snake) : forall (os : list Orb),
  map address (fst (checkOrbCollisions ss os)) = map address ss /\
  incl (snd (checkOrbCollisions ss os)) os /\
  total_score (fst (checkOrbCollisions ss os)) =
    (total_score ss + ORB_SCORE_INCREMENT *
     (Z.of_nat (List.length os) - Z.of_nat (List.length (snd (checkOrbCollisions ss os)))))%Z /\
  total_length (fst (checkOrbCollisions ss os)) =
    total_length ss + (orbs_value os - orbs_value (snd (checkOrbCollisions ss os))).
Proof.
  induction ss as [|S ss IH]; intros os; cbn [checkOrbCollisions].
  - cbn [fst snd map total_score total_length fold_right].
    unfold total_score, total_length; cbn [fold_right].
    repeat split; [apply incl_refl | lia | ring].
  - assert (Hs : exists S1 os1,
       (match alive S, segments S with
        | true, head :: _ => eat head os S
        | _, _ => (S, os)
        end) = (S1, os1) /\
       address S1 = address S /\ incl os1 os /\
       score S1 = (score S + ORB_SCORE_INCREMENT *
                   (Z.of_nat (List.length os) - Z.of_nat (List.length os1)))%Z /\
       length S1 = length S + (orbs_value os - orbs_value os1)).
    { destruct (alive S), (segments S) as [|hd t];
        try (do 2 eexists; split; [reflexivity|]; repeat split;
             [apply incl_refl | lia | ring]).
      destruct (eat_conservation hd S os) as [A [I [_ [Sc Ln]]]].
      destruct (eat hd os S) as [S1 os1]. do 2 eexists; split; [reflexivity|].
      auto. }
    destruct Hs as [S1 [os1 [E [A [I [Sc Ln]]]]]]. rewrite E.
    specialize (IH os1).
    destruct (checkOrbCollisions ss os1) as [ss2 os2]. cbn [fst snd] in IH |- *.
    destruct IH as [A2 [I2 [Sc2 Ln2]]].
    cbn [map total_score total_length fold_right].
    repeat split.
    + rewrite A, A2. reflexivity.
    + intros q Hq. apply I, I2, Hq.
    + unfold total_score in *. cbn [fold_right]. rewrite Sc, Sc2.
      unfold ORB_SCORE_INCREMENT. lia.
    + unfold total_length in *. cbn [fold_right]. rewrite Ln, Ln2. ring.
Qed.

Lemma processTick_clock (st st' : GameState) (dms : R) (e : Env) (s s' : Store) :
  processTick st dms e s = (Some st', s') ->
  tick st' = (tick st + 1)%Z /\
  gameTime st' = gameTime st + Rmin (Rmax dms 0) 100 /\
  (matchEnded st' = true -> matchEnded st = true \/ MATCH_DURATION_MS <= gameTime st').
Proof.
  unfold processTick; cbv zeta.
  destruct (Rleb MATCH_DURATION_MS _ && negb (matchEnded st)) eqn:C.
  { unfold ret; intro H; injection H as <- _. cbn [tick gameTime matchEnded].
    apply andb_true_iff in C as [C _]. apply Rleb_spec in C.
    repeat split; auto. }
  unfold bind.
  destruct (respawn_phase _ (getAllSnakes st) e s) as [all1 s1].
  destruct (ai_phase all1 (orbs st) e s1) as [all2 s2].
  destruct (move_phase _ all2) as [all3|]; [|unfold ret; intro H; discriminate].
  destruct (checkOrbCollisions all3 (orbs st)) as [all4 os4].
  destruct (checkSnakeCollisions _ all4 os4 e s2) as [[all5 os5] s5].
  match goal with |- context [if ?b then _ else _] => destruct b end;
    [destruct (spawnOrb e s5) as [o s6]|];
    intro H; unfold ret in H; cbn beta iota in H; injection H as <- _;
    cbn [tick gameTime matchEnded]; repeat split; auto.
Qed.

Lemma apply_input_clock (st : GameState) (inp : Input) :
  tick (apply_input st inp) = tick st /\
  gameTime (apply_input st inp) = gameTime st /\
  matchEnded (apply_input st inp) = matchEnded st.
Proof.
  destruct inp; unfold apply_input, apply_to_player; try (repeat split; reflexivity);
    repeat match goal with |- context [if ?b then _ else _] => destruct b end;
    repeat split; reflexivity.
Qed.

Lemma apply_inputs_clock (st : GameState) (inps : list Input) :
  tick (apply_inputs st inps) = tick st /\
  gameTime (apply_inputs st inps) = gameTime st /\
  matchEnded (apply_inputs st inps) = matchEnded st.
Proof.
  unfold apply_inputs; revert st; induction inps as [|inp inps IH]; intro st;
    cbn [fold_left]; [auto|].
  destruct (IH (apply_input st inp)) as [A [B C]].
  destruct (apply_input_clock st inp) as [A' [B' C']].
  rewrite A, B, C, A', B', C'. auto.
Qed.

Lemma clamp_delta (dms : R) : 0 <= Rmin (Rmax dms 0) 100 <= 100.
Proof. unfold Rmin, Rmax; repeat destruct (Rle_dec _ _); lra. Qed.

Lemma trace_clock (steps : list (R * list Input)) : forall st n e s,
  tick st = Z.of_nat n -> 0 <= gameTime st <= 100 * IZR (tick st) ->
  matchEnded st = false ->
  forall i st', nth_error (fst (trace st steps e s)) i = Some st' ->
    tick st' = Z.of_nat (S n + i) /\ 0 <= gameTime st' <= 100 * IZR (tick st') /\
    (matchEnded st' = true -> MATCH_DURATION_MS <= gameTime st').
Proof.
  induction steps as [|[dms inps] steps IH]; intros st n e s Ht Hg Hm i st' Hi;
    cbn [trace] in Hi.
  { unfold ret in Hi; cbn [fst] in Hi; destruct i; discriminate. }
  unfold bind in Hi.
  destruct (processTick (apply_inputs st inps) dms e s) as [[st1|] s1] eqn:E;
    [|unfold ret in Hi; cbn [fst] in Hi; destruct i; discriminate].
  destruct (apply_inputs_clock st inps) as [A1 [A2 A3]].
  destruct (processTick_clock _ _ _ _ _ _ E) as [T [G M]].
  rewrite A1 in T; rewrite A2 in G; rewrite A3, Hm in M.
  pose proof (clamp_delta dms) as D.
  assert (C1 : tick st1 = Z.of_nat (S n)) by (rewrite T, Ht; lia).
  assert (C2 : 0 <= gameTime st1 <= 100 * IZR (tick st1)).
  { rewrite G, T, plus_IZR. lra. }
  assert (C3 : matchEnded st1 = true -> MATCH_DURATION_MS <= gameTime st1).
  { intro H; destruct (M H) as [H'|H']; [discriminate | exact H']. }
  destruct (matchEnded st1) eqn:Me.
  - unfold ret in Hi; cbn [fst] in Hi. destruct i as [|[|i]]; cbn in Hi; try discriminate.
    injection Hi as <-. rewrite Nat.add_0_r. auto.
  - destruct (trace st1 steps e s1) as [rest s2] eqn:Tr.
    unfold ret in Hi; cbn [fst] in Hi. destruct i as [|i]; cbn [nth_error] in Hi.
    + injection Hi as <-. rewrite Nat.add_0_r.
      split; [exact C1|]. split; [exact C2|]. intro H; congruence.
    + pose proof (IH st1 (S n) e s1 C1 C2 Me i st') as R. rewrite Tr in R.
      cbn [fst] in R. specialize (R Hi). rewrite <- Nat.add_succ_comm. exact R.
Qed.

Lemma createInitialState_clock p1 p2 m b e s :
  tick (fst (createInitialState p1 p2 m b e s)) = 0%Z /\
  gameTime (fst (createInitialState p1 p2 m b e s)) = 0 /\
  matchEnded (fst (createInitialState p1 p2 m b e s)) = false.
Proof.
  unfold createInitialState, bind.
  destruct (set_seed _ e s) as [u s1].
  destruct (repeatM ORB_COUNT spawnOrb e s1) as [os s2].
  destruct (if b then _ else _) as [ais s3].
  destruct (createSnake p1 _ _ _ _ e s3) as [c1 s4].
  destruct (createSnake p2 _ _ _ _ e s4) as [c2 s5].
  unfold ret; cbn [fst tick gameTime matchEnded]. auto.
Qed.

Lemma run_match_states p1 p2 m b steps e s :
  fst (run_match p1 p2 m b steps e s) =
  fst (createInitialState p1 p2 m b e s) ::
  fst (trace (fst (createInitialState p1 p2 m b e s)) steps e
             (snd (createInitialState p1 p2 m b e s))).
Proof.
  unfold run_match, bind.
  destruct (createInitialState p1 p2 m b e s) as [st0 s1].
  destruct (trace st0 steps e s1) as [l s0] eqn:Tr.
  unfold ret. cbn [fst snd]. rewrite Tr. reflexivity.
Qed.

Lemma tick_bound_from_time (t : Z) (g : R) :
  0 <= g <= 100 * IZR t -> MATCH_DURATION_MS <= g -> (1200 <= t)%Z.
Proof. unfold MATCH_DURATION_MS. intros B C. apply le_IZR. lra. Qed.

(** X10: in the sequence of states of a match, the [i]-th state has
    [tick = i], a game time between [0] and [100 * tick] milliseconds, and
    can only be ended once [tick] reaches [1200]. *)
Theorem run_match_clock (p1 p2 matchId : string) (isBotMode : bool)
    (steps : list (R * list Input)) (e : Env) (s : Store) (i : nat) :
  match nth_error (fst (run_match p1 p2 matchId isBotMode steps e s)) i with
  | Some st =>
      tick st = Z.of_nat i /\ 0 <= gameTime st <= 100 * IZR (tick st) /\
      (matchEnded st = true -> (1200 <= tick st)%Z)
  | None => True
  end.
Proof.
  destruct (nth_error _ i) as [st|] eqn:Hi; [|exact I].
  rewrite run_match_states in Hi.
  pose proof (createInitialState_clock p1 p2 matchId isBotMode e s) as [T0 [G0 M0]].
  set (st0 := fst (createInitialState p1 p2 matchId isBotMode e s)) in *.
  set (s1 := snd (createInitialState p1 p2 matchId isBotMode e s)) in *.
  clearbody st0 s1.
  destruct i as [|i]; cbn [nth_error] in Hi.
  - injection Hi as <-. rewrite T0, G0, M0.
    split; [reflexivity|]. split; [lra | discriminate].
  - assert (G1 : 0 <= gameTime st0 <= 100 * IZR (tick st0)) by (rewrite G0, T0; lra).
    destruct (trace_clock steps st0 0%nat e s1 T0 G1 M0 i st Hi) as [A [B C]].
    split; [exact A|]. split; [exact B|].
    intro H. exact (tick_bound_from_time _ _ B (C H)).
Qed.


Lemma substring_hex (n : nat) : forall s,
  substring 0 (2 * n) (hex_of_string s) = hex_of_string (substring 0 n s).
Proof.
  induction n as [|n IH]; intros s; [destruct (hex_of_string s), s; reflexivity|].
  destruct s as [|c s]; [reflexivity|].
  replace (2 * S n)%nat with (S (S (2 * n))) by lia.
  cbn [hex_of_string substring]. rewrite IH. reflexivity.
Qed.

Lemma substring_append_prefix (n : nat) : forall a b,
  (n <= String.length a)%nat -> substring 0 n (a ++ b) = substring 0 n a.
Proof.
  induction n as [|n IH]; intros a b H.
  - destruct (a ++ b), a; reflexivity.
  - destruct a as [|c a]; cbn in H; [lia|].
    cbn [String.append substring]. rewrite IH by lia. reflexivity.
Qed.

(** X11: when the match identifier has at least eight characters, the
    proof hash written by [updateLeaderboard] is ["0x"], the hexadecimal
    code of the identifier's first eight characters, and ["..."]: the
    value of [Date.now()] never reaches it. *)
Theorem proof_hash_prefix (matchId : string) (now : Z) :
  (8 <= String.length matchId)%nat ->
  proof_hash matchId now = "0x" ++ hex_of_string (substring 0 8 matchId) ++ "...".
Proof.
  intro H. unfold proof_hash.
  rewrite (substring_hex 8), substring_append_prefix by exact H. reflexivity.
Qed.

Lemma proof_hash_prefix_witness :
  (8 <= String.length "match_1700000000000_abcde")%nat /\
  proof_hash "match_1700000000000_abcde" 1700000000123 =
  "0x" ++ hex_of_string (substring 0 8 "match_1700000000000_abcde") ++ "...".
Proof.
  split; [cbn; lia|]. apply proof_hash_prefix. cbn; lia.
Defined.

Lemma lb_get_set (k k' : string) (v : LeaderboardEntry) (m : Leaderboard) :
  lb_get k (lb_set k' v m) = if String.eqb k k' then Some v else lb_get k m.
Proof.
  induction m as [|[k0 v0] m IH]; cbn [lb_set lb_get].
  - destruct (String.eqb k k'); reflexivity.
  - destruct (String.eqb k' k0) eqn:E.
    + apply String.eqb_eq in E; subst k0. cbn [lb_get].
      destruct (String.eqb k k'); reflexivity.
    + cbn [lb_get]. rewrite IH.
      destruct (String.eqb k k0) eqn:E1, (String.eqb k k') eqn:E2; try reflexivity.
      apply String.eqb_eq in E1, E2; subst. rewrite String.eqb_refl in E.
      discriminate.
Qed.

Lemma updateLeaderboard_fst (fs : FinalGameState) (lb : Leaderboard) (e : Env) (s : Store) :
  fst (updateLeaderboard fs lb e s) =
  (let now0 := date_now e (now_calls s) in
   let lb1 := match counted (f_winner fs) with
              | Some w => lb_set w (record_win (entry_or_new w lb) w fs
                                      (proof_hash (f_matchId fs) now0)
                                      (date_now e (S (now_calls s)))) lb
              | None => lb
              end in
   let n2 := match counted (f_winner fs) with
             | Some _ => S (S (now_calls s))
             | None => S (now_calls s)
             end in
   match counted (f_loser fs) with
   | Some l => lb_set l (record_loss (entry_or_new l lb1) l fs (date_now e n2)) lb1
   | None => lb1
   end).
Proof.
  unfold updateLeaderboard, bind, date_now_M, ret. cbn beta iota zeta.
  destruct (counted (f_winner fs)), (counted (f_loser fs)); reflexivity.
Qed.

Lemma counted_some (p : option string) (a : string) :
  counted p = Some a -> p = Some a /\ a <> "" /\ a <> "BOT".
Proof.
  unfold counted. destruct p as [b|]; [|discriminate].
  destruct (String.eqb b "") eqn:E1, (String.eqb b "BOT") eqn:E2; cbn;
    try discriminate.
  intro H; injection H as <-. apply String.eqb_neq in E1, E2. auto.
Qed.

(** X12: [updateLeaderboard] changes no entry other than those of the
    counted winner and loser; in particular the entries under ["BOT"] and
    under the empty address are never created nor changed. *)
Theorem updateLeaderboard_untouched (fs : FinalGameState) (lb : Leaderboard)
    (e : Env) (s : Store) :
  (forall k, counted (f_winner fs) <> Some k -> counted (f_loser fs) <> Some k ->
     lb_get k (fst (updateLeaderboard fs lb e s)) = lb_get k lb) /\
  lb_get "BOT" (fst (updateLeaderboard fs lb e s)) = lb_get "BOT" lb /\
  lb_get "" (fst (updateLeaderboard fs lb e s)) = lb_get "" lb.
Proof.
  assert (G : forall k, counted (f_winner fs) <> Some k -> counted (f_loser fs) <> Some k ->
     lb_get k (fst (updateLeaderboard fs lb e s)) = lb_get k lb).
  { intros k Hw Hl. rewrite updateLeaderboard_fst. cbv zeta.
    destruct (counted (f_winner fs)) as [w|], (counted (f_loser fs)) as [l|];
      rewrite ?lb_get_set;
      repeat match goal with
             | |- context [String.eqb k ?a] =>
                 let E := fresh "E" in
                 destruct (String.eqb k a) eqn:E;
                 [apply String.eqb_eq in E; subst; congruence|]
             end; reflexivity. }
  split; [exact G|].
  split; apply G; intro H;
    destruct (counted_some _ _ H) as [_ [? ?]]; congruence.
Qed.

Lemma lb_ok_iff (lb : Leaderboard) :
  lb_ok lb <-> NoDup (map fst lb) /\ Forall (fun kv => entry_ok (fst kv) (snd kv)) lb.
Proof. unfold lb_ok, entry_ok. split; intro H; exact H. Qed.

Lemma lb_set_keys (k : string) (v : LeaderboardEntry) (m : Leaderboard) (x : string) :
  In x (map fst (lb_set k v m)) <-> x = k \/ In x (map fst m).
Proof.
  induction m as [|[k0 v0] m IH]; cbn [lb_set map fst].
  - cbn. split; [intros [<-|[]]|intros [->|[]]]; left; reflexivity.
  - destruct (String.eqb k k0) eqn:E.
    + apply String.eqb_eq in E; subst k0. cbn [map fst In].
      split; [intros [<-|H]; auto|intros [->|[<-|H]]; auto].
    + cbn [map fst In]. rewrite IH. tauto.
Qed.

Lemma lb_set_nodup (k : string) (v : LeaderboardEntry) (m : Leaderboard) :
  NoDup (map fst m) -> NoDup (map fst (lb_set k v m)).
Proof.
  induction m as [|[k0 v0] m IH]; cbn [lb_set map fst]; intro H.
  - constructor; [intros []|constructor].
  - inversion H as [|? ? Hn Hd]; subst.
    destruct (String.eqb k k0) eqn:E; cbn [map fst].
    + constructor; assumption.
    + constructor; [|exact (IH Hd)].
      rewrite lb_set_keys. intros [->|Hi]; [rewrite String.eqb_refl in E; discriminate|].
      exact (Hn Hi).
Qed.

Lemma lb_set_forall (k : string) (v : LeaderboardEntry) (m : Leaderboard) :
  Forall (fun kv => entry_ok (fst kv) (snd kv)) m -> entry_ok k v ->
  Forall (fun kv => entry_ok (fst kv) (snd kv)) (lb_set k v m).
Proof.
  induction m as [|[k0 v0] m IH]; cbn [lb_set]; intros H Hv.
  - constructor; [exact Hv|constructor].
  - inversion H as [|? ? H0 Hm]; subst.
    destruct (String.eqb k k0) eqn:E.
    + apply String.eqb_eq in E; subst k0. constructor; [exact Hv|exact Hm].
    + constructor; [exact H0|exact (IH Hm Hv)].
Qed.

Lemma lb_get_ok (k : string) (m : Leaderboard) (v : LeaderboardEntry) :
  Forall (fun kv => entry_ok (fst kv) (snd kv)) m -> lb_get k m = Some v ->
  entry_ok k v.
Proof.
  induction m as [|[k0 v0] m IH]; cbn [lb_get]; intros H Hg; [discriminate|].
  inversion H as [|? ? H0 Hm]; subst.
  destruct (String.eqb k k0) eqn:E.
  - apply String.eqb_eq in E; subst k0. injection Hg as <-. exact H0.
  - exact (IH Hm Hg).
Qed.

Lemma entry_or_new_ok (k : string) (m : Leaderboard) :
  Forall (fun kv => entry_ok (fst kv) (snd kv)) m -> entry_ok k (entry_or_new k m).
Proof.
  intro H. unfold entry_or_new. destruct (lb_get k m) as [v|] eqn:Hg.
  - exact (lb_get_ok k m v H Hg).
  - unfold entry_ok; cbn. repeat split; lia.
Qed.

Lemma record_win_ok k ex fs h t :
  entry_ok k ex -> entry_ok k (record_win ex k fs h t).
Proof.
  unfold entry_ok, record_win; cbn [entry_address wins losses totalGames].
  intros (A & B & C & D). repeat split; [exact A|lia..].
Qed.

Lemma record_loss_ok k ex fs t :
  entry_ok k ex -> entry_ok k (record_loss ex k fs t).
Proof.
  unfold entry_ok, record_loss; cbn [entry_address wins losses totalGames].
  intros (A & B & C & D). repeat split; [exact A|lia..].
Qed.

Lemma updateLeaderboard_keeps_ok (fs : FinalGameState) (lb : Leaderboard)
    (e : Env) (s : Store) :
  lb_ok lb -> lb_ok (fst (updateLeaderboard fs lb e s)).
Proof.
  rewrite !lb_ok_iff. intros [Hd Hf].
  rewrite updateLeaderboard_fst. cbv zeta.
  set (lb1 := match counted (f_winner fs) with
              | Some w => _ | None => lb end).
  assert (H1 : NoDup (map fst lb1) /\ Forall (fun kv => entry_ok (fst kv) (snd kv)) lb1).
  { unfold lb1. destruct (counted (f_winner fs)) as [w|]; [|auto].
    split; [apply lb_set_nodup; exact Hd|].
    apply lb_set_forall; [exact Hf|].
    apply record_win_ok, entry_or_new_ok, Hf. }
  clearbody lb1. destruct H1 as [Hd1 Hf1].
  destruct (counted (f_loser fs)) as [l|]; [|auto].
  split; [apply lb_set_nodup; exact Hd1|].
  apply lb_set_forall; [exact Hf1|].
  apply record_loss_ok, entry_or_new_ok, Hf1.
Qed.

(** X13: [updateLeaderboard] keeps a well-formed leaderboard well formed:
    keys stay distinct, each entry stays under its own address, and
    [totalGames = wins + losses] with nonnegative counts. *)
Theorem updateLeaderboard_ok (fs : FinalGameState) (lb : Leaderboard)
    (e : Env) (s : Store) :
  lb_ok lb -> lb_ok (fst (updateLeaderboard fs lb e s)).
Proof. apply updateLeaderboard_keeps_ok. Qed.

Lemma sample_board_ok : lb_ok sample_board.
Proof.
  split; [repeat constructor; intros []|].
  repeat constructor; cbn; lia.
Qed.

Lemma updateLeaderboard_ok_witness :
  lb_ok sample_board /\
  lb_ok (fst (updateLeaderboard sample_final sample_board env0 store0)).
Proof.
  split; [exact sample_board_ok|]. apply updateLeaderboard_ok. exact sample_board_ok.
Defined.

(** X14: when the match has a counted winner [w] who is not also the
    counted loser, [updateLeaderboard] stores under [w] its previous entry
    (or a fresh one) with one more win and one more game, the match's kills
    added, the best length and best score raised to the match's values,
    and the proof hash computed from the match identifier and the first
    [Date.now()]; its losses are unchanged. *)
Theorem updateLeaderboard_winner_entry (fs : FinalGameState) (lb : Leaderboard)
    (e : Env) (s : Store) (w : string) :
  counted (f_winner fs) = Some w -> counted (f_loser fs) <> Some w ->
  exists ent,
    lb_get w (fst (updateLeaderboard fs lb e s)) = Some ent /\
    entry_address ent = entry_address (entry_or_new w lb) /\
    wins ent = (wins (entry_or_new w lb) + 1)%Z /\
    losses ent = losses (entry_or_new w lb) /\
    totalGames ent = (totalGames (entry_or_new w lb) + 1)%Z /\
    entry_kills ent = (entry_kills (entry_or_new w lb) + prop_or0Z w (finalKills fs))%Z /\
    bestLength ent = Rmax (bestLength (entry_or_new w lb)) (prop_or0R w (finalLengths fs)) /\
    bestScore ent = Z.max (bestScore (entry_or_new w lb)) (prop_or0Z w (finalScores fs)) /\
    lastProofHash ent = proof_hash (f_matchId fs) (date_now e (now_calls s)).
Proof.
  intros Hw Hl. rewrite updateLeaderboard_fst. cbv zeta. rewrite Hw.
  eexists; split.
  - destruct (counted (f_loser fs)) as [l|] eqn:El.
    + rewrite lb_get_set.
      destruct (String.eqb w l) eqn:E; [apply String.eqb_eq in E; subst; congruence|].
      rewrite lb_get_set, String.eqb_refl. reflexivity.
    + rewrite lb_get_set, String.eqb_refl. reflexivity.
  - unfold record_win; cbn [entry_address wins losses totalGames entry_kills
                            bestLength bestScore lastProofHash].
    repeat split.
Qed.

Lemma updateLeaderboard_winner_entry_witness :
  counted (f_winner sample_final) = Some "0xA" /\
  counted (f_loser sample_final) <> Some "0xA" /\
  exists ent,
    lb_get "0xA" (fst (updateLeaderboard sample_final sample_board env0 store0)) = Some ent /\
    entry_address ent = entry_address (entry_or_new "0xA" sample_board) /\
    wins ent = (wins (entry_or_new "0xA" sample_board) + 1)%Z /\
    losses ent = losses (entry_or_new "0xA" sample_board) /\
    totalGames ent = (totalGames (entry_or_new "0xA" sample_board) + 1)%Z /\
    entry_kills ent = (entry_kills (entry_or_new "0xA" sample_board) +
                       prop_or0Z "0xA" (finalKills sample_final))%Z /\
    bestLength ent = Rmax (bestLength (entry_or_new "0xA" sample_board))
                          (prop_or0R "0xA" (finalLengths sample_final)) /\
    bestScore ent = Z.max (bestScore (entry_or_new "0xA" sample_board))
                          (prop_or0Z "0xA" (finalScores sample_final)) /\
    lastProofHash ent = proof_hash (f_matchId sample_final) (date_now env0 (now_calls store0)).
Proof.
  split; [reflexivity|]. split; [discriminate|].
  apply updateLeaderboard_winner_entry; [reflexivity|discriminate].
Defined.

(** X15: when the match has a counted loser [l] who is not also the
    counted winner and whose address is not the name of an
    [Object.prototype] property, [updateLeaderboard] stores under [l] its previous entry
    (or a fresh one) with one more loss and one more game, the match's
    kills added and the bests raised; its wins and its proof hash are left
    unchanged (so a player who has never won keeps an empty proof hash). *)
Theorem updateLeaderboard_loser_entry (fs : FinalGameState) (lb : Leaderboard)
    (e : Env) (s : Store) (l : string) :
  counted (f_loser fs) = Some l -> counted (f_winner fs) <> Some l ->
  is_proto_name l = false ->
  exists ent,
    lb_get l (fst (updateLeaderboard fs lb e s)) = Some ent /\
    entry_address ent = entry_address (entry_or_new l lb) /\
    wins ent = wins (entry_or_new l lb) /\
    losses ent = (losses (entry_or_new l lb) + 1)%Z /\
    totalGames ent = (totalGames (entry_or_new l lb) + 1)%Z /\
    entry_kills ent = (entry_kills (entry_or_new l lb) + prop_or0Z l (finalKills fs))%Z /\
    bestLength ent = Rmax (bestLength (entry_or_new l lb)) (prop_or0R l (finalLengths fs)) /\
    bestScore ent = Z.max (bestScore (entry_or_new l lb)) (prop_or0Z l (finalScores fs)) /\
    lastProofHash ent = lastProofHash (entry_or_new l lb).
Proof.
  intros Hl Hw _. rewrite updateLeaderboard_fst. cbv zeta. rewrite Hl.
  assert (E1 : entry_or_new l (match counted (f_winner fs) with
                               | Some w => lb_set w (record_win (entry_or_new w lb) w fs
                                             (proof_hash (f_matchId fs) (date_now e (now_calls s)))
                                             (date_now e (S (now_calls s)))) lb
                               | None => lb end) = entry_or_new l lb).
  { destruct (counted (f_winner fs)) as [w|]; [|reflexivity].
    unfold entry_or_new. rewrite lb_get_set.
    destruct (String.eqb l w) eqn:E; [apply String.eqb_eq in E; subst; congruence|].
    reflexivity. }
  rewrite E1. eexists; split.
  - rewrite lb_get_set, String.eqb_refl. reflexivity.
  - unfold record_loss; cbn [entry_address wins losses totalGames entry_kills
                             bestLength bestScore lastProofHash].
    repeat split.
Qed.

Lemma updateLeaderboard_loser_entry_witness :
  counted (f_loser sample_final) = Some "0xB" /\
  counted (f_winner sample_final) <> Some "0xB" /\
  is_proto_name "0xB" = false /\
  exists ent,
    lb_get "0xB" (fst (updateLeaderboard sample_final sample_board env0 store0)) = Some ent /\
    entry_address ent = entry_address (entry_or_new "0xB" sample_board) /\
    wins ent = wins (entry_or_new "0xB" sample_board) /\
    losses ent = (losses (entry_or_new "0xB" sample_board) + 1)%Z /\
    totalGames ent = (totalGames (entry_or_new "0xB" sample_board) + 1)%Z /\
    entry_kills ent = (entry_kills (entry_or_new "0xB" sample_board) +
                       prop_or0Z "0xB" (finalKills sample_final))%Z /\
    bestLength ent = Rmax (bestLength (entry_or_new "0xB" sample_board))
                          (prop_or0R "0xB" (finalLengths sample_final)) /\
    bestScore ent = Z.max (bestScore (entry_or_new "0xB" sample_board))
                          (prop_or0Z "0xB" (finalScores sample_final)) /\
    lastProofHash ent = lastProofHash (entry_or_new "0xB" sample_board).
Proof.
  split; [reflexivity|]. split; [discriminate|]. split; [reflexivity|].
  apply updateLeaderboard_loser_entry; [reflexivity|discriminate|reflexivity].
Defined.

Lemma lb_compare_gt (a b : LeaderboardEntry) :
  lb_compare a b = Gt -> lb_compare b a = Lt.
Proof.
  unfold lb_compare, Rcompare.
  destruct (Z.eqb (wins b) (wins a)) eqn:E1; cbn [negb].
  - apply Z.eqb_eq in E1. rewrite E1, Z.eqb_refl. cbn [negb].
    destruct (Z.eqb (bestScore b) (bestScore a)) eqn:E2; cbn [negb].
    + apply Z.eqb_eq in E2. rewrite E2, Z.eqb_refl. cbn [negb].
      destruct (Rlt_dec (bestLength b - bestLength a) 0); [discriminate|].
      destruct (Rlt_dec 0 (bestLength b - bestLength a)); [|discriminate].
      intros _. destruct (Rlt_dec (bestLength a - bestLength b) 0); [reflexivity|lra].
    + rewrite Z.eqb_sym, E2. cbn [negb].
      rewrite Z.compare_gt_iff. intro H. rewrite Z.compare_lt_iff. lia.
  - rewrite Z.eqb_sym, E1. cbn [negb].
    rewrite Z.compare_gt_iff. intro H. rewrite Z.compare_lt_iff. lia.
Qed.

Lemma insert_entry_sorted (x : LeaderboardEntry) (l : list LeaderboardEntry) :
  Sorted lb_le l -> Sorted lb_le (insert_entry x l).
Proof.
  induction l as [|y l IH]; cbn [insert_entry]; intro H.
  - repeat constructor.
  - destruct (lb_compare x y) eqn:C.
    + constructor; [exact H|constructor; unfold lb_le; congruence].
    + constructor; [exact H|constructor; unfold lb_le; congruence].
    + apply Sorted_inv in H as [Hl Hh]. constructor; [exact (IH Hl)|].
      destruct l as [|z l]; cbn [insert_entry].
      * constructor. unfold lb_le. rewrite (lb_compare_gt _ _ C). discriminate.
      * destruct (lb_compare x z); constructor;
          try (unfold lb_le; rewrite (lb_compare_gt _ _ C); discriminate);
          inversion Hh; assumption.
Qed.

Lemma sort_entries_sorted (l : list LeaderboardEntry) : Sorted lb_le (sort_entries l).
Proof.
  induction l as [|x l IH]; cbn [sort_entries]; [constructor|].
  apply insert_entry_sorted, IH.
Qed.

Lemma insert_entry_perm (x : LeaderboardEntry) (l : list LeaderboardEntry) :
  Permutation (insert_entry x l) (x :: l).
Proof.
  induction l as [|y l IH]; cbn [insert_entry]; [reflexivity|].
  destruct (lb_compare x y); try reflexivity.
  rewrite IH. apply perm_swap.
Qed.

Lemma sort_entries_perm (l : list LeaderboardEntry) : Permutation (sort_entries l) l.
Proof.
  induction l as [|x l IH]; cbn [sort_entries]; [reflexivity|].
  rewrite insert_entry_perm, IH. reflexivity.
Qed.

Lemma firstn_sorted {A} (Rel : A -> A -> Prop) (n : nat) : forall l,
  Sorted Rel l -> Sorted Rel (firstn n l).
Proof.
  induction n as [|n IH]; intros l H; [constructor|].
  destruct l as [|a l]; [constructor|]. cbn [firstn].
  apply Sorted_inv in H as [Hl Hh]. constructor; [exact (IH l Hl)|].
  destruct n as [|n]; [constructor|]. destruct l as [|b l]; [constructor|].
  inversion Hh; subst. constructor; assumption.
Qed.

(** X16: [getLeaderboard lb limit] lists entries of the leaderboard, each
    at most once, ordered by the comparator (more wins first, then higher
    best score, then greater best length); it returns
    [min(limit, size)] entries for a nonnegative [limit] and
    [max(0, size + limit)] for a negative one. *)
Theorem getLeaderboard_sorted (lb : Leaderboard) (limit : Z) :
  Sorted lb_le (getLeaderboard lb limit) /\
  (exists rest, Permutation (getLeaderboard lb limit ++ rest) (map snd lb)) /\
  Z.of_nat (List.length (getLeaderboard lb limit)) =
    (if (limit <? 0)%Z then Z.max 0 (Z.of_nat (List.length lb) + limit)
     else Z.min limit (Z.of_nat (List.length lb)))%Z.
Proof.
  unfold getLeaderboard, slice0.
  set (sorted := sort_entries (map snd lb)).
  assert (Ln : List.length sorted = List.length lb).
  { unfold sorted. rewrite (Permutation_length (sort_entries_perm _)). apply length_map. }
  rewrite Ln.
  set (k := Z.to_nat _).
  split; [apply firstn_sorted, sort_entries_sorted|].
  split.
  - exists (skipn k sorted). rewrite firstn_skipn. apply sort_entries_perm.
  - rewrite length_firstn, Ln. unfold k.
    destruct (limit <? 0)%Z eqn:E; [apply Z.ltb_lt in E|apply Z.ltb_ge in E]; lia.
Qed.

Lemma findIndex_range {A} (p : A -> bool) (l : list A) :
  (exists x, In x l /\ p x = true) ->
  (0 <= findIndex p l < Z.of_nat (List.length l))%Z.
Proof.
  induction l as [|a l IH]; intros [x [Hx Hp]]; [destruct Hx|].
  cbn [findIndex List.length]. destruct (p a) eqn:Pa; [lia|].
  destruct Hx as [<-|Hx]; [congruence|].
  destruct (IH (ex_intro _ x (conj Hx Hp))) as [L U].
  destruct (findIndex p l) as [|q|q]; lia.
Qed.

Lemma lb_get_in (k : string) (m : Leaderboard) (v : LeaderboardEntry) :
  lb_get k m = Some v -> In v (map snd m).
Proof.
  induction m as [|[k0 v0] m IH]; cbn [lb_get map snd]; intro H; [discriminate|].
  destruct (String.eqb k k0); [injection H as <-; left; reflexivity|].
  right. exact (IH H).
Qed.

(** X17: on a well-formed leaderboard of at most 1000 entries, the
    [/api/leaderboard/:address] handler answers for every stored address
    with its entry and a rank between [1] and the number of entries. *)
Theorem player_rank_range (lb : Leaderboard) (a : string) (ent : LeaderboardEntry) :
  lb_ok lb -> (List.length lb <= 1000)%nat -> lb_get a lb = Some ent ->
  exists r, player_rank lb a = Some (ent, r) /\
            (1 <= r <= Z.of_nat (List.length lb))%Z.
Proof.
  intros Hok Hn Hg. unfold player_rank. rewrite Hg. eexists; split; [reflexivity|].
  rewrite lb_ok_iff in Hok. destruct Hok as [_ Hf].
  destruct (lb_get_ok a lb ent Hf Hg) as [Ha _].
  assert (Ln : List.length (sort_entries (map snd lb)) = List.length lb).
  { rewrite (Permutation_length (sort_entries_perm _)). apply length_map. }
  assert (Hall : getLeaderboard lb 1000 = sort_entries (map snd lb)).
  { unfold getLeaderboard, slice0. rewrite Ln. cbn [Z.ltb Z.compare].
    rewrite Z.min_r by lia. rewrite Nat2Z.id, <- Ln. apply firstn_all. }
  rewrite Hall.
  assert (Hin : In ent (sort_entries (map snd lb))).
  { apply (Permutation_in _ (Permutation_sym (sort_entries_perm _))).
    exact (lb_get_in a lb ent Hg). }
  pose proof (findIndex_range (fun e => String.eqb (entry_address e) a)
                (sort_entries (map snd lb))
                (ex_intro _ ent (conj Hin (proj2 (String.eqb_eq _ _) Ha)))) as R.
  rewrite Ln in R. lia.
Qed.

Lemma player_rank_range_witness :
  lb_ok sample_board /\ (List.length sample_board <= 1000)%nat /\
  lb_get "0xA" sample_board = Some (mkEntry "0xA" 2 1 5 120 40 3 "" 0) /\
  exists r, player_rank sample_board "0xA" = Some (mkEntry "0xA" 2 1 5 120 40 3 "" 0, r) /\
            (1 <= r <= Z.of_nat (List.length sample_board))%Z.
Proof.
  split; [exact sample_board_ok|]. split; [cbn; lia|]. split; [reflexivity|].
  apply player_rank_range; [exact sample_board_ok|cbn; lia|reflexivity].
Defined.

Ltac split_M :=
  repeat match goal with
         | |- context [match ?c with pair _ _ => _ end] =>
             let a := fresh "a" in let s' := fresh "s" in destruct c as [a s']
         end.

Lemma queue_get_put (k k' : string) (q : list QueuedPlayer)
    (qs : list (string * list QueuedPlayer)) :
  queue_get k (queue_put k' q qs) =
  if String.eqb k k' then option_map (fun _ => q) (queue_get k qs)
  else queue_get k qs.
Proof.
  induction qs as [|[k0 q0] qs IH]; cbn [queue_put queue_get].
  - destruct (String.eqb k k'); reflexivity.
  - destruct (String.eqb k' k0) eqn:E.
    + apply String.eqb_eq in E; subst k0. cbn [queue_get].
      destruct (String.eqb k k'); reflexivity.
    + cbn [queue_get]. rewrite IH.
      destruct (String.eqb k k0) eqn:E1, (String.eqb k k') eqn:E2; try reflexivity.
      apply String.eqb_eq in E1, E2; subst. rewrite String.eqb_refl in E.
      discriminate.
Qed.

Lemma queue_put_keys (k : string) (q : list QueuedPlayer)
    (qs : list (string * list QueuedPlayer)) :
  map fst (queue_put k q qs) = map fst qs.
Proof.
  induction qs as [|[k0 q0] qs IH]; cbn [queue_put map]; [reflexivity|].
  destruct (String.eqb k k0); cbn [map fst]; [reflexivity|]. rewrite IH. reflexivity.
Qed.

Lemma queue_put_forall (P : list QueuedPlayer -> Prop) (k : string)
    (q : list QueuedPlayer) (qs : list (string * list QueuedPlayer)) :
  Forall (fun kq => P (snd kq)) qs -> P q -> Forall (fun kq => P (snd kq)) (queue_put k q qs).
Proof.
  induction qs as [|[k0 q0] qs IH]; cbn [queue_put]; intros H Hq; [constructor|].
  inversion H as [|? ? H0 Hs]; subst.
  destruct (String.eqb k k0); constructor; auto.
Qed.

Lemma queue_get_forall (P : list QueuedPlayer -> Prop) (k : string)
    (q : list QueuedPlayer) (qs : list (string * list QueuedPlayer)) :
  Forall (fun kq => P (snd kq)) qs -> queue_get k qs = Some q -> P q.
Proof.
  induction qs as [|[k0 q0] qs IH]; cbn [queue_get]; intros H Hg; [discriminate|].
  inversion H as [|? ? H0 Hs]; subst.
  destruct (String.eqb k k0); [injection Hg as <-; exact H0|exact (IH Hs Hg)].
Qed.

Lemma queue_slot_get (k : string) (qs : list (string * list QueuedPlayer))
    (q : list QueuedPlayer) :
  queue_get k qs = Some q -> queue_slot k qs = OwnQueue q.
Proof. intro H; unfold queue_slot; rewrite H; reflexivity. Qed.

Lemma queue_slot_own (k : string) (qs : list (string * list QueuedPlayer))
    (q : list QueuedPlayer) :
  queue_slot k qs = OwnQueue q -> queue_get k qs = Some q.
Proof.
  unfold queue_slot. destruct (queue_get k qs) as [q'|]; [congruence|].
  destruct (is_proto_name k); discriminate.
Qed.

Lemma not_bot_mode (mode : option string) :
  mode <> Some "bot" ->
  match mode with Some m => String.eqb m "bot" | None => false end = false.
Proof.
  destruct mode as [m|]; [|reflexivity]. intro Hm.
  destruct (String.eqb m "bot") eqn:E; [|reflexivity].
  apply String.eqb_eq in E; subst; congruence.
Qed.

(** X18: [join_lobby] changes nothing for a stake that is neither a tier
    nor an [Object.prototype] name, nor, in multiplayer mode, for an
    [Object.prototype] name (its [push] throws); it keeps the tiers of
    [queues], and leaves at most one player waiting in each tier if there
    was at most one before. *)
Theorem join_lobby_queues (sock addr stake : string) (mode : option string)
    (r : Registry) (e : Env) (s : Store) :
  (queue_slot stake (queues r) = Missing -> join_lobby sock addr stake mode r e s = (r, s)) /\
  (queue_slot stake (queues r) = Inherited -> mode <> Some "bot" ->
     join_lobby sock addr stake mode r e s = (r, s)) /\
  map fst (queues (fst (join_lobby sock addr stake mode r e s))) = map fst (queues r) /\
  (queues_ok (queues r) -> queues_ok (queues (fst (join_lobby sock addr stake mode r e s)))).
Proof.
  split; [unfold join_lobby; intros ->; reflexivity|].
  split; [intros Hs Hm; unfold join_lobby; rewrite Hs, (not_bot_mode mode Hm); reflexivity|].
  unfold join_lobby.
  destruct (queue_slot stake (queues r)) as [q| |] eqn:Hq; [| |split; [reflexivity|auto]].
  - destruct (match mode with Some m => String.eqb m "bot" | None => false end).
    + unfold bind, ret. split_M. cbn [fst queues]. split; [reflexivity|auto].
    + cbv beta iota.
      apply queue_slot_own in Hq.
      destruct (q ++ [mkQueued sock addr stake])%list as [|p1 [|p2 rest]] eqn:Hq'.
      * unfold ret; cbn [fst queues]. rewrite queue_put_keys.
        split; [reflexivity|]. intro H.
        apply (queue_put_forall (fun q => (List.length q <= 1)%nat)); [exact H|cbn; lia].
      * unfold ret; cbn [fst queues]. rewrite queue_put_keys.
        split; [reflexivity|]. intro H.
        apply (queue_put_forall (fun q => (List.length q <= 1)%nat)); [exact H|cbn; lia].
      * unfold bind, ret. split_M. cbn [fst queues]. rewrite queue_put_keys.
        split; [reflexivity|]. intro H.
        apply (queue_put_forall (fun q => (List.length q <= 1)%nat)); [exact H|].
        pose proof (queue_get_forall (fun q => (List.length q <= 1)%nat) _ _ _ H Hq) as L.
        cbn in L.
        apply (f_equal (@List.length _)) in Hq'. rewrite length_app in Hq'.
        cbn [List.length] in Hq' |- *. lia.
  - destruct (match mode with Some m => String.eqb m "bot" | None => false end).
    + unfold bind, ret. split_M. cbn [fst queues]. split; [reflexivity|auto].
    + unfold ret; cbn [fst]. split; [reflexivity|auto].
Qed.

Lemma prefix_append (p x : string) : String.prefix p (p ++ x) = true.
Proof.
  induction p as [|c p IH].
  - destruct x; reflexivity.
  - cbn [String.append String.prefix]. rewrite IH.
    destruct (ascii_dec c c); [reflexivity|congruence].
Qed.

Lemma lookup_games_set (k k' : string) (g : Game) (m : list (string * Game)) :
  lookup k (games_set k' g m) = if String.eqb k k' then Some g else lookup k m.
Proof.
  induction m as [|[k0 g0] m IH]; cbn [games_set lookup].
  - destruct (String.eqb k k'); reflexivity.
  - destruct (String.eqb k' k0) eqn:E.
    + apply String.eqb_eq in E; subst k0. cbn [lookup].
      destruct (String.eqb k k'); reflexivity.
    + cbn [lookup]. rewrite IH.
      destruct (String.eqb k k0) eqn:E1, (String.eqb k k') eqn:E2; try reflexivity.
      apply String.eqb_eq in E1, E2; subst. rewrite String.eqb_refl in E.
      discriminate.
Qed.

(** X19: a multiplayer [join_lobby] on a tier whose queue is empty leaves
    the player waiting alone in that queue; on a tier where one player
    [w] waits (possibly from the same socket), it empties the queue,
    registers under a fresh ["match_..."] identifier a game between [w]'s
    socket as player 1 and the joining socket as player 2, and sends
    [match_found] to both. *)
Theorem join_lobby_pairing (sock addr stake : string) (mode : option string)
    (r : Registry) (e : Env) (s : Store) :
  mode <> Some "bot" ->
  (queue_get stake (queues r) = Some [] ->
     queue_get stake (queues (fst (join_lobby sock addr stake mode r e s))) =
       Some [mkQueued sock addr stake] /\
     games (fst (join_lobby sock addr stake mode r e s)) = games r /\
     events (fst (join_lobby sock addr stake mode r e s)) = events r) /\
  (forall w, queue_get stake (queues r) = Some [w] ->
     queue_get stake (queues (fst (join_lobby sock addr stake mode r e s))) = Some [] /\
     exists matchId st t,
       String.prefix "match_" matchId = true /\
       lookup matchId (games (fst (join_lobby sock addr stake mode r e s))) =
         Some (mkGame st (socketId w) sock (q_address w) addr None (IZR t) stake false) /\
       events (fst (join_lobby sock addr stake mode r e s)) =
         (events r ++ [MatchFound (socketId w) addr matchId stake "p1";
                       MatchFound sock (q_address w) matchId stake "p2"])%list).
Proof.
  intro Hm. pose proof (not_bot_mode mode Hm) as B.
  split.
  - intro Hq. unfold join_lobby. rewrite (queue_slot_get _ _ _ Hq), B. cbv beta iota.
    cbn [List.app]. unfold ret; cbn [fst queues games events].
    rewrite queue_get_put, String.eqb_refl, Hq. split; [reflexivity|split; reflexivity].
  - intros w Hq. unfold join_lobby. rewrite (queue_slot_get _ _ _ Hq), B. cbv beta iota.
    cbn [List.app].
    unfold bind, ret. destruct (date_now_M e s) as [now s1].
    destruct (random_suffix e s1) as [sfx s2].
    destruct (createInitialState _ _ _ _ e s2) as [st s3].
    destruct (date_now_M e s3) as [t s4]. cbn [fst queues games events].
    rewrite queue_get_put, String.eqb_refl, Hq. split; [reflexivity|].
    exists ("match_" ++ number_toString now ++ "_" ++ sfx), st, t.
    split; [apply prefix_append|]. split; [|reflexivity].
    rewrite lookup_games_set, String.eqb_refl. reflexivity.
Qed.

Lemma join_lobby_pairing_witness :
  Some "multiplayer" <> Some "bot" /\
  (queue_get "5000000" initial_queues = Some [] /\
   queue_get "5000000" (queues (fst (join_lobby "sock1" "0xA" "5000000" (Some "multiplayer")
                                      (mkRegistry initial_queues [] [] [] []) env0 store0))) =
     Some [mkQueued "sock1" "0xA" "5000000"] /\
   games (fst (join_lobby "sock1" "0xA" "5000000" (Some "multiplayer")
                (mkRegistry initial_queues [] [] [] []) env0 store0)) = [] /\
   events (fst (join_lobby "sock1" "0xA" "5000000" (Some "multiplayer")
                 (mkRegistry initial_queues [] [] [] []) env0 store0)) = []) /\
  (queue_get "1000000" waiting_queues = Some [mkQueued "sock0" "0xB" "1000000"] /\
   queue_get "1000000" (queues (fst (join_lobby "sock1" "0xA" "1000000" (Some "multiplayer")
                                      (mkRegistry waiting_queues [] [] [] []) env0 store0))) =
     Some [] /\
   exists matchId st t,
     String.prefix "match_" matchId = true /\
     lookup matchId (games (fst (join_lobby "sock1" "0xA" "1000000" (Some "multiplayer")
                                   (mkRegistry waiting_queues [] [] [] []) env0 store0))) =
       Some (mkGame st "sock0" "sock1" "0xB" "0xA" None (IZR t) "1000000" false) /\
     events (fst (join_lobby "sock1" "0xA" "1000000" (Some "multiplayer")
                   (mkRegistry waiting_queues [] [] [] []) env0 store0)) =
       ([] ++ [MatchFound "sock0" "0xA" matchId "1000000" "p1";
               MatchFound "sock1" "0xB" matchId "1000000" "p2"])%list).
Proof.
  split; [discriminate|]. split.
  - split; [reflexivity|].
    exact (proj1 (join_lobby_pairing "sock1" "0xA" "5000000" (Some "multiplayer")
                    (mkRegistry initial_queues [] [] [] []) env0 store0
                    ltac:(discriminate)) eq_refl).
  - split; [reflexivity|].
    exact (proj2 (join_lobby_pairing "sock1" "0xA" "1000000" (Some "multiplayer")
                    (mkRegistry waiting_queues [] [] [] []) env0 store0
                    ltac:(discriminate)) (mkQueued "sock0" "0xB" "1000000") eq_refl).
Defined.

Lemma lookup_delete (k k' : string) (m : list (string * Game)) :
  lookup k (delete_key k' m) = if String.eqb k k' then None else lookup k m.
Proof.
  unfold delete_key.
  induction m as [|[k0 g0] m IH]; cbn [filter lookup fst].
  - destruct (String.eqb k k'); reflexivity.
  - destruct (String.eqb k' k0) eqn:E; cbn [negb].
    + apply String.eqb_eq in E; subst k0. rewrite IH.
      destruct (String.eqb k k'); reflexivity.
    + cbn [lookup]. rewrite IH.
      destruct (String.eqb k k0) eqn:E1, (String.eqb k k') eqn:E2; try reflexivity.
      apply String.eqb_eq in E1, E2; subst. rewrite String.eqb_refl in E.
      discriminate.
Qed.

Lemma end_games_spec (sock : string) (gs : list (string * Game)) :
  forall r e s,
    queues (fst (end_games sock gs r e s)) = queues r /\
    (forall k, lookup k (games (fst (end_games sock gs r e s))) =
       if existsb (fun kg => String.eqb (fst kg) k && sock_game sock (snd kg)) gs
       then None else lookup k (games r)) /\
    (lb_ok (board r) -> lb_ok (board (fst (end_games sock gs r e s)))).
Proof.
  induction gs as [|[mid g] gs IH]; intros r e s; cbn [end_games existsb].
  - unfold ret; cbn [fst]. auto.
  - cbn [fst snd]. fold (sock_game sock g).
    destruct (sock_game sock g).
    + unfold bind. destruct (date_now_M e s) as [now s1].
      pose proof (updateLeaderboard_keeps_ok (disconnect_summary sock mid g now)
                    (board r) e s1) as Hb.
      destruct (updateLeaderboard _ (board r) e s1) as [b s2]. cbn [fst] in Hb.
      destruct (IH (mkRegistry (queues r) (delete_key mid (games r))
                      (events r ++ [GameOver (if String.eqb (player1Socket g) sock
                                              then player2Socket g else player1Socket g)
                                      (disconnect_summary sock mid g now)])%list
                      (match interval g with Some t => t :: cleared r | None => cleared r end)
                      b) e s2) as [Q [G B]].
      cbn [queues games board] in Q, G, B.
      split; [exact Q|]. split; [|intro H; exact (B (Hb H))].
      intro k. rewrite G, lookup_delete, andb_true_r.
      destruct (String.eqb k mid) eqn:E2.
      * apply String.eqb_eq in E2; subst. rewrite String.eqb_refl. cbn [orb].
        destruct (existsb _ gs); reflexivity.
      * rewrite String.eqb_sym, E2. reflexivity.
    + destruct (IH r e s) as [Q [G B]]. split; [exact Q|]. split; [|exact B].
      intro k. rewrite G, andb_false_r. reflexivity.
Qed.

Lemma lookup_in (k : string) (g : Game) (m : list (string * Game)) :
  lookup k m = Some g -> In (k, g) m.
Proof.
  induction m as [|[k0 g0] m IH]; cbn [lookup]; intro H; [discriminate|].
  destruct (String.eqb k k0) eqn:E.
  - apply String.eqb_eq in E; subst. injection H as <-. left; reflexivity.
  - right. exact (IH H).
Qed.

Lemma in_lookup (k : string) (g : Game) (m : list (string * Game)) :
  NoDup (map fst m) -> In (k, g) m -> lookup k m = Some g.
Proof.
  induction m as [|[k0 g0] m IH]; cbn [lookup map fst]; intros Hd Hi; [destruct Hi|].
  inversion Hd as [|? ? Hn Hd']; subst.
  destruct Hi as [Heq|Hi].
  - injection Heq as <- <-. rewrite String.eqb_refl. reflexivity.
  - destruct (String.eqb k k0) eqn:E.
    + apply String.eqb_eq in E; subst. exfalso. apply Hn.
      exact (in_map fst _ _ Hi).
    + exact (IH Hd' Hi).
Qed.

Lemma remove_socket_small (sock : string) (q : list QueuedPlayer) :
  (List.length q <= 1)%nat -> Forall (fun p => socketId p <> sock) (remove_socket sock q).
Proof.
  destruct q as [|p [|p' q]]; cbn [List.length remove_socket]; intro H; try lia.
  - constructor.
  - destruct (String.eqb (socketId p) sock) eqn:E; [constructor|].
    constructor; [|constructor]. apply String.eqb_neq. exact E.
Qed.

(** X21: after the [disconnect] handler for socket [sock] (on a registry
    whose match identifiers are distinct), no active game has [sock] as a
    player socket, every other game is still registered under its
    identifier, no queue holds [sock] if each queue held at most one
    player, and a well-formed leaderboard stays well formed. *)
Theorem on_disconnect_cleanup (sock : string) (r : Registry) (e : Env) (s : Store) :
  NoDup (map fst (games r)) ->
  (forall k g, lookup k (games (fst (on_disconnect sock r e s))) = Some g ->
     player1Socket g <> sock /\ player2Socket g <> sock /\ lookup k (games r) = Some g) /\
  (forall k g, lookup k (games r) = Some g ->
     player1Socket g <> sock -> player2Socket g <> sock ->
     lookup k (games (fst (on_disconnect sock r e s))) = Some g) /\
  (queues_ok (queues r) ->
     Forall (fun kq => Forall (fun p => socketId p <> sock) (snd kq))
       (queues (fst (on_disconnect sock r e s)))) /\
  (lb_ok (board r) -> lb_ok (board (fst (on_disconnect sock r e s)))).
Proof.
  intro Hd. unfold on_disconnect.
  destruct (end_games_spec sock (games r)
              (mkRegistry (map (fun kq => (fst kq, remove_socket sock (snd kq))) (queues r))
                 (games r) (events r) (cleared r) (board r)) e s) as [Q [G B]].
  cbn [queues games board] in Q, G, B.
  split; [|split; [|split]].
  - intros k g H. rewrite G in H.
    destruct (existsb _ (games r)) eqn:X; [discriminate|].
    assert (N : sock_game sock g = false).
    { destruct (sock_game sock g) eqn:Sg; [|reflexivity].
      assert (T : existsb (fun kg => String.eqb (fst kg) k && sock_game sock (snd kg))
                    (games r) = true).
      { apply existsb_exists. exists (k, g). split; [exact (lookup_in _ _ _ H)|].
        cbn [fst snd]. rewrite String.eqb_refl, Sg. reflexivity. }
      congruence. }
    unfold sock_game in N. apply orb_false_iff in N as [N1 N2].
    apply String.eqb_neq in N1, N2. auto.
  - intros k g H N1 N2. rewrite G.
    destruct (existsb _ (games r)) eqn:X; [|exact H].
    apply existsb_exists in X as [[k' g'] [Hin Hx]]. cbn [fst snd] in Hx.
    apply andb_true_iff in Hx as [Hk Hs]. apply String.eqb_eq in Hk; subst k'.
    rewrite (in_lookup _ _ _ Hd Hin) in H. injection H as ->.
    unfold sock_game in Hs. apply orb_true_iff in Hs as [Hs|Hs];
      apply String.eqb_eq in Hs; contradiction.
  - intro Hq. rewrite Q. unfold queues_ok in Hq. revert Hq.
    generalize (queues r) as qs.
    induction qs as [|[k q] qs IHq]; intro Hq; cbn [map]; constructor.
    + inversion Hq; subst. apply remove_socket_small. assumption.
    + inversion Hq; subst. apply IHq. assumption.
  - exact B.
Qed.

Lemma on_disconnect_cleanup_witness :
  NoDup (map fst (games (mkRegistry initial_queues (activeGames sample_server) [] [] []))) /\
  (forall k g, lookup k (games (fst (on_disconnect "sock1"
                 (mkRegistry initial_queues (activeGames sample_server) [] [] []) env0 store0))) = Some g ->
     player1Socket g <> "sock1" /\ player2Socket g <> "sock1" /\
     lookup k (games (mkRegistry initial_queues (activeGames sample_server) [] [] [])) = Some g) /\
  (forall k g, lookup k (games (mkRegistry initial_queues (activeGames sample_server) [] [] [])) = Some g ->
     player1Socket g <> "sock1" -> player2Socket g <> "sock1" ->
     lookup k (games (fst (on_disconnect "sock1"
                 (mkRegistry initial_queues (activeGames sample_server) [] [] []) env0 store0))) = Some g) /\
  (queues_ok (queues (mkRegistry initial_queues (activeGames sample_server) [] [] [])) ->
     Forall (fun kq => Forall (fun p => socketId p <> "sock1") (snd kq))
       (queues (fst (on_disconnect "sock1"
          (mkRegistry initial_queues (activeGames sample_server) [] [] []) env0 store0)))) /\
  (lb_ok (board (mkRegistry initial_queues (activeGames sample_server) [] [] [])) ->
     lb_ok (board (fst (on_disconnect "sock1"
       (mkRegistry initial_queues (activeGames sample_server) [] [] []) env0 store0)))).
Proof.
  assert (H : NoDup (map fst (games (mkRegistry initial_queues (activeGames sample_server) [] [] [])))).
  { cbn. constructor; [intros []|constructor]. }
  split; [exact H|]. apply on_disconnect_cleanup. exact H.
Defined.

Lemma ready_game1_fields (game : Game) (sock addr : string) :
  let game1 :=
    if String.eqb addr (player1Address game) then set_player1Socket game sock
    else if String.eqb addr (player2Address game) &&
            negb (String.eqb (player2Address game) "BOT")
    then set_player2Socket game sock
    else game in
  gstate game1 = gstate game /\ interval game1 = interval game /\
  startTime game1 = startTime game /\ player2Address game1 = player2Address game /\
  (player1Socket game1 = player1Socket game \/ player1Socket game1 = sock) /\
  (player2Socket game1 = player2Socket game \/ player2Socket game1 = sock).
Proof.
  cbv zeta.
  destruct (String.eqb addr (player1Address game));
    [|destruct (String.eqb addr (player2Address game) &&
                negb (String.eqb (player2Address game) "BOT"))];
    cbn; auto 10.
Qed.

(** X22: [ready_to_start] on a game whose loop is already running starts
    no second loop: the game keeps its timer, state and start time, no
    event is emitted and [Date.now()] is not read. *)
Theorem ready_to_start_once (sock matchId addr : string) (timer : nat)
    (r : Registry) (e : Env) (s : Store) (game : Game) (t0 : nat) :
  lookup matchId (games r) = Some game -> interval game = Some t0 ->
  snd (ready_to_start sock matchId addr timer r e s) = s /\
  events (fst (ready_to_start sock matchId addr timer r e s)) = events r /\
  exists g', lookup matchId (games (fst (ready_to_start sock matchId addr timer r e s))) = Some g' /\
    interval g' = Some t0 /\ gstate g' = gstate game /\ startTime g' = startTime game.
Proof.
  intros Hl Hi. unfold ready_to_start. rewrite Hl.
  pose proof (ready_game1_fields game sock addr) as F. cbv zeta in F |- *.
  set (game1 := if String.eqb addr (player1Address game) then _ else _) in *.
  destruct F as [Fs [Fi [Ft _]]]. rewrite Fi, Hi. rewrite andb_false_r.
  unfold ret; cbn [fst snd events games].
  split; [reflexivity|]. split; [reflexivity|].
  exists game1. rewrite lookup_games_set, String.eqb_refl.
  split; [reflexivity|]. split; [rewrite Fi; exact Hi|]. split; assumption.
Qed.

Lemma ready_to_start_once_witness :
  lookup "match_1" (games (mkRegistry initial_queues
      [("match_1", sample_game (sample_state (sample_snake "0xA" 120 40 true)
                                  (sample_snake "0xB" 90 10 true)))] [] [] [])) =
    Some (sample_game (sample_state (sample_snake "0xA" 120 40 true)
                         (sample_snake "0xB" 90 10 true))) /\
  interval (sample_game (sample_state (sample_snake "0xA" 120 40 true)
                           (sample_snake "0xB" 90 10 true))) = Some 7%nat /\
  (let r := mkRegistry initial_queues
      [("match_1", sample_game (sample_state (sample_snake "0xA" 120 40 true)
                                  (sample_snake "0xB" 90 10 true)))] [] [] [] in
   let game := sample_game (sample_state (sample_snake "0xA" 120 40 true)
                              (sample_snake "0xB" 90 10 true)) in
   snd (ready_to_start "sock1" "match_1" "0xA" 8 r env0 store0) = store0 /\
   events (fst (ready_to_start "sock1" "match_1" "0xA" 8 r env0 store0)) = events r /\
   exists g', lookup "match_1" (games (fst (ready_to_start "sock1" "match_1" "0xA" 8 r env0 store0))) = Some g' /\
     interval g' = Some 7%nat /\ gstate g' = gstate game /\ startTime g' = startTime game).
Proof.
  split; [reflexivity|]. split; [reflexivity|].
  apply ready_to_start_once; reflexivity.
Defined.

(** X23: [ready_to_start] from any (non-empty) socket, with any address,
    starts the loop of a registered game whose two player sockets are
    already set and which has no loop yet: the game gets the timer and
    the current state is broadcast to the match room.  Games paired by
    [join_lobby] have both sockets set, so the first [ready_to_start]
    starts them. *)
Theorem ready_to_start_starts (sock matchId addr : string) (timer : nat)
    (r : Registry) (e : Env) (s : Store) (game : Game) :
  lookup matchId (games r) = Some game -> interval game = None ->
  player1Socket game <> "" -> player2Socket game <> "" -> sock <> "" ->
  events (fst (ready_to_start sock matchId addr timer r e s)) =
    (events r ++ [StateUpdate matchId (gstate game)])%list /\
  exists g', lookup matchId (games (fst (ready_to_start sock matchId addr timer r e s))) = Some g' /\
    interval g' = Some timer /\ gstate g' = gstate game.
Proof.
  intros Hl Hi H1 H2 Hs. unfold ready_to_start. rewrite Hl.
  pose proof (ready_game1_fields game sock addr) as F. cbv zeta in F |- *.
  set (game1 := if String.eqb addr (player1Address game) then _ else _) in *.
  destruct F as [Fs [Fi [Ft [Fa [F1 F2]]]]].
  assert (N1 : String.eqb (player1Socket game1) "" = false).
  { apply String.eqb_neq. destruct F1 as [->| ->]; assumption. }
  assert (N2 : String.eqb (player2Socket game1) "" = false).
  { apply String.eqb_neq. destruct F2 as [->| ->]; assumption. }
  rewrite N1, N2, Fi, Hi. cbn [negb andb orb].
  unfold bind, ret. destruct (date_now_M e s) as [t s1].
  destruct (date_now_M e s1) as [t' s2]. cbn [fst events games].
  rewrite Fs. split; [reflexivity|].
  eexists. rewrite lookup_games_set, String.eqb_refl. split; [reflexivity|].
  cbn [interval gstate]. split; reflexivity.
Qed.

Lemma ready_to_start_starts_witness :
  lookup "match_2" (games sample_pending_registry) = Some sample_pending_game /\
  interval sample_pending_game = None /\
  player1Socket sample_pending_game <> "" /\ player2Socket sample_pending_game <> "" /\
  "sock2" <> "" /\
  events (fst (ready_to_start "sock2" "match_2" "0xB" 8 sample_pending_registry env0 store0)) =
    (events sample_pending_registry ++ [StateUpdate "match_2" (gstate sample_pending_game)])%list /\
  exists g', lookup "match_2" (games (fst (ready_to_start "sock2" "match_2" "0xB" 8
                                            sample_pending_registry env0 store0))) = Some g' /\
    interval g' = Some 8%nat /\ gstate g' = gstate sample_pending_game.
Proof.
  do 2 (split; [reflexivity|]). do 3 (split; [discriminate|]).
  apply ready_to_start_starts; first [reflexivity | discriminate].
Defined.

(** The bot path of [join_lobby], taken for any stake that passes the
    [!queues[stake]] guard. *)
Lemma join_lobby_bot_path (sock addr stake : string) (r : Registry) (e : Env)
    (s : Store) :
  queue_slot stake (queues r) <> Missing ->
  queues (fst (join_lobby sock addr stake (Some "bot") r e s)) = queues r /\
  exists matchId st t,
    String.prefix "bot_match_" matchId = true /\
    lookup matchId (games (fst (join_lobby sock addr stake (Some "bot") r e s))) =
      Some (mkGame st "" "BOT" addr "BOT" None (IZR t) stake true) /\
    events (fst (join_lobby sock addr stake (Some "bot") r e s)) =
      (events r ++ [MatchFound sock "BOT" matchId stake "p1"])%list.
Proof.
  intro Hq. unfold join_lobby.
  destruct (queue_slot stake (queues r)) as [q| |]; [| |congruence].
  all: cbn [String.eqb Ascii.eqb Bool.eqb];
    unfold bind, ret; destruct (date_now_M e s) as [now s1];
    destruct (random_suffix e s1) as [sfx s2];
    destruct (createInitialState _ _ _ _ e s2) as [st s3];
    destruct (date_now_M e s3) as [t s4]; cbn [fst queues games events];
    split; [reflexivity|];
    exists ("bot_match_" ++ number_toString now ++ "_" ++ sfx), st, t;
    split; [apply prefix_append|]; split; [|reflexivity];
    rewrite lookup_games_set, String.eqb_refl; reflexivity.
Qed.

(** X20: a [join_lobby] in bot mode on a known tier leaves the queues
    alone and registers, under a fresh ["bot_match_..."] identifier, a
    bot-mode game of the joining address against ["BOT"] whose player-1
    socket is still empty, and sends [match_found] to the joining socket. *)
Theorem join_lobby_bot (sock addr stake : string) (r : Registry) (e : Env)
    (s : Store) (q : list QueuedPlayer) :
  queue_get stake (queues r) = Some q ->
  queues (fst (join_lobby sock addr stake (Some "bot") r e s)) = queues r /\
  exists matchId st t,
    String.prefix "bot_match_" matchId = true /\
    lookup matchId (games (fst (join_lobby sock addr stake (Some "bot") r e s))) =
      Some (mkGame st "" "BOT" addr "BOT" None (IZR t) stake true) /\
    events (fst (join_lobby sock addr stake (Some "bot") r e s)) =
      (events r ++ [MatchFound sock "BOT" matchId stake "p1"])%list.
Proof.
  intro Hq. apply join_lobby_bot_path. rewrite (queue_slot_get _ _ _ Hq). discriminate.
Qed.

Lemma join_lobby_bot_witness :
  queue_get "1000000" initial_queues = Some [] /\
  queues (fst (join_lobby "sock1" "0xA" "1000000" (Some "bot")
                 (mkRegistry initial_queues [] [] [] []) env0 store0)) = initial_queues /\
  exists matchId st t,
    String.prefix "bot_match_" matchId = true /\
    lookup matchId (games (fst (join_lobby "sock1" "0xA" "1000000" (Some "bot")
                                  (mkRegistry initial_queues [] [] [] []) env0 store0))) =
      Some (mkGame st "" "BOT" "0xA" "BOT" None (IZR t) "1000000" true) /\
    events (fst (join_lobby "sock1" "0xA" "1000000" (Some "bot")
                   (mkRegistry initial_queues [] [] [] []) env0 store0)) =
      ([] ++ [MatchFound "sock1" "BOT" matchId "1000000" "p1"])%list.
Proof.
  split; [reflexivity|].
  apply (join_lobby_bot "sock1" "0xA" "1000000" (mkRegistry initial_queues [] [] [] [])
           env0 store0 []). reflexivity.
Defined.

(** X24: a [join_lobby] in bot mode whose stake is the name of an
    [Object.prototype] property that is not a tier (say ["toString"])
    passes the [!queues[stake]] guard: it registers, under a fresh
    ["bot_match_..."] identifier, a bot-mode game with that stake and
    sends [match_found] to the joining socket, leaving the queues alone. *)
Theorem join_lobby_bot_inherited (sock addr stake : string) (r : Registry) (e : Env)
    (s : Store) :
  queue_slot stake (queues r) = Inherited ->
  queues (fst (join_lobby sock addr stake (Some "bot") r e s)) = queues r /\
  exists matchId st t,
    String.prefix "bot_match_" matchId = true /\
    lookup matchId (games (fst (join_lobby sock addr stake (Some "bot") r e s))) =
      Some (mkGame st "" "BOT" addr "BOT" None (IZR t) stake true) /\
    events (fst (join_lobby sock addr stake (Some "bot") r e s)) =
      (events r ++ [MatchFound sock "BOT" matchId stake "p1"])%list.
Proof. intro Hq. apply join_lobby_bot_path. rewrite Hq. discriminate. Qed.

Lemma join_lobby_bot_inherited_witness :
  queue_slot "toString" initial_queues = Inherited /\
  queues (fst (join_lobby "sock1" "0xA" "toString" (Some "bot")
                 (mkRegistry initial_queues [] [] [] []) env0 store0)) = initial_queues /\
  exists matchId st t,
    String.prefix "bot_match_" matchId = true /\
    lookup matchId (games (fst (join_lobby "sock1" "0xA" "toString" (Some "bot")
                                  (mkRegistry initial_queues [] [] [] []) env0 store0))) =
      Some (mkGame st "" "BOT" "0xA" "BOT" None (IZR t) "toString" true) /\
    events (fst (join_lobby "sock1" "0xA" "toString" (Some "bot")
                   (mkRegistry initial_queues [] [] [] []) env0 store0)) =
      ([] ++ [MatchFound "sock1" "BOT" matchId "toString" "p1"])%list.
Proof.
  split; [reflexivity|].
  apply (join_lobby_bot_inherited "sock1" "0xA" "toString"
           (mkRegistry initial_queues [] [] [] []) env0 store0). reflexivity.
Defined.

